(** * Signed-URL file access: the URL migration helper and the file gateway

    A shallow embedding of
    - [apps/frontend/src/utils/file-url-converter.ts]
      ([isOldTokenUrl], [extractFileMetadataFromUrl], [convertToSignedUrl]);
    - the [secureFilesRoutes] handlers ([POST /signed-url],
      [POST /signed-urls/batch], [GET /secure/*]);
    - the legacy [uploadsRoutes] handler
      [GET /:tenantId/:scope/:ownerId/:filename];
    - the rest of [uploadsRoutes]: [POST /], which stores uploaded files,
      and [DELETE /:tenantId/:scope/:ownerId/:filename];
    - the headers of the file responses and of the [OPTIONS] handlers;
    - [addJwtTokenToUploadsUrl] of
      [components/upload/components/multi-file-preview.tsx];
    - [getCurrentLang] of [locales/locales-config.ts].

    JavaScript strings are sequences of UTF-16 code units, exceptions are made
    explicit by a completion type, and every collaborator that lives outside
    the modelled files (the file system, the JWT verifier, the user store, the
    signed-URL service, the network call of the frontend) is a parameter of
    the handler that uses it.  The token codec of the signed-URL service,
    whose source is not at hand, is modelled from the specification where a
    property relates the extraction to a generated URL. *)

From Stdlib Require Import String Ascii DecimalString DecimalN DecimalFacts.
From Stdlib Require Import List NArith ZArith Bool Lia.
Import ListNotations.

Set Warnings "-register-all,-notation-for-abbreviation".
Local Open Scope N_scope.

(* ===================================================================== *)
(** ** JavaScript strings and the built-ins the code calls               *)
(* ===================================================================== *)

Module JS.

(** A string value: its UTF-16 code units. *)
Definition jstring := list N.

(** A literal of the source text (ASCII only). *)
Definition js (s : string) : jstring :=
  List.map N_of_ascii (list_ascii_of_string s).

Definition ch (a : ascii) : N := N_of_ascii a.

Fixpoint jstr_eqb (a b : jstring) : bool :=
  match a, b with
  | [], [] => true
  | x :: a', y :: b' => (x =? y) && jstr_eqb a' b'
  | _, _ => false
  end.

(** Exceptions a built-in or a collaborator can raise. *)
Inductive jserror :=
| TypeError
| URIError
| SyntaxError
| InvalidCharacterError
| RangeError
| OtherError (message : jstring).

(** The outcome of evaluating an expression that may throw. *)
Inductive completion (A : Type) :=
| Normal (a : A)
| Throw (e : jserror).
Arguments Normal {A} a.
Arguments Throw {A} e.

Definition bind {A B} (c : completion A) (k : A -> completion B) : completion B :=
  match c with
  | Normal a => k a
  | Throw e => Throw e
  end.

(** [try { c } catch (e) { handler e }] *)
Definition try_catch {A} (c : completion A) (handler : jserror -> completion A)
  : completion A :=
  match c with
  | Normal a => Normal a
  | Throw e => handler e
  end.

Definition of_option {A} (e : jserror) (o : option A) : completion A :=
  match o with
  | Some a => Normal a
  | None => Throw e
  end.

(** [s.startsWith(p)] *)
Fixpoint startsWith (p s : jstring) : bool :=
  match p, s with
  | [], _ => true
  | _ :: _, [] => false
  | x :: p', y :: s' => (x =? y) && startsWith p' s'
  end.

(** [s.includes(pat)] *)
Fixpoint includes (s pat : jstring) : bool :=
  startsWith pat s ||
  match s with
  | [] => false
  | _ :: s' => includes s' pat
  end.

(** [s.split(sep)] for a separator of one code unit, the only use in the
    source; the result is never empty ([''.split('/')] is [['']]). *)
Fixpoint split (sep : N) (s : jstring) : list jstring :=
  match s with
  | [] => [[]]
  | c :: s' =>
      if c =? sep then [] :: split sep s'
      else match split sep s' with
           | [] => [[c]]
           | p :: ps => (c :: p) :: ps
           end
  end.

(** [parts.indexOf(x)]; [None] stands for [-1]. *)
Fixpoint indexOf (x : jstring) (parts : list jstring) : option nat :=
  match parts with
  | [] => None
  | p :: ps =>
      if jstr_eqb p x then Some O
      else match indexOf x ps with
           | Some i => Some (S i)
           | None => None
           end
  end.

(** [parts.join(sep)] *)
Fixpoint join (sep : jstring) (parts : list jstring) : jstring :=
  match parts with
  | [] => []
  | [p] => p
  | p :: ps => p ++ sep ++ join sep ps
  end.

(** [s.replace(/a/g, b)] for single code units [a] and [b]. *)
Definition replace_all (a b : N) (s : jstring) : jstring :=
  List.map (fun c => if c =? a then b else c) s.

(** *** [decodeURIComponent] (ECMA-262, Decode with an empty reserved set) *)

Definition hex_digit (c : N) : option N :=
  if (48 <=? c) && (c <=? 57) then Some (c - 48)
  else if (65 <=? c) && (c <=? 70) then Some (c - 55)
  else if (97 <=? c) && (c <=? 102) then Some (c - 87)
  else None.

(** One step of the scan: a code unit copied as it is, or the octet of a
    [%XX] escape. *)
Inductive uri_item :=
| Lit (c : N)
| Oct (b : N).

(** The escapes of a string; [None] when a [%] is not followed by two
    hexadecimal digits. *)
Fixpoint uri_items (s : jstring) : option (list uri_item) :=
  match s with
  | [] => Some []
  | c :: s' =>
      if c =? 37 then
        match s' with
        | h :: l :: rest =>
            match hex_digit h, hex_digit l, uri_items rest with
            | Some a, Some b, Some items => Some (Oct (16 * a + b) :: items)
            | _, _, _ => None
            end
        | _ => None
        end
      else
        match uri_items s' with
        | Some items => Some (Lit c :: items)
        | None => None
        end
  end.

Definition is_continuation (b : N) : bool := (128 <=? b) && (b <=? 191).

(** The code units of a code point (UTF16EncodeCodePoint). *)
Definition utf16_encode (cp : N) : jstring :=
  if cp <? 65536 then [cp]
  else [55296 + (cp - 65536) / 1024; 56320 + (cp - 65536) mod 1024].

Definition is_surrogate (cp : N) : bool := (55296 <=? cp) && (cp <=? 57343).

(** Octets of escapes are read as UTF-8: one code point per well-formed
    sequence; anything else is a [URIError]. *)
Fixpoint uri_decode_items (items : list uri_item) : option jstring :=
  match items with
  | [] => Some []
  | Lit c :: rest => option_map (cons c) (uri_decode_items rest)
  | Oct b :: rest =>
      if b <? 128 then option_map (cons b) (uri_decode_items rest)
      else if (192 <=? b) && (b <? 224) then
        match rest with
        | Oct b1 :: rest1 =>
            let cp := (b - 192) * 64 + (b1 - 128) in
            if is_continuation b1 && (128 <=? cp)
            then option_map (app (utf16_encode cp)) (uri_decode_items rest1)
            else None
        | _ => None
        end
      else if (224 <=? b) && (b <? 240) then
        match rest with
        | Oct b1 :: Oct b2 :: rest2 =>
            let cp := (b - 224) * 4096 + (b1 - 128) * 64 + (b2 - 128) in
            if is_continuation b1 && is_continuation b2 && (2048 <=? cp)
               && negb (is_surrogate cp)
            then option_map (app (utf16_encode cp)) (uri_decode_items rest2)
            else None
        | _ => None
        end
      else if (240 <=? b) && (b <? 248) then
        match rest with
        | Oct b1 :: Oct b2 :: Oct b3 :: rest3 =>
            let cp := (b - 240) * 262144 + (b1 - 128) * 4096
                      + (b2 - 128) * 64 + (b3 - 128) in
            if is_continuation b1 && is_continuation b2 && is_continuation b3
               && (65536 <=? cp) && (cp <=? 1114111)
            then option_map (app (utf16_encode cp)) (uri_decode_items rest3)
            else None
        | _ => None
        end
      else None
  end.

Definition decodeURIComponent (s : jstring) : completion jstring :=
  match uri_items s with
  | Some items => of_option URIError (uri_decode_items items)
  | None => Throw URIError
  end.

(** *** [atob] (forgiving-base64 decode of the WHATWG Infra standard) *)

Definition is_ascii_whitespace (c : N) : bool :=
  (c =? 9) || (c =? 10) || (c =? 12) || (c =? 13) || (c =? 32).

Definition b64_value (c : N) : option N :=
  if (65 <=? c) && (c <=? 90) then Some (c - 65)
  else if (97 <=? c) && (c <=? 122) then Some (c - 71)
  else if (48 <=? c) && (c <=? 57) then Some (c + 4)
  else if c =? 43 then Some 62
  else if c =? 47 then Some 63
  else None.

Fixpoint b64_values (s : jstring) : option (list N) :=
  match s with
  | [] => Some []
  | c :: s' =>
      match b64_value c, b64_values s' with
      | Some v, Some vs => Some (v :: vs)
      | _, _ => None
      end
  end.

(** When the length is a multiple of four, one or two trailing [=] go. *)
Definition strip_padding (s : jstring) : jstring :=
  if (N.of_nat (length s) mod 4 =? 0) then
    match rev s with
    | 61 :: 61 :: r => rev r
    | 61 :: r => rev r
    | _ => s
    end
  else s.

(** Four sextets give three bytes; a last group of three gives two bytes and
    one of two gives one byte, the left-over bits being dropped. *)
Fixpoint b64_decode_values (vs : list N) : list N :=
  match vs with
  | a :: b :: c :: d :: rest =>
      (a * 4 + b / 16) :: ((b mod 16) * 16 + c / 4) :: ((c mod 4) * 64 + d)
      :: b64_decode_values rest
  | [a; b; c] => [a * 4 + b / 16; (b mod 16) * 16 + c / 4]
  | [a; b] => [a * 4 + b / 16]
  | _ => []
  end.

(** The result is a "binary string": one code unit per decoded byte. *)
Definition atob (s : jstring) : completion jstring :=
  let data := strip_padding (filter (fun c => negb (is_ascii_whitespace c)) s) in
  if N.of_nat (length data) mod 4 =? 1 then Throw InvalidCharacterError
  else match b64_values data with
       | Some vs => Normal (b64_decode_values vs)
       | None => Throw InvalidCharacterError
       end.

(** *** JSON values and [JSON.parse] *)

(** A number keeps the text of its literal: no claim looks at its value. *)
Inductive json :=
| JNull
| JBool (b : bool)
| JNumber (literal : jstring)
| JString (s : jstring)
| JArray (items : list json)
| JObject (members : list (jstring * json)).

Definition is_json_ws (c : N) : bool :=
  (c =? 32) || (c =? 9) || (c =? 10) || (c =? 13).

Fixpoint skip_ws (s : jstring) : jstring :=
  match s with
  | c :: s' => if is_json_ws c then skip_ws s' else s
  | [] => []
  end.

Definition simple_escape (e : N) : option N :=
  if e =? 34 then Some 34
  else if e =? 92 then Some 92
  else if e =? 47 then Some 47
  else if e =? 98 then Some 8
  else if e =? 102 then Some 12
  else if e =? 110 then Some 10
  else if e =? 114 then Some 13
  else if e =? 116 then Some 9
  else None.

(** The characters of a string literal after its opening quote, and what
    follows the closing quote. *)
Fixpoint parse_string_body (s : jstring) : option (jstring * jstring) :=
  match s with
  | [] => None
  | c :: s' =>
      if c =? 34 then Some ([], s')
      else if c =? 92 then
        match s' with
        | [] => None
        | e :: s'' =>
            if e =? 117 then
              match s'' with
              | h1 :: h2 :: h3 :: h4 :: rest =>
                  match hex_digit h1, hex_digit h2, hex_digit h3, hex_digit h4,
                        parse_string_body rest with
                  | Some a, Some b, Some c', Some d, Some (body, after) =>
                      Some ((4096 * a + 256 * b + 16 * c' + d) :: body, after)
                  | _, _, _, _, _ => None
                  end
              | _ => None
              end
            else
              match simple_escape e, parse_string_body s'' with
              | Some x, Some (body, after) => Some (x :: body, after)
              | _, _ => None
              end
        end
      else if c <? 32 then None
      else
        match parse_string_body s' with
        | Some (body, after) => Some (c :: body, after)
        | None => None
        end
  end.

Definition is_digit (c : N) : bool := (48 <=? c) && (c <=? 57).

Fixpoint span_digits (s : jstring) : jstring * jstring :=
  match s with
  | c :: s' =>
      if is_digit c then let (ds, r) := span_digits s' in (c :: ds, r)
      else ([], s)
  | [] => ([], [])
  end.

(** A number literal: an optional minus, an integer part without a leading
    zero, an optional fraction and an optional exponent. *)
Definition parse_number (s : jstring) : option (jstring * jstring) :=
  let (sign, s1) := match s with
                    | 45 :: r => ([45], r)
                    | _ => ([], s)
                    end in
  match s1 with
  | [] => None
  | d :: r1 =>
      if negb (is_digit d) then None
      else
        let (int_part, s2) :=
          if d =? 48 then ([d], r1)
          else let (ds, r) := span_digits r1 in (d :: ds, r) in
        let frac :=
          match s2 with
          | 46 :: r2 =>
              match span_digits r2 with
              | ([], _) => None
              | (ds, r) => Some (46 :: ds, r)
              end
          | _ => Some ([], s2)
          end in
        match frac with
        | None => None
        | Some (frac_part, s3) =>
            let exp :=
              match s3 with
              | e :: r3 =>
                  if (e =? 101) || (e =? 69) then
                    let (esign, r4) :=
                      match r3 with
                      | 43 :: r => ([43], r)
                      | 45 :: r => ([45], r)
                      | _ => ([], r3)
                      end in
                    match span_digits r4 with
                    | ([], _) => None
                    | (ds, r) => Some (e :: esign ++ ds, r)
                    end
                  else Some ([], s3)
              | [] => Some ([], s3)
              end in
            match exp with
            | None => None
            | Some (exp_part, s4) =>
                Some (sign ++ int_part ++ frac_part ++ exp_part, s4)
            end
        end
  end.

Definition strip_prefix (p s : jstring) : option jstring :=
  if startsWith p s then Some (skipn (length p) s) else None.

(** [next_is k s]: what follows the code unit [k] at the head of [s]. *)
Definition next_is (k : N) (s : jstring) : option jstring :=
  match s with
  | c :: r => if c =? k then Some r else None
  | [] => None
  end.

(** A value and what follows it.  The fuel bounds the number of nested and
    successive values; [JSON_parse] starts with more than the text is long,
    which is enough ([parse_value_fuel] below). *)
Fixpoint parse_value (fuel : nat) (s : jstring) {struct fuel}
  : option (json * jstring) :=
  match fuel with
  | O => None
  | S fuel' =>
      match skip_ws s with
      | [] => None
      | c :: r =>
          if c =? 123 then
            match next_is 125 (skip_ws r) with
            | Some r' => Some (JObject [], r')
            | None =>
                match parse_members fuel' r with
                | Some (ms, r') => Some (JObject ms, r')
                | None => None
                end
            end
          else if c =? 91 then
            match next_is 93 (skip_ws r) with
            | Some r' => Some (JArray [], r')
            | None =>
                match parse_elements fuel' r with
                | Some (vs, r') => Some (JArray vs, r')
                | None => None
                end
            end
          else if c =? 34 then
            match parse_string_body r with
            | Some (str, r') => Some (JString str, r')
            | None => None
            end
          else if c =? 116 then
            option_map (pair (JBool true)) (strip_prefix (js "true") (c :: r))
          else if c =? 102 then
            option_map (pair (JBool false)) (strip_prefix (js "false") (c :: r))
          else if c =? 110 then
            option_map (pair JNull) (strip_prefix (js "null") (c :: r))
          else
            match parse_number (c :: r) with
            | Some (lit, r') => Some (JNumber lit, r')
            | None => None
            end
      end
  end
with parse_elements (fuel : nat) (s : jstring) {struct fuel}
  : option (list json * jstring) :=
  match fuel with
  | O => None
  | S fuel' =>
      match parse_value fuel' s with
      | None => None
      | Some (v, r) =>
          match next_is 44 (skip_ws r) with
          | Some r' =>
              match parse_elements fuel' r' with
              | Some (vs, r'') => Some (v :: vs, r'')
              | None => None
              end
          | None =>
              match next_is 93 (skip_ws r) with
              | Some r' => Some ([v], r')
              | None => None
              end
          end
      end
  end
with parse_members (fuel : nat) (s : jstring) {struct fuel}
  : option (list (jstring * json) * jstring) :=
  match fuel with
  | O => None
  | S fuel' =>
      match next_is 34 (skip_ws s) with
      | None => None
      | Some r =>
          match parse_string_body r with
          | None => None
          | Some (key, r1) =>
              match next_is 58 (skip_ws r1) with
              | None => None
              | Some r2 =>
                  match parse_value fuel' r2 with
                  | None => None
                  | Some (v, r3) =>
                      match next_is 44 (skip_ws r3) with
                      | Some r4 =>
                          match parse_members fuel' r4 with
                          | Some (ms, r5) => Some ((key, v) :: ms, r5)
                          | None => None
                          end
                      | None =>
                          match next_is 125 (skip_ws r3) with
                          | Some r4 => Some ([(key, v)], r4)
                          | None => None
                          end
                      end
                  end
              end
          end
      end
  end.

Definition JSON_parse (text : jstring) : completion json :=
  match parse_value (S (length text)) text with
  | Some (v, r) =>
      match skip_ws r with
      | [] => Normal v
      | _ => Throw SyntaxError
      end
  | None => Throw SyntaxError
  end.

(** A later member of the same name replaces an earlier one. *)
Fixpoint lookup_member (name : jstring) (ms : list (jstring * json))
  : option json :=
  match ms with
  | [] => None
  | (k, v) :: ms' =>
      match lookup_member name ms' with
      | Some v' => Some v'
      | None => if jstr_eqb k name then Some v else None
      end
  end.

(** [v.name] for a name no prototype defines ([filename], [scope], [ownerId],
    [tenantId]): [None] is [undefined]; reading a property of [null] throws. *)
Definition get_property (v : json) (name : jstring) : completion (option json) :=
  match v with
  | JNull => Throw TypeError
  | JObject ms => Normal (lookup_member name ms)
  | _ => Normal None
  end.

(** *** Vocabulary for the properties *)

(** Strings whose code units are all ASCII. *)
Definition ascii_only (s : jstring) : Prop := Forall (fun c => c < 128) s.

(** The base64url alphabet. *)
Definition is_b64url (c : N) : bool :=
  ((65 <=? c) && (c <=? 90)) || ((97 <=? c) && (c <=? 122))
  || ((48 <=? c) && (c <=? 57)) || (c =? 45) || (c =? 95).

(** What the two [replace] calls of the extraction do to a code unit: [-]
    becomes [+] and [_] becomes [/]. *)
Definition std_char (c : N) : N :=
  let c1 := if c =? 45 then 43 else c in
  if c1 =? 95 then 47 else c1.

(** With fuel [m], a successful parse consumes at least one code unit and
    succeeds alike with any fuel that is at least the number of code units
    it consumes. *)
Definition fuel_bound {A : Type} (parse : nat -> jstring -> option (A * jstring))
  (m : nat) : Prop :=
  forall s a r, parse m s = Some (a, r) ->
    (length r < length s)%nat
    /\ forall n, (length s - length r <= n)%nat -> parse n s = Some (a, r).

(** A test that holds of every number below [n]. *)
Fixpoint all_below (n : nat) (p : N -> bool) : bool :=
  match n with
  | O => true
  | S k => p (N.of_nat k) && all_below k p
  end.

End JS.

(* ===================================================================== *)
(** ** The legacy URL migration helper ([file-url-converter.ts])         *)
(* ===================================================================== *)

Module Converter.
Import JS.

(** [isOldTokenUrl]: [None] is [undefined]. *)
Definition isOldTokenUrl (url : option jstring) : bool :=
  match url with
  | None => false
  | Some [] => false
  | Some u => includes u (js "?token=") || includes u (js "&token=")
  end.

(** The object [extractFileMetadataFromUrl] returns.  The declared type has
    four strings; at run time a field holds whatever the payload holds, or
    [undefined] ([None]). *)
Record metadata := {
  filename : option json;
  scope : option json;
  ownerId : option json;
  tenantId : option json
}.

(** What [payload.name] evaluates to when the payload is not [null]; used to
    state what the extraction returns. *)
Definition member (payload : json) (name : jstring) : option json :=
  match payload with
  | JObject ms => lookup_member name ms
  | _ => None
  end.

(** The body of the inner [try] block: decode the payload segment of the
    token and read the four properties. *)
Definition decode_payload (payloadBase64 : jstring) : completion (option metadata) :=
  bind (atob (replace_all 95 47 (replace_all 45 43 payloadBase64))) (fun payloadJson =>
  bind (JSON_parse payloadJson) (fun payload =>
  bind (get_property payload (js "filename")) (fun f =>
  bind (get_property payload (js "scope")) (fun s =>
  bind (get_property payload (js "ownerId")) (fun o =>
  bind (get_property payload (js "tenantId")) (fun t =>
  Normal (Some {| filename := f; scope := s; ownerId := o; tenantId := t |}))))))).

(** The signed-URL branch: [Some r] when it returns [r], [None] when control
    falls through to the legacy extraction. *)
Definition signed_branch (urlWithoutQuery : jstring)
  : option (completion (option metadata)) :=
  if includes urlWithoutQuery (js "/files/secure/") then
    let pathParts := split 47 urlWithoutQuery in
    match indexOf (js "secure") pathParts with
    | Some secureIndex =>
        if Nat.ltb (secureIndex + 1) (length pathParts) then
          let token := join (js "/") (skipn (secureIndex + 1) pathParts) in
          let payloadBase64 := hd [] (split 46 token) in
          match payloadBase64 with
          | [] => None
          | _ :: _ =>
              Some (try_catch (decode_payload payloadBase64)
                              (fun decodeError => Normal None))
          end
        else None
    | None => None
    end
  else None.

(** [pathParts[i]] passed to a function that expects a string: an index out
    of range gives [undefined], which reads as the text [undefined]. *)
Definition part_text (pathParts : list jstring) (i : nat) : jstring :=
  match nth_error pathParts i with
  | Some p => p
  | None => js "undefined"
  end.

Definition part_value (pathParts : list jstring) (i : nat) : option json :=
  option_map JString (nth_error pathParts i).

(** The positional extraction [/uploads/{tenantId}/{scope}/{ownerId}/{filename}]. *)
Definition legacy_branch (urlWithoutQuery : jstring) : completion (option metadata) :=
  let pathParts := split 47 urlWithoutQuery in
  match indexOf (js "uploads") pathParts with
  | None => Normal None
  | Some uploadsIndex =>
      if Nat.ltb (length pathParts) (uploadsIndex + 5) then Normal None
      else
        bind (decodeURIComponent (part_text pathParts (uploadsIndex + 4)))
             (fun decoded =>
        Normal (Some {| filename := Some (JString decoded);
                        scope := part_value pathParts (uploadsIndex + 2);
                        ownerId := part_value pathParts (uploadsIndex + 3);
                        tenantId := part_value pathParts (uploadsIndex + 1) |}))
  end.

(** [extractFileMetadataFromUrl]; [Normal None] is the result [null]. *)
Definition extractFileMetadataFromUrl (url : jstring) : completion (option metadata) :=
  try_catch
    (let urlWithoutQuery := hd [] (split 63 url) in
     match signed_branch urlWithoutQuery with
     | Some r => r
     | None => legacy_branch urlWithoutQuery
     end)
    (fun error => Normal None).

(** The options of [convertToSignedUrl], handed on to the issuance call. *)
Record convert_options := {
  action : option jstring;
  expiresInMinutes : option N
}.

Section Conversion.

(** The state of everything [generateSignedUrlOnce] depends on (the network,
    the backend, the clock). *)
Variable World : Type.

(** [generateSignedUrlOnce] of [src/hooks/use-signed-url], awaited: it
    resolves to a URL or rejects, and the world moves on. *)
Variable generateSignedUrlOnce :
  metadata -> option convert_options -> World -> completion jstring * World.

(** [CONFIG.serverUrl] *)
Variable serverUrl : jstring.

(** [convertToSignedUrl]; the promise it returns resolves ([Normal]) or
    rejects ([Throw]). *)
Definition convertToSignedUrl (url : option jstring) (options : option convert_options)
  (w : World) : completion jstring * World :=
  match url with
  | None => (Normal [], w)
  | Some [] => (Normal [], w)
  | Some u =>
      if negb (isOldTokenUrl (Some u)) then (Normal u, w)
      else
        match extractFileMetadataFromUrl u with
        | Throw error => (Normal u, w)
        | Normal None => (Normal u, w)
        | Normal (Some md) =>
            match generateSignedUrlOnce md options w with
            | (Throw error, w') => (Normal u, w')
            | (Normal signedUrl, w') =>
                if startsWith (js "http") signedUrl then (Normal signedUrl, w')
                else (Normal (serverUrl ++ signedUrl), w')
            end
        end
  end.

End Conversion.

End Converter.

(* ===================================================================== *)
(** ** The file gateway: [secureFilesRoutes] and the legacy [uploadsRoutes] *)
(* ===================================================================== *)

Module Gateway.
Import JS.

(** A value of a request body, of a JWT payload or of [request.user]: the
    handlers only test it for truthiness, turn it into text with [String(v)]
    or hand it to [path.join].  A number is carried as what these see of
    it: its truth value ([false] for [0], [-0] and [NaN]) and the text
    [String] gives for it (digits, or an exponent form such as [1e+21]).  An
    ObjectId behaves as the non-empty string of its hexadecimal text. *)
Inductive jsval :=
| VUndefined
| VNull
| VBool (b : bool)
| VNumber (truth : bool) (text : jstring)
| VString (s : jstring).

(** [!!v] *)
Definition truthy (v : jsval) : bool :=
  match v with
  | VUndefined => false
  | VNull => false
  | VBool b => b
  | VNumber truth _ => truth
  | VString [] => false
  | VString (_ :: _) => true
  end.

(** [String(v)] *)
Definition String_ (v : jsval) : jstring :=
  match v with
  | VUndefined => js "undefined"
  | VNull => js "null"
  | VBool true => js "true"
  | VBool false => js "false"
  | VNumber _ text => text
  | VString s => s
  end.

(** [a || b] *)
Definition or_else (a b : jsval) : jsval := if truthy a then a else b.

(** [path.join] checks that each argument is a string. *)
Definition path_arg (v : jsval) : completion jstring :=
  match v with
  | VString s => Normal s
  | _ => Throw TypeError
  end.

Record user := {
  user_tenantId : jsval;
  user_id : jsval
}.

(** The argument of [SignedUrlService.generateSignedUrl]. *)
Record grant_input := {
  g_tenantId : jstring;
  g_scope : jsval;
  g_ownerId : jstring;
  g_filename : jsval;
  g_action : jsval;
  g_expiresInMinutes : jsval
}.

Record signed_url_data := {
  sd_url : jstring;
  sd_expiresAt : N
}.

(** What a handler sends.  Of the headers only [Content-Disposition] is kept;
    the content type, CORS and cache headers have no influence on the status
    or on the body, and neither have the log lines, which are left out
    except where writing one can throw. *)
Inductive reply_body :=
| ErrorBody (error : string)
| SignedUrlBody (url : jstring) (expiresAt expiresIn : N)
| BatchBody (urls : list (jsval * jstring * N))
| FileStream (filePath : jstring) (disposition : option jstring).

Record reply := {
  status : nat;
  body : reply_body
}.

Definition error_reply (code : nat) (message : string) : reply :=
  {| status := code; body := ErrorBody message |}.

(** The calls a handler makes to the file system and to the signed-URL
    service, in order. *)
Inductive event :=
| Access (filePath : jstring)
| Generate (input : grant_input).

(** The body of [POST /signed-url]. *)
Record signed_url_body := {
  b_fileId : jsval;
  b_tenantId : jsval;
  b_scope : jsval;
  b_ownerId : jsval;
  b_filename : jsval;
  b_action : jsval;
  b_expiresInMinutes : jsval
}.

Record batch_file := {
  f_filename : jsval;
  f_scope : jsval;
  f_ownerId : jsval;
  f_tenantId : jsval
}.

(** The body of [POST /signed-urls/batch]; [bb_files] is [None] when [files]
    is missing or is not an array, and an element of the array is [None]
    when it is [null] or [undefined]. *)
Record batch_body := {
  bb_files : option (list (option batch_file));
  bb_action : jsval;
  bb_expiresInMinutes : jsval
}.

(** The result of [SignedUrlService.verifySignedUrl]; an absent [expired]
    reads as [false]. *)
Record verification := {
  valid : bool;
  expired : bool;
  v_tenantId : option jstring;
  v_scope : option jstring;
  v_ownerId : option jstring;
  v_filename : option jstring;
  v_action : option jstring
}.

(** The payload [jwt.verify] returns. *)
Record jwt_claims := {
  c_tenantId : jsval;
  c_userId : jsval
}.

(** The legacy request: the four path parameters, [request.user] and
    [request.query.token]. *)
Record legacy_request := {
  p_tenantId : jstring;
  p_scope : jstring;
  p_ownerId : jstring;
  p_filename : jstring;
  req_user : option user;
  query_token : jsval
}.

(** [new Date(t).toISOString()], of which the handlers only log the result:
    it throws for a time value beyond the range of [Date]. *)
Definition toISOString (t : N) : completion unit :=
  if 8640000000000000 <? t then Throw RangeError else Normal tt.

(** [action = 'view'] in a destructuring pattern. *)
Definition default_view (action : jsval) : jsval :=
  match action with
  | VUndefined => VString (js "view")
  | a => a
  end.

(** Whether a handler's outcome streams a file. *)
Definition streams (r : completion reply) : bool :=
  match r with
  | Normal {| body := FileStream _ _ |} => true
  | _ => false
  end.

Definition status_of (r : completion reply) : option nat :=
  match r with
  | Normal a => Some (status a)
  | Throw _ => None
  end.

(** The body [b] with [tenantId] set to [t]. *)
Definition with_tenant (b : signed_url_body) (t : jsval) : signed_url_body :=
  {| b_fileId := b_fileId b; b_tenantId := t; b_scope := b_scope b;
     b_ownerId := b_ownerId b; b_filename := b_filename b;
     b_action := b_action b; b_expiresInMinutes := b_expiresInMinutes b |}.

(** The characters of a header value that Node accepts: the tab and the
    characters from U+0020 to U+00FF other than U+007F; [setHeader] and
    [writeHead] throw [ERR_INVALID_CHAR], a [TypeError], for any other. *)
Definition valid_header_char (c : N) : bool :=
  (c =? 9) || ((32 <=? c) && (c <=? 126)) || ((128 <=? c) && (c <=? 255)).

Section SecureFiles.

(** [process.cwd()], [path.join] and the state of the disk as [fs.access]
    sees it. *)
Variable cwd : jstring.
Variable path_join : list jstring -> jstring.
Variable file_exists : jstring -> bool.

(** [SignedUrlService] of [../services/signed-url-service]. *)
Variable generateSignedUrl : grant_input -> completion signed_url_data.
Variable getTimeRemaining : N -> N.
Variable verifySignedUrl : jstring -> verification.

(** [POST /signed-url], after [authenticate] has set [request.user].
    [body] is [request.body]: [None] when it is [undefined] or [null], which
    the destructuring pattern cannot take apart; any other value has the
    seven properties, [undefined] where it lacks one. *)
Definition post_signed_url (u : user) (body : option signed_url_body)
  : list event * completion reply :=
  match body with
  | None => ([], Throw TypeError)
  | Some b =>
  let action := default_view (b_action b) in
  if negb (truthy (b_filename b)) || negb (truthy (b_scope b))
     || negb (truthy (b_ownerId b)) then
    ([], Normal (error_reply 400 "Missing required fields: filename, scope, ownerId"))
  else
    let fileTenantId := or_else (b_tenantId b) (user_tenantId u) in
    if negb (jstr_eqb (String_ (user_tenantId u)) (String_ fileTenantId)) then
      ([], Normal (error_reply 403
             "Access denied: You don't have access to this tenant's files"))
    else
      match bind (path_arg (b_scope b)) (fun scope =>
            bind (path_arg (b_filename b)) (fun filename =>
            Normal (path_join [cwd; js "uploads"; String_ fileTenantId; scope;
                               String_ (b_ownerId b); filename]))) with
      | Throw e => ([], Throw e)
      | Normal filePath =>
          if negb (file_exists filePath) then
            ([Access filePath], Normal (error_reply 404 "File not found"))
          else
            let input := {| g_tenantId := String_ fileTenantId;
                            g_scope := b_scope b;
                            g_ownerId := String_ (b_ownerId b);
                            g_filename := b_filename b;
                            g_action := action;
                            g_expiresInMinutes := b_expiresInMinutes b |} in
            ([Access filePath; Generate input],
             bind (generateSignedUrl input) (fun signedUrlData =>
             bind (toISOString (sd_expiresAt signedUrlData)) (fun logged =>
             Normal {| status := 200;
                       body := SignedUrlBody (sd_url signedUrlData)
                                 (sd_expiresAt signedUrlData)
                                 (getTimeRemaining (sd_expiresAt signedUrlData)) |})))
      end
  end.

Definition batch_input (u : user) (action expiresInMinutes : jsval)
  (file : batch_file) : grant_input :=
  {| g_tenantId := String_ (or_else (f_tenantId file) (user_tenantId u));
     g_scope := f_scope file;
     g_ownerId := String_ (f_ownerId file);
     g_filename := f_filename file;
     g_action := action;
     g_expiresInMinutes := expiresInMinutes |}.

(** [files.map(...)]: the first call that throws ends the loop; reading a
    property of an element that is [null] or [undefined] throws. *)
Fixpoint batch_generate (u : user) (action expiresInMinutes : jsval)
  (files : list (option batch_file))
  : list event * completion (list (jsval * jstring * N)) :=
  match files with
  | [] => ([], Normal [])
  | None :: _ => ([], Throw TypeError)
  | Some file :: rest =>
      let input := batch_input u action expiresInMinutes file in
      match generateSignedUrl input with
      | Throw e => ([Generate input], Throw e)
      | Normal d =>
          let (evs, r) := batch_generate u action expiresInMinutes rest in
          (Generate input :: evs,
           bind r (fun urls =>
           Normal ((f_filename file, sd_url d, sd_expiresAt d) :: urls)))
      end
  end.

Definition foreign_file (u : user) (file : batch_file) : bool :=
  negb (jstr_eqb (String_ (or_else (f_tenantId file) (user_tenantId u)))
                 (String_ (user_tenantId u))).

(** [files.filter(file => String(file.tenantId || user.tenantId) !==
    String(user.tenantId))]: the callback throws on an element that is
    [null] or [undefined]. *)
Fixpoint invalid_files (u : user) (files : list (option batch_file))
  : completion (list batch_file) :=
  match files with
  | [] => Normal []
  | None :: _ => Throw TypeError
  | Some file :: rest =>
      bind (invalid_files u rest) (fun invalid =>
      Normal (if foreign_file u file then file :: invalid else invalid))
  end.

(** [POST /signed-urls/batch]; [body] as for [POST /signed-url]. *)
Definition post_signed_urls_batch (u : user) (body : option batch_body)
  : list event * completion reply :=
  match body with
  | None => ([], Throw TypeError)
  | Some b =>
  let action := default_view (bb_action b) in
  match bb_files b with
  | None => ([], Normal (error_reply 400 "Missing or invalid files array"))
  | Some [] => ([], Normal (error_reply 400 "Missing or invalid files array"))
  | Some files =>
      match invalid_files u files with
      | Throw e => ([], Throw e)
      | Normal invalidFiles =>
          if Nat.ltb 0 (length invalidFiles) then
            ([], Normal (error_reply 403
                   "Access denied: Some files don't belong to your tenant"))
          else
            let (evs, r) := batch_generate u action (bb_expiresInMinutes b) files in
            (evs, bind r (fun signedUrls =>
                  Normal {| status := 200; body := BatchBody signedUrls |}))
      end
  end
  end.

(** The non-null assertion [x!] handed to [path.join]. *)
Definition asserted (x : option jstring) : completion jstring :=
  of_option TypeError x.

(** The value of [Content-Disposition]. *)
Definition content_disposition (action : option jstring) (filename : jstring)
  : jstring :=
  match action with
  | Some a =>
      if jstr_eqb a (js "download")
      then js "attachment; filename=" ++ [34] ++ filename ++ [34]
      else js "inline"
  | None => js "inline"
  end.

(** [GET /secure/*]; [token] is the wildcard parameter.  The headers are
    written when the stream is sent, and a header value that Node does not
    accept makes that fail. *)
Definition get_secure (token : jstring) : completion reply :=
  let verified := verifySignedUrl token in
  if negb (valid verified) then
    if expired verified then
      Normal (error_reply 410 "This link has expired. Please request a new one.")
    else
      Normal (error_reply 403 "Invalid or tampered URL")
  else
    bind (asserted (v_tenantId verified)) (fun tenantId =>
    bind (asserted (v_scope verified)) (fun scope =>
    bind (asserted (v_ownerId verified)) (fun ownerId =>
    bind (asserted (v_filename verified)) (fun filename =>
    let filePath := path_join [cwd; js "uploads"; tenantId; scope; ownerId; filename] in
    if negb (file_exists filePath) then
      Normal (error_reply 404 "File not found")
    else
      let disposition := content_disposition (v_action verified) filename in
      if forallb valid_header_char disposition then
        Normal {| status := 200;
                  body := FileStream filePath (Some disposition) |}
      else Throw TypeError)))).

End SecureFiles.

Section Uploads.

Variable cwd : jstring.
Variable path_join : list jstring -> jstring.
Variable file_exists : jstring -> bool.

(** [fastify.jwt.verify(token)] *)
Variable jwt_verify : jsval -> completion jwt_claims.

(** [User.findById(userId).lean()] followed by [u?.tenantId?.toString()]:
    the text of the user's tenant, [None] when there is no such user or the
    user has no tenant, or a failure of the query. *)
Variable find_user_tenant : jsval -> completion (option jstring).

(** The tail of the handler, from [decodeURIComponent] on: decode the
    filename, look for the file, answer 404 or stream it. *)
Definition serve_by_path (req : legacy_request) : completion reply :=
  bind (decodeURIComponent (p_filename req)) (fun decodedFilename =>
  let filePath := path_join [cwd; js "uploads"; p_tenantId req; p_scope req;
                             p_ownerId req; decodedFilename] in
  if negb (file_exists filePath) then
    Normal (error_reply 404 "File not found")
  else
    Normal {| status := 200; body := FileStream filePath None |}).

(** What the [if (!user)] block does with the query token: it answers, or it
    lets the request through with the [user] it has set (or left unset). *)
Inductive token_outcome :=
| Rejected (r : reply)
| Proceed (u : option user).

Definition tenant_mismatch : reply := error_reply 403 "Forbidden: Tenant mismatch".

Definition user_of_token (token : jsval) : completion user :=
  bind (jwt_verify token) (fun decoded =>
  let userId := c_userId decoded in
  bind (if negb (truthy (c_tenantId decoded)) && truthy userId then
          bind (find_user_tenant userId) (fun t =>
          Normal (match t with
                  | Some s => VString s
                  | None => VUndefined
                  end))
        else Normal (c_tenantId decoded)) (fun tenantId =>
  Normal {| user_tenantId := tenantId; user_id := userId |})).

Definition try_token (req : legacy_request) : token_outcome :=
  if truthy (query_token req) then
    match user_of_token (query_token req) with
    | Normal u =>
        if negb (jstr_eqb (String_ (user_tenantId u)) (p_tenantId req))
        then Rejected tenant_mismatch
        else Proceed (Some u)
    | Throw tokenError => Proceed None
    end
  else Proceed None.

(** [GET /:tenantId/:scope/:ownerId/:filename] *)
Definition get_upload (req : legacy_request) : completion reply :=
  match (match req_user req with
         | Some u => Proceed (Some u)
         | None => try_token req
         end) with
  | Rejected r => Normal r
  | Proceed user =>
      if match user with
         | Some u => negb (jstr_eqb (String_ (user_tenantId u)) (p_tenantId req))
         | None => false
         end
      then Normal tenant_mismatch
      else serve_by_path req
  end.

End Uploads.

End Gateway.

(* ===================================================================== *)
(** ** The token codec and the issuing service                           *)
(* ===================================================================== *)

Module SignedUrlService.
Import JS.

(** Modelled from the spec: [SignedUrlService.generateSignedUrl] and the
    token codec it uses live in [services/signed-url-service], which is not
    among the sources.  The spec (4.1, 4.2) gives the token as
    [base64url(payload-json) + "." + base64url(signature)], the payload as
    the JSON text of the grant
    [{tenantId, scope, ownerId, filename, action, issuedAt, expiresAt}],
    base64url as base64 without padding and with [-] and [_] for [+] and [/],
    and the URL as [/files/secure/{token}].  The JSON text is the one
    [JSON.stringify] writes and its bytes are its UTF-8 encoding. *)
Record grant := {
  tenantId : jstring;
  scope : jstring;
  ownerId : jstring;
  filename : jstring;
  action : jstring;
  issuedAt : N;
  expiresAt : N
}.

(** Modelled from the spec: the two halves of a surrogate pair, for the
    UTF-8 encoding and for the JSON text. *)
Definition is_high_surrogate (c : N) : bool := (55296 <=? c) && (c <=? 56319).
Definition is_low_surrogate (c : N) : bool := (56320 <=? c) && (c <=? 57343).

(** Modelled from the spec: the UTF-8 bytes of a code point. *)
Definition utf8_of_code_point (cp : N) : list N :=
  if cp <? 128 then [cp]
  else if cp <? 2048 then [192 + cp / 64; 128 + cp mod 64]
  else if cp <? 65536 then
    [224 + cp / 4096; 128 + (cp / 64) mod 64; 128 + cp mod 64]
  else
    [240 + cp / 262144; 128 + (cp / 4096) mod 64; 128 + (cp / 64) mod 64;
     128 + cp mod 64].

(** Modelled from the spec: the bytes of a string, as UTF-8; a surrogate
    without its partner becomes U+FFFD. *)
Fixpoint utf8_encode (s : jstring) : list N :=
  match s with
  | [] => []
  | c :: s' =>
      if is_high_surrogate c then
        match s' with
        | d :: s'' =>
            if is_low_surrogate d then
              utf8_of_code_point (65536 + (c - 55296) * 1024 + (d - 56320))
              ++ utf8_encode s''
            else utf8_of_code_point 65533 ++ utf8_encode s'
        | [] => utf8_of_code_point 65533
        end
      else if is_low_surrogate c then utf8_of_code_point 65533 ++ utf8_encode s'
      else utf8_of_code_point c ++ utf8_encode s'
  end.

(** Modelled from the spec: the base64url alphabet, [-] for 62 and [_] for
    63. *)
Definition b64url_char (v : N) : N :=
  if v <? 26 then 65 + v
  else if v <? 52 then 71 + v
  else if v <? 62 then v - 4
  else if v =? 62 then 45
  else 95.

(** Modelled from the spec: base64url without padding. *)
Fixpoint b64url_encode (bytes : list N) : jstring :=
  match bytes with
  | a :: b :: c :: rest =>
      b64url_char (a / 4) :: b64url_char ((a mod 4) * 16 + b / 16)
      :: b64url_char ((b mod 16) * 4 + c / 64) :: b64url_char (c mod 64)
      :: b64url_encode rest
  | [a; b] =>
      [b64url_char (a / 4); b64url_char ((a mod 4) * 16 + b / 16);
       b64url_char ((b mod 16) * 4)]
  | [a] => [b64url_char (a / 4); b64url_char ((a mod 4) * 16)]
  | [] => []
  end.

(** Modelled from the spec: the escapes of [JSON.stringify], in lower-case
    hexadecimal. *)
Definition hex_char (v : N) : N := if v <? 10 then 48 + v else 87 + v.

Definition unicode_escape (c : N) : jstring :=
  [92; 117; hex_char (c / 4096); hex_char ((c / 256) mod 16);
   hex_char ((c / 16) mod 16); hex_char (c mod 16)].

Definition quote_code_unit (c : N) : jstring :=
  if c =? 8 then [92; 98]
  else if c =? 9 then [92; 116]
  else if c =? 10 then [92; 110]
  else if c =? 12 then [92; 102]
  else if c =? 13 then [92; 114]
  else if c =? 34 then [92; 34]
  else if c =? 92 then [92; 92]
  else if c <? 32 then unicode_escape c
  else [c].

(** Modelled from the spec: the characters of a string between the quotes of
    its JSON text; a surrogate without its partner is written as an escape. *)
Fixpoint quote_chars (s : jstring) : jstring :=
  match s with
  | [] => []
  | c :: s' =>
      if is_high_surrogate c then
        match s' with
        | d :: s'' =>
            if is_low_surrogate d then c :: d :: quote_chars s''
            else unicode_escape c ++ quote_chars s'
        | [] => unicode_escape c
        end
      else if is_low_surrogate c then unicode_escape c ++ quote_chars s'
      else quote_code_unit c ++ quote_chars s'
  end.

Definition quote (s : jstring) : jstring := [34] ++ quote_chars s ++ [34].

(** Modelled from the spec: the JSON text of a natural number, its decimal
    digits. *)
Definition decimal (n : N) : jstring := js (NilZero.string_of_uint (N.to_uint n)).

(** Modelled from the spec: the canonical JSON text of a grant. *)
Definition payload_json (g : grant) : jstring :=
  js "{" ++ quote (js "tenantId") ++ js ":" ++ quote (tenantId g)
  ++ js "," ++ quote (js "scope") ++ js ":" ++ quote (scope g)
  ++ js "," ++ quote (js "ownerId") ++ js ":" ++ quote (ownerId g)
  ++ js "," ++ quote (js "filename") ++ js ":" ++ quote (filename g)
  ++ js "," ++ quote (js "action") ++ js ":" ++ quote (action g)
  ++ js "," ++ quote (js "issuedAt") ++ js ":" ++ decimal (issuedAt g)
  ++ js "," ++ quote (js "expiresAt") ++ js ":" ++ decimal (expiresAt g)
  ++ js "}".

(** Modelled from the spec: the payload segment of the token. *)
Definition encode_payload (g : grant) : jstring :=
  b64url_encode (utf8_encode (payload_json g)).

(** The value the JSON text of a grant parses to. *)
Definition grant_object (g : grant) : json :=
  JObject [(js "tenantId", JString (tenantId g));
           (js "scope", JString (scope g));
           (js "ownerId", JString (ownerId g));
           (js "filename", JString (filename g));
           (js "action", JString (action g));
           (js "issuedAt", JNumber (decimal (issuedAt g)));
           (js "expiresAt", JNumber (decimal (expiresAt g)))].

(** Grants whose text fields are ASCII. *)
Definition ascii_grant (g : grant) : Prop :=
  JS.ascii_only (tenantId g) /\ JS.ascii_only (scope g) /\ JS.ascii_only (ownerId g)
  /\ JS.ascii_only (filename g) /\ JS.ascii_only (action g).

(** The digits of a decimal numeral, as code units. *)
Definition digit_chars (d : Decimal.uint) : jstring := js (NilEmpty.string_of_uint d).

Section Issuance.

(** The message authentication code under the server's secret key, and the
    clock. *)
Variable sign : jstring -> list N.
Variable now : N.
Variable defaultExpiresInMinutes : N.

(** Modelled from the spec: [encode(grant)]. *)
Definition encode (g : grant) : jstring :=
  let payload := encode_payload g in
  payload ++ js "." ++ b64url_encode (sign payload).

(** Modelled from the spec: [generateSignedUrl]; [None] is the
    [InvalidGrantError] of a missing field or of an expiry that is not
    positive. *)
Definition generateSignedUrl (t s o f : jstring) (act : option jstring)
  (expiresInMinutes : option Z) : option (jstring * N) :=
  match t, s, o, f with
  | _ :: _, _ :: _, _ :: _, _ :: _ =>
      let minutes := match expiresInMinutes with
                     | Some m => m
                     | None => Z.of_N defaultExpiresInMinutes
                     end in
      if (minutes <=? 0)%Z then None
      else
        let g := {| tenantId := t; scope := s; ownerId := o; filename := f;
                    action := match act with Some a => a | None => js "view" end;
                    issuedAt := now;
                    expiresAt := now + Z.to_N minutes * 60000 |} in
        Some (js "/files/secure/" ++ encode g, expiresAt g)
  | _, _, _, _ => None
  end.

End Issuance.

End SignedUrlService.

(* ===================================================================== *)
(** ** Concrete collaborators, for running the handlers                  *)
(* ===================================================================== *)

Module Examples.
Import JS.

(** An issuance call that fails the first time it is made (a network error)
    and succeeds afterwards; the world counts the calls. *)
Definition flaky_issuer (md : Converter.metadata)
  (options : option Converter.convert_options) (calls : nat)
  : completion jstring * nat :=
  match calls with
  | O => (Throw (OtherError (js "Network Error")), S calls)
  | S _ => (Normal (js "/api/v1/files/secure/eyJ0IjoxfQ.c2ln"), S calls)
  end.

Definition server : jstring := js "https://api.example.com".

Definition legacy_url : jstring :=
  js "https://api.example.com/api/v1/uploads/t1/tasks/o1/report%20final.pdf?token=xyz".

(** [path.join] on segments that need no normalisation. *)
Definition posix_join (parts : list jstring) : jstring := join (js "/") parts.

Definition root : jstring := js "/srv/app".

(** A disk that holds exactly the listed files. *)
Definition disk (files : list jstring) (filePath : jstring) : bool :=
  existsb (jstr_eqb filePath) files.

Definition stored_file : jstring := js "/srv/app/uploads/A/tasks/o1/a.png".

Definition fixed_issuer (input : Gateway.grant_input)
  : completion Gateway.signed_url_data :=
  Normal {| Gateway.sd_url := js "/files/secure/eyJ0IjoxfQ.c2ln";
            Gateway.sd_expiresAt := 1700003600000 |}.

Definition remaining (expiresAt : N) : N := (expiresAt - 1700000000000) / 1000.

Definition no_grant : Gateway.verification :=
  {| Gateway.valid := false; Gateway.expired := false;
     Gateway.v_tenantId := None; Gateway.v_scope := None;
     Gateway.v_ownerId := None; Gateway.v_filename := None;
     Gateway.v_action := None |}.

(** A verifier that knows three tokens: an expired one, a valid one for a
    file that is on the disk and a valid one for a file that is not. *)
Definition verifier (token : jstring) : Gateway.verification :=
  if jstr_eqb token (js "old.sig") then
    {| Gateway.valid := false; Gateway.expired := true;
       Gateway.v_tenantId := None; Gateway.v_scope := None;
       Gateway.v_ownerId := None; Gateway.v_filename := None;
       Gateway.v_action := None |}
  else if jstr_eqb token (js "good.sig") then
    {| Gateway.valid := true; Gateway.expired := false;
       Gateway.v_tenantId := Some (js "A"); Gateway.v_scope := Some (js "tasks");
       Gateway.v_ownerId := Some (js "o1"); Gateway.v_filename := Some (js "a.png");
       Gateway.v_action := Some (js "view") |}
  else if jstr_eqb token (js "gone.sig") then
    {| Gateway.valid := true; Gateway.expired := false;
       Gateway.v_tenantId := Some (js "A"); Gateway.v_scope := Some (js "tasks");
       Gateway.v_ownerId := Some (js "o1"); Gateway.v_filename := Some (js "b.png");
       Gateway.v_action := Some (js "view") |}
  else no_grant.

(** A JWT verifier that accepts one token, issued to tenant [B]. *)
Definition jwt (token : Gateway.jsval) : completion Gateway.jwt_claims :=
  match token with
  | Gateway.VString s =>
      if jstr_eqb s (js "jwt-of-B") then
        Normal {| Gateway.c_tenantId := Gateway.VString (js "B");
                  Gateway.c_userId := Gateway.VString (js "u7") |}
      else Throw (OtherError (js "jwt malformed"))
  | _ => Throw (OtherError (js "jwt malformed"))
  end.

Definition no_users (userId : Gateway.jsval) : completion (option jstring) :=
  Normal None.

Definition undefined_body : Gateway.signed_url_body :=
  {| Gateway.b_fileId := Gateway.VUndefined;
     Gateway.b_tenantId := Gateway.VUndefined;
     Gateway.b_scope := Gateway.VUndefined;
     Gateway.b_ownerId := Gateway.VUndefined;
     Gateway.b_filename := Gateway.VUndefined;
     Gateway.b_action := Gateway.VUndefined;
     Gateway.b_expiresInMinutes := Gateway.VUndefined |}.

(** [{ filename: 'a.png', scope: 'tasks', ownerId: 'o1', tenantId }] *)
Definition file_body (tenantId : Gateway.jsval) : Gateway.signed_url_body :=
  {| Gateway.b_fileId := Gateway.VUndefined;
     Gateway.b_tenantId := tenantId;
     Gateway.b_scope := Gateway.VString (js "tasks");
     Gateway.b_ownerId := Gateway.VString (js "o1");
     Gateway.b_filename := Gateway.VString (js "a.png");
     Gateway.b_action := Gateway.VUndefined;
     Gateway.b_expiresInMinutes := Gateway.VUndefined |}.

Definition user_of (tenant : string) : Gateway.user :=
  {| Gateway.user_tenantId := Gateway.VString (js tenant);
     Gateway.user_id := Gateway.VString (js "u1") |}.

Definition batch_entry (name : string) (tenantId : Gateway.jsval) : Gateway.batch_file :=
  {| Gateway.f_filename := Gateway.VString (js name);
     Gateway.f_scope := Gateway.VString (js "tasks");
     Gateway.f_ownerId := Gateway.VString (js "o1");
     Gateway.f_tenantId := tenantId |}.

(** A request for [/uploads/A/tasks/o1/a.png]. *)
Definition upload_request (u : option Gateway.user) (token : Gateway.jsval)
  : Gateway.legacy_request :=
  {| Gateway.p_tenantId := js "A"; Gateway.p_scope := js "tasks";
     Gateway.p_ownerId := js "o1"; Gateway.p_filename := js "a.png";
     Gateway.req_user := u; Gateway.query_token := token |}.

(** The bytes a signature could be; the extraction never looks at them. *)
Definition mac (payload : jstring) : list N := [1; 2; 3; 4; 5].

End Examples.

(* ===================================================================== *)
(** ** More built-ins: [encodeURIComponent], [endsWith], [trim]          *)
(* ===================================================================== *)

Module Builtins.
Import JS.

(** The characters [encodeURIComponent] leaves as they are: letters, digits
    and [- _ . ! ~ * ' ( )]. *)
Definition is_unreserved (c : N) : bool :=
  ((65 <=? c) && (c <=? 90)) || ((97 <=? c) && (c <=? 122))
  || ((48 <=? c) && (c <=? 57))
  || (c =? 45) || (c =? 95) || (c =? 46) || (c =? 33) || (c =? 126)
  || (c =? 42) || (c =? 39) || (c =? 40) || (c =? 41).

Definition is_lead_surrogate (c : N) : bool := (55296 <=? c) && (c <=? 56319).
Definition is_trail_surrogate (c : N) : bool := (56320 <=? c) && (c <=? 57343).

(** The UTF-8 octets of a code point. *)
Definition utf8_octets (cp : N) : list N :=
  if cp <? 128 then [cp]
  else if cp <? 2048 then [192 + cp / 64; 128 + cp mod 64]
  else if cp <? 65536 then
    [224 + cp / 4096; 128 + (cp / 64) mod 64; 128 + cp mod 64]
  else
    [240 + cp / 262144; 128 + (cp / 4096) mod 64; 128 + (cp / 64) mod 64;
     128 + cp mod 64].

Definition upper_hex (v : N) : N := if v <? 10 then 48 + v else 55 + v.

(** The escape [%XX] of an octet, in upper-case hexadecimal. *)
Definition percent (b : N) : jstring :=
  [37; upper_hex (b / 16); upper_hex (b mod 16)].

Definition escape_code_point (cp : N) : jstring :=
  flat_map percent (utf8_octets cp).

(** ECMA-262 Encode with the unreserved set of [encodeURIComponent]; [None]
    is the [URIError] of a surrogate without its partner. *)
Fixpoint encode_units (s : jstring) : option jstring :=
  match s with
  | [] => Some []
  | c :: s' =>
      if is_unreserved c then option_map (cons c) (encode_units s')
      else if is_lead_surrogate c then
        match s' with
        | d :: s'' =>
            if is_trail_surrogate d then
              option_map
                (app (escape_code_point
                        (65536 + (c - 55296) * 1024 + (d - 56320))))
                (encode_units s'')
            else None
        | [] => None
        end
      else if is_trail_surrogate c then None
      else option_map (app (escape_code_point c)) (encode_units s')
  end.

Definition encodeURIComponent (s : jstring) : completion jstring :=
  of_option URIError (encode_units s).

(** [s.endsWith(suffix)] *)
Definition endsWith (suffix s : jstring) : bool :=
  Nat.leb (length suffix) (length s)
  && jstr_eqb (skipn (length s - length suffix) s) suffix.

(** White space and line terminators: what [\s] matches and what [trim]
    removes. *)
Definition is_space (c : N) : bool :=
  ((9 <=? c) && (c <=? 13)) || (c =? 32) || (c =? 160) || (c =? 5760)
  || ((8192 <=? c) && (c <=? 8202)) || (c =? 8232) || (c =? 8233)
  || (c =? 8239) || (c =? 8287) || (c =? 12288) || (c =? 65279).

Fixpoint trim_start (s : jstring) : jstring :=
  match s with
  | c :: s' => if is_space c then trim_start s' else s
  | [] => []
  end.

(** [s.trim()] *)
Definition trim (s : jstring) : jstring :=
  rev (trim_start (rev (trim_start s))).

(** The text of a non-negative integer, as a template literal writes it. *)
Definition decimal (n : N) : jstring :=
  js (NilZero.string_of_uint (N.to_uint n)).

(** Strings of code units: every element is below 65536. *)
Definition code_units (s : jstring) : Prop := Forall (fun c => c < 65536) s.

(** The text after a percent sign that does not start with two hexadecimal
    digits. *)
Definition no_escape (rest : jstring) : Prop :=
  match rest with
  | h :: l :: _ => hex_digit h = None \/ hex_digit l = None
  | _ => True
  end.

(** The characters an encoded component is made of. *)
Definition is_upper_hex (c : N) : bool :=
  ((48 <=? c) && (c <=? 57)) || ((65 <=? c) && (c <=? 70)).

Definition is_component_char (c : N) : bool :=
  is_unreserved c || (c =? 37) || is_upper_hex c.

End Builtins.

(* ===================================================================== *)
(** ** The preview list ([multi-file-preview.tsx])                       *)
(* ===================================================================== *)

Module Preview.
Import JS.

Section Session.

(** [typeof window !== 'undefined'], and what
    [window.sessionStorage.getItem('jwt_access_token')] gives when it is
    called: a string, [null] ([None]), or an exception. *)
Variable window_defined : bool.
Variable stored_token : completion (option jstring).

(** [addJwtTokenToUploadsUrl]; the two regular expressions test for the
    substring [/api/v1/uploads/] and for [?token=] or [&token=]. *)
Definition addJwtTokenToUploadsUrl (url : jstring) : jstring :=
  match
    (let isUploads := includes url (js "/api/v1/uploads/") in
     let hasToken := includes url (js "?token=") || includes url (js "&token=") in
     if isUploads && negb hasToken && window_defined then
       bind stored_token (fun token =>
       match token with
       | Some (c :: t) =>
           Normal (Some (url ++ (if includes url (js "?") then js "&" else js "?")
                             ++ js "token=" ++ c :: t))
       | _ => Normal None
       end)
     else Normal None)
  with
  | Normal (Some withToken) => withToken
  | _ => url
  end.

End Session.

End Preview.

(* ===================================================================== *)
(** ** The language options ([locales-config.ts])                        *)
(* ===================================================================== *)

Module Locales.
Import JS.

(** A [LangOption]; [systemValue], the component tables of the UI library,
    is an imported object and is left out. *)
Record LangOption := {
  value : jstring;
  label : jstring;
  countryCode : jstring;
  adapterLocale : option jstring;
  numberFormat_code : jstring;
  numberFormat_currency : jstring
}.

Definition supportedLngs : list jstring := [js "el"; js "en"].
Definition fallbackLng : jstring := js "el".

Definition allLangs : list LangOption :=
  [ {| value := js "el"; label := js "Greek"; countryCode := js "GR";
       adapterLocale := Some (js "el");
       numberFormat_code := js "el-GR"; numberFormat_currency := js "EUR" |};
    {| value := js "en"; label := js "English"; countryCode := js "GB";
       adapterLocale := Some (js "en");
       numberFormat_code := js "en-US"; numberFormat_currency := js "EUR" |} ].

(** [a ?? b] on the result of [find] and of an index. *)
Definition nullish {A} (a b : option A) : option A :=
  match a with
  | Some x => Some x
  | None => b
  end.

(** [getCurrentLang]; the argument is [None] when it is left out, the result
    is [None] for [undefined]. *)
Definition getCurrentLang (lang : option jstring) : option LangOption :=
  let fallbackLang :=
    nullish (find (fun l => jstr_eqb (value l) fallbackLng) allLangs)
            (nth_error allLangs 0) in
  match lang with
  | None => fallbackLang
  | Some [] => fallbackLang
  | Some l =>
      nullish (find (fun o => jstr_eqb (value o) l) allLangs) fallbackLang
  end.

End Locales.

(* ===================================================================== *)
(** ** The headers of the file responses                                 *)
(* ===================================================================== *)

Module Headers.
Import JS Builtins.

(** One call of [reply.header(name, value)]. *)
Definition header := (jstring * jstring)%type.

Fixpoint lookup (key : jstring) (table : list (jstring * jstring)) : option jstring :=
  match table with
  | [] => None
  | (k, v) :: rest => if jstr_eqb k key then Some v else lookup key rest
  end.

(** The [mimeMap] of [GET /secure/*]. *)
Definition secure_mimeMap : list (jstring * jstring) :=
  [ (js ".png", js "image/png");
    (js ".jpg", js "image/jpeg");
    (js ".jpeg", js "image/jpeg");
    (js ".webp", js "image/webp");
    (js ".gif", js "image/gif");
    (js ".pdf", js "application/pdf");
    (js ".svg", js "image/svg+xml");
    (js ".txt", js "text/plain");
    (js ".csv", js "text/csv");
    (js ".json", js "application/json");
    (js ".doc", js "application/msword");
    (js ".docx",
     js "application/vnd.openxmlformats-officedocument.wordprocessingml.document");
    (js ".xls", js "application/vnd.ms-excel");
    (js ".xlsx",
     js "application/vnd.openxmlformats-officedocument.spreadsheetml.sheet") ].

(** The [mimeMap] of the legacy [GET /:tenantId/:scope/:ownerId/:filename]. *)
Definition uploads_mimeMap : list (jstring * jstring) :=
  [ (js ".png", js "image/png");
    (js ".jpg", js "image/jpeg");
    (js ".jpeg", js "image/jpeg");
    (js ".webp", js "image/webp");
    (js ".gif", js "image/gif");
    (js ".pdf", js "application/pdf");
    (js ".svg", js "image/svg+xml");
    (js ".txt", js "text/plain");
    (js ".csv", js "text/csv");
    (js ".json", js "application/json") ].

(** [mimeMap[ext] || "application/octet-stream"], for [ext] the lower-cased
    [path.extname] of the file: a text that is empty or begins with a dot, so
    that only the table's own keys can be hit. *)
Definition contentType (mimeMap : list (jstring * jstring)) (ext : jstring) : jstring :=
  match lookup ext mimeMap with
  | Some (c :: t) => c :: t
  | _ => js "application/octet-stream"
  end.

Definition allow_origin (v : jstring) : header :=
  (js "Access-Control-Allow-Origin", v).
Definition allow_credentials : header :=
  (js "Access-Control-Allow-Credentials", js "true").

(** The origin headers of [secureFilesRoutes]: one condition.  [origin] is
    [request.headers.origin], [None] when the request has none. *)
Definition secure_origin_headers (origin : option jstring) : list header :=
  match origin with
  | Some (c :: o) =>
      let origin := c :: o in
      if includes origin (js "localhost")
         || includes origin (js "127.0.0.1")
         || endsWith (js ".progressnet.io") origin
         || jstr_eqb origin (js "https://progressnet.io")
         || jstr_eqb origin (js "https://www.progressnet.io")
         || startsWith (js "https://") origin
      then [allow_origin origin; allow_credentials]
      else [allow_origin (js "*")]
  | _ => [allow_origin (js "*")]
  end.

(** The origin headers of [uploadsRoutes]: a chain of [else if]. *)
Definition uploads_origin_headers (origin : option jstring) : list header :=
  match origin with
  | Some (c :: o) =>
      let origin := c :: o in
      if includes origin (js "localhost") || includes origin (js "127.0.0.1")
      then [allow_origin origin; allow_credentials]
      else if endsWith (js ".progressnet.io") origin
              || jstr_eqb origin (js "https://progressnet.io")
              || jstr_eqb origin (js "https://www.progressnet.io")
      then [allow_origin origin; allow_credentials]
      else if startsWith (js "https://") origin
      then [allow_origin origin; allow_credentials]
      else [allow_origin (js "*")]
  | _ => [allow_origin (js "*")]
  end.

(** The headers [GET /secure/*] sets before it streams the file, in the
    order of the calls. *)
Definition secure_file_headers (ext filename : jstring) (action origin : option jstring)
  : list header :=
  [ (js "Content-Type", contentType secure_mimeMap ext);
    (js "Cross-Origin-Resource-Policy", js "cross-origin");
    (js "Content-Disposition",
     match action with
     | Some a =>
         if jstr_eqb a (js "download")
         then js "attachment; filename=" ++ [34] ++ filename ++ [34]
         else js "inline"
     | None => js "inline"
     end) ]
  ++ secure_origin_headers origin
  ++ [ (js "Access-Control-Allow-Methods", js "GET, OPTIONS");
       (js "Access-Control-Allow-Headers",
        js "Origin, X-Requested-With, Content-Type, Accept");
       (js "X-Content-Type-Options", js "nosniff");
       (js "X-Frame-Options", js "SAMEORIGIN");
       (js "Cache-Control", js "private, max-age=300") ].

(** [OPTIONS /secure/*] *)
Definition secure_options_headers (origin : option jstring) : list header :=
  secure_origin_headers origin
  ++ [ (js "Access-Control-Allow-Methods", js "GET, OPTIONS");
       (js "Access-Control-Allow-Headers",
        js "Origin, X-Requested-With, Content-Type, Accept");
       (js "Access-Control-Max-Age", js "86400") ].

(** The headers the legacy [GET] sets before it streams the file. *)
Definition uploads_file_headers (ext : jstring) (origin : option jstring)
  : list header :=
  [ (js "Content-Type", contentType uploads_mimeMap ext);
    (js "Cross-Origin-Resource-Policy", js "cross-origin") ]
  ++ uploads_origin_headers origin
  ++ [ (js "Access-Control-Allow-Methods", js "GET, OPTIONS, DELETE");
       (js "Access-Control-Allow-Headers",
        js "Origin, X-Requested-With, Content-Type, Accept, Authorization") ].

(** The legacy [OPTIONS] handler. *)
Definition uploads_options_headers (origin : option jstring) : list header :=
  uploads_origin_headers origin
  ++ [ (js "Access-Control-Allow-Methods", js "GET, OPTIONS, DELETE");
       (js "Access-Control-Allow-Headers",
        js "Origin, X-Requested-With, Content-Type, Accept, Authorization");
       (js "Access-Control-Max-Age", js "86400") ].

(** The value a response carries under [name]: the last one set. *)
Definition header_value (name : jstring) (hs : list header) : option jstring :=
  lookup name (rev hs).

End Headers.

(* ===================================================================== *)
(** ** Storing and deleting files: [POST /] and [DELETE] of [uploadsRoutes] *)
(* ===================================================================== *)

Module Storage.
Import JS Builtins.

(** *** The stored file name *)

(** The class of the first [replace]: the angle brackets, the colon, the
    double quote, the slash, the backslash, the bar, the question mark and
    the star. *)
Definition is_invalid (c : N) : bool :=
  (c =? 60) || (c =? 62) || (c =? 58) || (c =? 34) || (c =? 47) || (c =? 92)
  || (c =? 124) || (c =? 63) || (c =? 42).

(** The first [replace]: every code unit of the class becomes an
    underscore. *)
Definition replace_invalid (s : jstring) : jstring :=
  List.map (fun c => if is_invalid c then 95 else c) s.

(** [s.replace(/\s+/g, '_')]: every maximal run of white space becomes one
    underscore; [in_run] tells that the previous code unit was white space. *)
Fixpoint replace_spaces (in_run : bool) (s : jstring) : jstring :=
  match s with
  | [] => []
  | c :: s' =>
      if is_space c then
        if in_run then replace_spaces true s' else 95 :: replace_spaces true s'
      else c :: replace_spaces false s'
  end.

(** [sanitizedOriginalName] *)
Definition sanitize (filename : jstring) : jstring :=
  replace_spaces false (replace_invalid filename).

(** [`${Date.now()}-${sanitizedOriginalName}`] *)
Definition stored_name (now : N) (original : jstring) : jstring :=
  decimal now ++ js "-" ++ sanitize original.

(** A name free of the characters the sanitization removes. *)
Definition clean (s : jstring) : Prop :=
  Forall (fun c => is_invalid c = false /\ is_space c = false) s.

(** *** The request and the reply *)

(** A file part of the multipart body, after [toBuffer]. *)
Record file_part := {
  fp_fieldname : jstring;
  fp_filename : jstring;
  fp_encoding : jstring;
  fp_mimetype : jstring;
  fp_buffer : list N
}.

Inductive part :=
| FilePart (f : file_part)
| FieldPart (fieldname value : jstring).

(** A thrown value, as far as the handlers look at it: its [code] property,
    [None] when it has none (as the built-in errors). *)
Inductive outcome (A : Type) :=
| Ok (a : A)
| Raise (code : option jstring).
Arguments Ok {A} a.
Arguments Raise {A} code.

(** One step of [for await (const part of parts)], with the [toBuffer] of a
    file part: the next part, or an exception. *)
Inductive read :=
| Yield (p : part)
| Broken (code : option jstring).

(** The variables the loop over the parts assigns. *)
Record form := {
  files : list file_part;
  scope : jstring;
  taskId : jstring;
  workOrderId : jstring;
  reportId : jstring;
  logoType : jstring
}.

Definition empty_form : form :=
  {| files := []; scope := js "task"; taskId := []; workOrderId := [];
     reportId := []; logoType := [] |}.

Definition set_field (f : form) (fieldname value : jstring) : form :=
  if jstr_eqb fieldname (js "scope") then
    {| files := files f; scope := trim value; taskId := taskId f;
       workOrderId := workOrderId f; reportId := reportId f;
       logoType := logoType f |}
  else if jstr_eqb fieldname (js "taskId") then
    {| files := files f; scope := scope f; taskId := trim value;
       workOrderId := workOrderId f; reportId := reportId f;
       logoType := logoType f |}
  else if jstr_eqb fieldname (js "workOrderId") then
    {| files := files f; scope := scope f; taskId := taskId f;
       workOrderId := trim value; reportId := reportId f;
       logoType := logoType f |}
  else if jstr_eqb fieldname (js "reportId") then
    {| files := files f; scope := scope f; taskId := taskId f;
       workOrderId := workOrderId f; reportId := trim value;
       logoType := logoType f |}
  else if jstr_eqb fieldname (js "logoType") then
    {| files := files f; scope := scope f; taskId := taskId f;
       workOrderId := workOrderId f; reportId := reportId f;
       logoType := trim value |}
  else f.

Definition push_file (f : form) (file : file_part) : form :=
  {| files := files f ++ [file]; scope := scope f; taskId := taskId f;
     workOrderId := workOrderId f; reportId := reportId f;
     logoType := logoType f |}.

(** The loop over the parts: the form it leaves, or the exception that ends
    it. *)
Fixpoint read_parts (parts : list read) (f : form) : outcome form :=
  match parts with
  | [] => Ok f
  | Broken code :: _ => Raise code
  | Yield (FilePart file) :: rest => read_parts rest (push_file f file)
  | Yield (FieldPart fieldname value) :: rest =>
      read_parts rest (set_field f fieldname value)
  end.

(** The file parts of a body, in the order of their arrival, and the steps
    that yield a part. *)
Fixpoint file_parts (parts : list read) : list file_part :=
  match parts with
  | [] => []
  | Yield (FilePart file) :: rest => file :: file_parts rest
  | _ :: rest => file_parts rest
  end.

Definition yields (step : read) : bool :=
  match step with
  | Yield _ => true
  | Broken _ => false
  end.


(** [scopeDir] *)
Definition scopeDir (scope : jstring) : jstring :=
  if jstr_eqb scope (js "workOrder") then js "work_orders"
  else if jstr_eqb scope (js "report") then js "reports"
  else if jstr_eqb scope (js "logo") then js "branding"
  else if jstr_eqb scope (js "subtasks") then js "subtasks"
  else js "tasks".

Definition nonempty_or (a b : jstring) : jstring :=
  match a with
  | [] => b
  | _ :: _ => a
  end.

(** [taskId || workOrderId || reportId || logoType || "misc"] *)
Definition ownerId (f : form) : jstring :=
  nonempty_or (taskId f)
    (nonempty_or (workOrderId f)
       (nonempty_or (reportId f) (nonempty_or (logoType f) (js "misc")))).

(** [request.user], as far as the upload looks at it. *)
Record uploader := {
  up_tenantId : Gateway.jsval;
  up_isTenantOwner : bool
}.

Record upload_request := {
  parts : list read;
  user : uploader;
  header_host : Gateway.jsval;
  header_forwarded_proto : Gateway.jsval;
  protocol : jstring
}.

(** An element of [saved]. *)
Record saved_file := {
  sf_url : jstring;
  sf_signedUrl : jstring;
  sf_path : jstring;
  sf_name : jstring;
  sf_size : N;
  sf_mimetype : jstring;
  sf_filename : jstring;
  sf_scope : jstring;
  sf_ownerId : jstring
}.

(** The arguments of [FileTrackingService.trackFileUpload]. *)
Record tracked_upload := {
  tu_tenantId : Gateway.jsval;
  tu_filename : jstring;
  tu_originalName : jstring;
  tu_mimetype : jstring;
  tu_size : N;
  tu_category : jstring;
  tu_path : jstring
}.

(** What a handler sends; of the 413 reply about the storage limit the
    [details], three numbers formatted for display, are left out. *)
Inductive sent :=
| Failure (error : jstring)
| Saved (data : list saved_file)
| Deleted (message filename : jstring).

Record answer := {
  code : nat;
  payload : sent
}.

Definition failure (status : nat) (error : string) : answer :=
  {| code := status; payload := Failure (js error) |}.

(** The calls that change the disk, the quota records or issue a grant, in
    order. *)
Inductive effect :=
| Mkdir (dir : jstring)
| WriteFile (path : jstring) (data : list N)
| Issue (input : Gateway.grant_input)
| TrackUpload (t : tracked_upload)
| Access (path : jstring)
| TrackDeletion (tenantId filename : jstring)
| Unlink (path : jstring).

Definition is_write (e : effect) : bool :=
  match e with
  | WriteFile _ _ => true
  | _ => false
  end.

Definition is_unlink (e : effect) : bool :=
  match e with
  | Unlink _ => true
  | _ => false
  end.

(** [rel]: the path of the legacy route to the stored file. *)
Definition upload_path (tenantId : Gateway.jsval) (scopeDir ownerId encodedFilename : jstring)
  : jstring :=
  js "/api/v1/uploads/" ++ Gateway.String_ tenantId ++ js "/" ++ scopeDir
  ++ js "/" ++ ownerId ++ js "/" ++ encodedFilename.

Definition allowedMimeTypes : list jstring :=
  [js "image/jpeg"; js "image/jpg"; js "image/png"; js "image/gif";
   js "image/webp"; js "image/svg+xml"].

(** The loop that validates the files of a logo upload: the reply of the
    first file it rejects. *)
Fixpoint logo_rejection (files : list file_part) : option answer :=
  match files with
  | [] => None
  | file :: rest =>
      if negb (existsb (jstr_eqb (fp_mimetype file)) allowedMimeTypes) then
        Some {| code := 400;
                payload := Failure (js "Invalid file type for logo: "
                                    ++ fp_mimetype file
                                    ++ js ". Only image files are allowed.") |}
      else if 2 * 1024 * 1024 <? N.of_nat (length (fp_buffer file)) then
        Some (failure 413 "Logo file too large. Maximum size is 2MB.")
      else logo_rejection rest
  end.

(** The category handed to the tracking service. *)
Definition category (scope : jstring) : jstring :=
  if jstr_eqb scope (js "logo") then js "logo"
  else if jstr_eqb scope (js "workOrder") then js "workorder_attachment"
  else js "other".

Section Handlers.

(** The state of everything outside the handler: the disk, the database,
    the clock. *)
Variable World : Type.

(** A step of a handler: its result or the exception it throws, the calls it
    has made, and the world it leaves. *)
Definition run (A : Type) : Type := World -> outcome A * list effect * World.

Definition ret {A} (a : A) : run A := fun w => (Ok a, [], w).

Definition throw {A} (code : option jstring) : run A := fun w => (Raise code, [], w).

Definition then_ {A B} (m : run A) (k : A -> run B) : run B :=
  fun w =>
    match m w with
    | (Ok a, t, w') =>
        match k a w' with
        | (r, t', w'') => (r, t ++ t', w'')
        end
    | (Raise c, t, w') => (Raise c, t, w')
    end.

(** [try { m } catch (err) { handler err.code }] *)
Definition catch {A} (m : run A) (handler : option jstring -> run A) : run A :=
  fun w =>
    match m w with
    | (Ok a, t, w') => (Ok a, t, w')
    | (Raise c, t, w') =>
        match handler c w' with
        | (r, t', w'') => (r, t ++ t', w'')
        end
    end.

(** A call of a collaborator, recorded as [made]. *)
Definition call {A} (made : list effect) (f : World -> outcome A * World) : run A :=
  fun w => let (r, w') := f w in (r, made, w').

(** A built-in that can throw. *)
Definition builtin {A} (c : completion A) : run A :=
  match c with
  | Normal a => ret a
  | Throw e => throw None
  end.

Local Notation "x <- m ;; k" := (then_ m (fun x => k))
  (at level 61, m at next level, right associativity).

(** [process.cwd()], [path.join] and [process.env.MAX_FILE_SIZE_MB]. *)
Variable cwd : jstring.
Variable path_join : list jstring -> jstring.
Variable MAX_FILE_SIZE_MB : option jstring.

(** A tenant document; [customBranding] is the truth value of
    [tenant?.subscription?.limits?.features?.customBranding]. *)
Variable Tenant : Type.
Variable customBranding : Tenant -> bool.
Variable Tenant_findById : Gateway.jsval -> World -> outcome (option Tenant) * World.

(** [EnvSubscriptionService.canPerformAction(tenant, 'upload_file', size)]:
    [allowed] and [reason]. *)
Variable canPerformAction : Tenant -> N -> World -> outcome (bool * option jstring) * World.

Variable Date_now : World -> N * World.
Variable fs_mkdir : jstring -> World -> outcome unit * World.
Variable fs_writeFile : jstring -> list N -> World -> outcome unit * World.
(** [(await fs.stat(path)).size] *)
Variable fs_stat : jstring -> World -> outcome N * World.
Variable fs_access : jstring -> World -> outcome unit * World.
Variable fs_unlink : jstring -> World -> outcome unit * World.
Variable generateSignedUrl :
  Gateway.grant_input -> World -> outcome Gateway.signed_url_data * World.
Variable trackFileUpload : tracked_upload -> World -> outcome unit * World.
(** [trackFileDeletion] resolves to an object with a [tracked] flag, or to
    something without properties ([None]). *)
Variable trackFileDeletion :
  jstring -> jstring -> World -> outcome (option bool) * World.

(** [path.join(process.cwd(), "uploads", String(tenantId), scopeDir, String(ownerId))] *)
Definition baseDir (u : uploader) (f : form) : jstring :=
  path_join [cwd; js "uploads"; Gateway.String_ (up_tenantId u);
             scopeDir (scope f); ownerId f].

(** The body of the loop that stores the files, for the files that are
    left. *)
Fixpoint save_files (req : upload_request) (f : form) (todo : list file_part)
  : run (list saved_file) :=
  match todo with
  | [] => ret []
  | file :: rest =>
      now <- (fun w => let (t, w') := Date_now w in (Ok t, [], w')) ;;
      let filename := stored_name now (fp_filename file) in
      let destPath := path_join [baseDir (user req) f; filename] in
      written <- call [WriteFile destPath (fp_buffer file)]
                      (fs_writeFile destPath (fp_buffer file)) ;;
      size <- call [] (fs_stat destPath) ;;
      let input :=
        {| Gateway.g_tenantId := Gateway.String_ (up_tenantId (user req));
           Gateway.g_scope := Gateway.VString (scopeDir (scope f));
           Gateway.g_ownerId := ownerId f;
           Gateway.g_filename := Gateway.VString filename;
           Gateway.g_action := Gateway.VString (js "view");
           Gateway.g_expiresInMinutes := Gateway.VNumber true (js "1440") |} in
      signedUrlData <- call [Issue input] (generateSignedUrl input) ;;
      encodedFilename <- builtin (encodeURIComponent filename) ;;
      let rel := upload_path (up_tenantId (user req)) (scopeDir (scope f))
                             (ownerId f) encodedFilename in
      let protocol_ :=
        if Gateway.truthy (header_forwarded_proto req)
        then Gateway.String_ (header_forwarded_proto req)
        else protocol req in
      let fullSignedUrl :=
        protocol_ ++ js "://" ++ Gateway.String_ (header_host req)
        ++ Gateway.sd_url signedUrlData in
      let entry :=
        {| sf_url := fullSignedUrl; sf_signedUrl := fullSignedUrl;
           sf_path := rel; sf_name := fp_filename file; sf_size := size;
           sf_mimetype := fp_mimetype file; sf_filename := filename;
           sf_scope := scopeDir (scope f); sf_ownerId := ownerId f |} in
      let tracked :=
        {| tu_tenantId := up_tenantId (user req); tu_filename := filename;
           tu_originalName := fp_filename file;
           tu_mimetype := fp_mimetype file; tu_size := size;
           tu_category := category (scope f); tu_path := destPath |} in
      logged <- catch (call [TrackUpload tracked] (trackFileUpload tracked))
                      (fun trackingError => ret tt) ;;
      saved <- save_files req f rest ;;
      ret (entry :: saved)
  end.

(** The [try] block of [POST /], from the parsed form on. *)
Definition store (req : upload_request) (f : form) : run answer :=
  match files f with
  | [] => ret (failure 400 "No files found")
  | _ :: _ =>
      let tenantId := up_tenantId (user req) in
      let totalUploadSize :=
        fold_left (fun sum file => sum + N.of_nat (length (fp_buffer file)))
                  (files f) 0 in
      tenant <- call [] (Tenant_findById tenantId) ;;
      match tenant with
      | None => ret (failure 404 "Tenant not found")
      | Some tenant =>
          storageCheck <- call [] (canPerformAction tenant totalUploadSize) ;;
          if negb (fst storageCheck) then
            ret {| code := 413;
                   payload := Failure (match snd storageCheck with
                                       | Some (c :: r) => c :: r
                                       | _ => js "Storage limit exceeded"
                                       end) |}
          else
            made <- call [Mkdir (baseDir (user req) f)]
                         (fs_mkdir (baseDir (user req) f)) ;;
            rejection <-
              (if jstr_eqb (scope f) (js "logo") then
                 tenant <- call [] (Tenant_findById tenantId) ;;
                 if negb (match tenant with
                          | Some t => customBranding t
                          | None => false
                          end) then
                   ret (Some (failure 403
                     "Custom branding is not available on your current plan"))
                 else if negb (up_isTenantOwner (user req)) then
                   ret (Some (failure 403 "Only tenant owners can upload logos"))
                 else ret (logo_rejection (files f))
               else ret None) ;;
            match rejection with
            | Some r => ret r
            | None =>
                saved <- save_files req f (files f) ;;
                ret {| code := 200; payload := Saved saved |}
            end
      end
  end.

(** The [catch] block of [POST /]. *)
Definition upload_failed (code : option jstring) : answer :=
  match code with
  | Some c =>
      if jstr_eqb c (js "FST_REQ_FILE_TOO_LARGE") then
        {| code := 413;
           payload := Failure (js "File too large. Maximum size is "
                               ++ match MAX_FILE_SIZE_MB with
                                  | Some (d :: r) => d :: r
                                  | _ => js "10"
                                  end
                               ++ js "MB per file.") |}
      else failure 500 "Upload processing failed"
  | None => failure 500 "Upload processing failed"
  end.

(** [POST /], after [authenticate] has set [request.user]. *)
Definition post_upload (req : upload_request) : run answer :=
  catch (match read_parts (parts req) empty_form with
         | Ok f => store req f
         | Raise c => throw c
         end)
        (fun c => ret (upload_failed c)).

(** The parameters of the route [/:tenantId/:scope/:ownerId/:filename]. *)
Record file_params := {
  p_tenantId : jstring;
  p_scope : jstring;
  p_ownerId : jstring;
  p_filename : jstring
}.

(** The file the [DELETE] and the [GET] of the legacy route mean, once the
    file name is decoded. *)
Definition stored_at (params : file_params) (decodedFilename : jstring) : jstring :=
  path_join [cwd; js "uploads"; p_tenantId params; p_scope params;
             p_ownerId params; decodedFilename].

(** [DELETE /:tenantId/:scope/:ownerId/:filename], after [authenticate];
    [Raise] is an exception that leaves the handler. *)
Definition delete_upload (u : Gateway.user) (params : file_params) : run answer :=
  if negb (jstr_eqb (Gateway.String_ (Gateway.user_tenantId u)) (p_tenantId params))
  then ret (failure 403 "Forbidden: You don't have access to this tenant's files")
  else
    decodedFilename <- builtin (decodeURIComponent (p_filename params)) ;;
    let filePath := stored_at params decodedFilename in
    catch
      (found <- call [Access filePath] (fs_access filePath) ;;
       aborted <-
         catch (trackResult <- call [TrackDeletion (p_tenantId params) decodedFilename]
                                    (trackFileDeletion (p_tenantId params)
                                                       decodedFilename) ;;
                match trackResult with
                | Some tracked => ret None
                | None => throw None
                end)
               (fun trackingError =>
                  ret (Some (failure 500
                    "Failed to update storage quota. Please try again."))) ;;
       match aborted with
       | Some r => ret r
       | None =>
           removed <- call [Unlink filePath] (fs_unlink filePath) ;;
           ret {| code := 200;
                  payload := Deleted (js "File deleted successfully")
                                     decodedFilename |}
       end)
      (fun code =>
         match code with
         | Some c =>
             if jstr_eqb c (js "ENOENT") then ret (failure 404 "File not found")
             else ret (failure 500 "Failed to delete file")
         | None => ret (failure 500 "Failed to delete file")
         end).

End Handlers.

End Storage.

(* ===================================================================== *)
(** ** A disk and services to run the storage handlers on                *)
(* ===================================================================== *)

Module StorageExamples.
Import JS Builtins Storage.

(** The world: the files on the disk, each with its bytes. *)
Definition World : Type := list (jstring * list N).

Definition on_disk (path : jstring) (w : World) : bool :=
  existsb (fun entry => jstr_eqb (fst entry) path) w.

Definition ENOENT : option jstring := Some (js "ENOENT").

Definition fs_access (path : jstring) (w : World) : outcome unit * World :=
  if on_disk path w then (Ok tt, w) else (Raise ENOENT, w).

Definition fs_unlink (path : jstring) (w : World) : outcome unit * World :=
  if on_disk path w
  then (Ok tt, filter (fun entry => negb (jstr_eqb (fst entry) path)) w)
  else (Raise ENOENT, w).

Definition fs_mkdir (dir : jstring) (w : World) : outcome unit * World := (Ok tt, w).

Definition fs_writeFile (path : jstring) (data : list N) (w : World)
  : outcome unit * World :=
  (Ok tt, (path, data) :: filter (fun entry => negb (jstr_eqb (fst entry) path)) w).

Definition fs_stat (path : jstring) (w : World) : outcome N * World :=
  match find (fun entry => jstr_eqb (fst entry) path) w with
  | Some entry => (Ok (N.of_nat (length (snd entry))), w)
  | None => (Raise ENOENT, w)
  end.

(** A clock that shows one millisecond more for every file on the disk. *)
Definition Date_now (w : World) : N * World :=
  (1700000000000 + N.of_nat (length w), w).

(** One tenant, [t1], whose plan has custom branding. *)
Definition Tenant_findById (id : Gateway.jsval) (w : World) : outcome (option bool) * World :=
  if jstr_eqb (Gateway.String_ id) (js "t1") then (Ok (Some true), w)
  else (Ok None, w).

(** A quota of a thousand bytes per upload. *)
Definition canPerformAction (tenant : bool) (size : N) (w : World)
  : outcome (bool * option jstring) * World :=
  (Ok (size <=? 1000, None), w).

Definition generateSignedUrl (input : Gateway.grant_input) (w : World)
  : outcome Gateway.signed_url_data * World :=
  (Ok {| Gateway.sd_url := js "/api/v1/files/secure/eyJ0IjoxfQ.c2ln";
         Gateway.sd_expiresAt := 1700086400000 |}, w).

(** A tracking service that is down, and one that works. *)
Definition tracking_down (t : tracked_upload) (w : World) : outcome unit * World :=
  (Raise None, w).
Definition tracking_up (t : tracked_upload) (w : World) : outcome unit * World :=
  (Ok tt, w).

Definition trackFileDeletion (tenantId filename : jstring) (w : World)
  : outcome (option bool) * World :=
  (Ok (Some true), w).

Definition deletion_tracking_down (tenantId filename : jstring) (w : World)
  : outcome (option bool) * World :=
  (Raise None, w).

Definition root : jstring := js "/srv/app".
Definition posix_join (parts : list jstring) : jstring := join (js "/") parts.

Definition owner : uploader :=
  {| up_tenantId := Gateway.VString (js "t1"); up_isTenantOwner := true |}.

Definition photo : file_part :=
  {| fp_fieldname := js "files"; fp_filename := js "my photo.png";
     fp_encoding := js "7bit"; fp_mimetype := js "image/png";
     fp_buffer := [137; 80; 78; 71] |}.

(** A work-order upload of one file; the fields come after the file. *)
Definition photo_upload : upload_request :=
  {| parts := [Yield (FilePart photo);
               Yield (FieldPart (js "scope") (js "workOrder"));
               Yield (FieldPart (js "workOrderId") (js " wo7 "))];
     user := owner;
     header_host := Gateway.VString (js "api.example.com");
     header_forwarded_proto := Gateway.VString (js "https");
     protocol := js "http" |}.

Definition post (tracker : tracked_upload -> World -> outcome unit * World)
  (req : upload_request) : run World answer :=
  post_upload World root posix_join None bool (fun t => t) Tenant_findById
    canPerformAction Date_now fs_mkdir fs_writeFile fs_stat generateSignedUrl
    tracker req.

Definition stored_photo : jstring :=
  js "/srv/app/uploads/t1/work_orders/wo7/1700000000000-my_photo.png".

Definition photo_params : file_params :=
  {| p_tenantId := js "t1"; p_scope := js "work_orders"; p_ownerId := js "wo7";
     p_filename := js "1700000000000-my_photo.png" |}.

(** A file of tenant [t1] whose stored name holds a percent sign, and the
    parameters of the route that name it. *)
Definition stored_discount : jstring :=
  js "/srv/app/uploads/t1/tasks/o1/1700000000000-50%.png".

Definition discount_params : file_params :=
  {| p_tenantId := js "t1"; p_scope := js "tasks"; p_ownerId := js "o1";
     p_filename := js "1700000000000-50%.png" |}.

Definition discount_request : Gateway.legacy_request :=
  {| Gateway.p_tenantId := js "t1"; Gateway.p_scope := js "tasks";
     Gateway.p_ownerId := js "o1";
     Gateway.p_filename := js "1700000000000-50%.png";
     Gateway.req_user := None; Gateway.query_token := Gateway.VUndefined |}.

(** A file whose stored name holds the three characters of an escape. *)
Definition stored_escape : jstring :=
  js "/srv/app/uploads/t1/tasks/o1/1700000000000-a%20b.png".

Definition escape_params : file_params :=
  {| p_tenantId := js "t1"; p_scope := js "tasks"; p_ownerId := js "o1";
     p_filename := js "1700000000000-a%20b.png" |}.

Definition escape_request : Gateway.legacy_request :=
  {| Gateway.p_tenantId := js "t1"; Gateway.p_scope := js "tasks";
     Gateway.p_ownerId := js "o1";
     Gateway.p_filename := js "1700000000000-a%20b.png";
     Gateway.req_user := None; Gateway.query_token := Gateway.VUndefined |}.

(** [path.join] on an absolute first segment: the segments are joined with a
    slash and the result is normalised, an empty segment and [.] being
    dropped and [..] taking back the segment before it. *)
Fixpoint resolve (kept : list jstring) (segments : list jstring) : list jstring :=
  match segments with
  | [] => rev kept
  | segment :: rest =>
      if jstr_eqb segment [] || jstr_eqb segment (js ".") then resolve kept rest
      else if jstr_eqb segment (js "..") then resolve (tl kept) rest
      else resolve (segment :: kept) rest
  end.

Definition node_join (parts : list jstring) : jstring :=
  js "/" ++ join (js "/") (resolve [] (split 47 (join (js "/") parts))).

(** A file of tenant [t2], and parameters of the route, with the tenant
    [t1], whose file name climbs out of the directory. *)
Definition foreign_photo : jstring := js "/srv/app/uploads/t2/tasks/o1/x.png".

Definition climbing_params : file_params :=
  {| p_tenantId := js "t1"; p_scope := js "tasks"; p_ownerId := js "o1";
     p_filename := js "../../../t2/tasks/o1/x.png" |}.

(** An upload whose [taskId] field climbs out of the directory. *)
Definition climbing_upload : upload_request :=
  {| parts := [Yield (FieldPart (js "taskId") (js "../../t2/tasks/o1"));
               Yield (FilePart photo)];
     user := owner;
     header_host := Gateway.VString (js "api.example.com");
     header_forwarded_proto := Gateway.VUndefined;
     protocol := js "http" |}.

Definition caller (tenant : string) : Gateway.user :=
  {| Gateway.user_tenantId := Gateway.VString (js tenant);
     Gateway.user_id := Gateway.VString (js "u1") |}.

Definition delete
  (tracker : jstring -> jstring -> World -> outcome (option bool) * World)
  (u : Gateway.user) (params : file_params) : run World answer :=
  delete_upload World root posix_join fs_access fs_unlink tracker u params.

End StorageExamples.

(* ===================================================================== *)
(** ** The built-ins on small inputs                                     *)
(* ===================================================================== *)

Section BuiltinChecks.
Import JS.

Example split_keeps_empty_segments :
  split 47 (js "/a//b/") = [[]; js "a"; []; js "b"; []].
Proof. reflexivity. Qed.

Example split_of_empty : split 47 [] = [[]].
Proof. reflexivity. Qed.

Example join_undoes_split : join (js "/") (split 47 (js "/a//b/")) = js "/a//b/".
Proof. reflexivity. Qed.

Example indexOf_is_first :
  indexOf (js "b") [js "a"; js "b"; js "b"] = Some 1%nat
  /\ indexOf (js "c") [js "a"; js "b"] = None.
Proof. split; reflexivity. Qed.

Example includes_marker :
  includes (js "/x.png?token=abc") (js "?token=") = true
  /\ includes (js "/x.png?tokens") (js "?token=") = false.
Proof. split; reflexivity. Qed.

Example decodeURIComponent_space :
  decodeURIComponent (js "report%20final.pdf") = Normal (js "report final.pdf").
Proof. reflexivity. Qed.

Example decodeURIComponent_greek :
  decodeURIComponent (js "%CE%B1%ce%b2.png") = Normal (945 :: 946 :: js ".png").
Proof. reflexivity. Qed.

Example decodeURIComponent_astral :
  decodeURIComponent (js "%F0%9F%98%80") = Normal [55357; 56832].
Proof. reflexivity. Qed.

Example decodeURIComponent_malformed :
  decodeURIComponent (js "100%.pdf") = Throw URIError
  /\ decodeURIComponent (js "%C0%80") = Throw URIError
  /\ decodeURIComponent (js "%ED%A0%80") = Throw URIError
  /\ decodeURIComponent (js "%CE") = Throw URIError.
Proof. repeat split; reflexivity. Qed.

Example atob_with_and_without_padding :
  atob (js "bnVsbA==") = Normal (js "null")
  /\ atob (js "bnVsbA") = Normal (js "null")
  /\ atob (js "bnVs bA") = Normal (js "null").
Proof. repeat split; reflexivity. Qed.

Example atob_rejects :
  atob (js "bnVsb") = Throw InvalidCharacterError
  /\ atob (js "bn-sbA") = Throw InvalidCharacterError
  /\ atob (js "bnVsbA=") = Throw InvalidCharacterError.
Proof. repeat split; reflexivity. Qed.

Example JSON_parse_values :
  JSON_parse (js " [1, -2.5e3, true, false, null, []] ")
  = Normal (JArray [JNumber (js "1"); JNumber (js "-2.5e3"); JBool true;
                    JBool false; JNull; JArray []]).
Proof. reflexivity. Qed.

Example JSON_parse_object :
  JSON_parse (js "{" ++ 34 :: js "a" ++ 34 :: js ": {}, " ++ 34 :: js "b\u00e9\n"
              ++ 34 :: js ":" ++ 34 :: 34 :: js "}")
  = Normal (JObject [(js "a", JObject []); ([98; 233; 10], JString [])]).
Proof. reflexivity. Qed.

Example JSON_parse_rejects :
  JSON_parse (js "[1,]") = Throw SyntaxError
  /\ JSON_parse (js "01") = Throw SyntaxError
  /\ JSON_parse (js "{a:1}") = Throw SyntaxError
  /\ JSON_parse (js "nul") = Throw SyntaxError
  /\ JSON_parse [] = Throw SyntaxError.
Proof. repeat split; reflexivity. Qed.

Example String_of_values :
  Gateway.String_ (Gateway.VNumber true (js "1e+21")) = js "1e+21"
  /\ Gateway.String_ (Gateway.VNumber false (js "0")) = js "0"
  /\ Gateway.String_ Gateway.VUndefined = js "undefined"
  /\ Gateway.truthy (Gateway.VNumber false (js "NaN")) = false
  /\ Gateway.truthy (Gateway.VString (js "0")) = true.
Proof. repeat split; reflexivity. Qed.

(** The prefix of the token in the comment of [file-url-converter.ts],
    [eyJ0ZW5hbnRJZCI6], is what the modelled codec writes for the start of a
    payload. *)
Example encode_payload_prefix :
  firstn 16 (SignedUrlService.encode_payload
               {| SignedUrlService.tenantId := js "t1";
                  SignedUrlService.scope := js "tasks";
                  SignedUrlService.ownerId := js "o1";
                  SignedUrlService.filename := js "a.png";
                  SignedUrlService.action := js "view";
                  SignedUrlService.issuedAt := 1700000000000;
                  SignedUrlService.expiresAt := 1700003600000 |})
  = js "eyJ0ZW5hbnRJZCI6".
Proof. reflexivity. Qed.

End BuiltinChecks.

Section HandlerChecks.
Import JS Gateway Examples.

(** A valid token for a file that is on the disk is streamed. *)
Example get_secure_streams :
  get_secure root posix_join (disk [stored_file]) verifier (js "good.sig")
  = Normal {| status := 200;
              body := FileStream stored_file (Some (js "inline")) |}.
Proof. reflexivity. Qed.

(** The legacy endpoint answers 403 to a token of tenant [B] on a path of
    tenant [A], and serves the file to a request without a token. *)
Example get_upload_token_of_other_tenant :
  get_upload root posix_join (disk [stored_file]) jwt no_users
    (upload_request None (VString (js "jwt-of-B")))
  = Normal (error_reply 403 "Forbidden: Tenant mismatch").
Proof. reflexivity. Qed.

Example get_upload_without_token :
  get_upload root posix_join (disk [stored_file]) jwt no_users
    (upload_request None VUndefined)
  = Normal {| status := 200; body := FileStream stored_file None |}.
Proof. reflexivity. Qed.

(** A request for a file that is not on the disk is answered 404 after the
    one call to the file system. *)
Example post_signed_url_file_missing :
  post_signed_url root posix_join (disk []) fixed_issuer remaining
    (user_of "A") (Some (file_body VUndefined))
  = ([Access stored_file], Normal (error_reply 404 "File not found")).
Proof. reflexivity. Qed.

(** A request without a body, and a batch with a [null] among its files:
    the handlers throw before they check anything. *)
Example post_signed_url_without_body :
  post_signed_url root posix_join (disk [stored_file]) fixed_issuer remaining
    (user_of "A") None
  = ([], Throw TypeError)
  /\ post_signed_urls_batch fixed_issuer (user_of "A")
       (Some {| bb_files := Some [None; Some (batch_entry "b.png" (VString (js "B")))];
                bb_action := VUndefined; bb_expiresInMinutes := VUndefined |})
     = ([], Throw TypeError).
Proof. split; reflexivity. Qed.

(** A download of a file with a Greek name: the header cannot be written. *)
Example get_secure_download_of_greek_name :
  get_secure root posix_join (fun filePath => true)
    (fun token =>
       {| valid := true; expired := false;
          v_tenantId := Some (js "A"); v_scope := Some (js "tasks");
          v_ownerId := Some (js "o1"); v_filename := Some (945 :: js ".png");
          v_action := Some (js "download") |})
    (js "greek.sig")
  = Throw TypeError.
Proof. reflexivity. Qed.

Example post_signed_urls_batch_own_files :
  post_signed_urls_batch fixed_issuer (user_of "A")
    (Some {| bb_files := Some [Some (batch_entry "a.png" VUndefined);
                               Some (batch_entry "b.png" (VString (js "A")))];
             bb_action := VUndefined; bb_expiresInMinutes := VUndefined |})
  = ([Generate (batch_input (user_of "A") (VString (js "view")) VUndefined
                  (batch_entry "a.png" VUndefined));
      Generate (batch_input (user_of "A") (VString (js "view")) VUndefined
                  (batch_entry "b.png" (VString (js "A"))))],
     Normal {| status := 200;
               body := BatchBody
                         [(VString (js "a.png"), js "/files/secure/eyJ0IjoxfQ.c2ln",
                           1700003600000);
                          (VString (js "b.png"), js "/files/secure/eyJ0IjoxfQ.c2ln",
                           1700003600000)] |}).
Proof. reflexivity. Qed.

(** A legacy URL is converted once the issuance call succeeds. *)
Example convertToSignedUrl_converts :
  Converter.convertToSignedUrl nat flaky_issuer server (Some legacy_url) None 1%nat
  = (Normal (js "https://api.example.com/api/v1/files/secure/eyJ0IjoxfQ.c2ln"),
     2%nat).
Proof. reflexivity. Qed.

End HandlerChecks.

(* ===================================================================== *)
(** ** The fuel of the JSON parser                                       *)
(* ===================================================================== *)

Section JsonFuel.
Import JS.

Lemma skip_ws_length (s : jstring) : (length (skip_ws s) <= length s)%nat.
Proof.
  induction s as [|c s IH]; simpl; [lia|].
  destruct (is_json_ws c); simpl; lia.
Qed.

Lemma skip_ws_cons_length (s r : jstring) (c : N) :
  skip_ws s = c :: r -> (length r < length s)%nat.
Proof.
  intros H. pose proof (skip_ws_length s) as Hl. rewrite H in Hl. simpl in Hl. lia.
Qed.

Lemma parse_string_body_length (s body after : jstring) :
  parse_string_body s = Some (body, after) -> (length after < length s)%nat.
Proof.
  remember (length s) as n eqn:Hn.
  assert (Hle : (length s <= n)%nat) by lia. rewrite Hn. clear Hn.
  revert s Hle body after.
  induction n as [|n IH]; intros s Hle body after H;
    (destruct s as [|c s']; [discriminate|]); [simpl in Hle; lia|].
  cbn [parse_string_body] in H. simpl in Hle.
  destruct (c =? 34); [injection H as _ <-; simpl; lia|].
  destruct (c =? 92).
  - destruct s' as [|e s'']; [discriminate|].
    destruct (e =? 117).
    + destruct s'' as [|h1 [|h2 [|h3 [|h4 rest]]]]; try discriminate.
      destruct (hex_digit h1), (hex_digit h2), (hex_digit h3), (hex_digit h4);
        try discriminate.
      destruct (parse_string_body rest) as [[b a]|] eqn:E; [|discriminate].
      injection H as _ <-. apply IH in E; simpl in *; lia.
    + destruct (simple_escape e); [|discriminate].
      destruct (parse_string_body s'') as [[b a]|] eqn:E; [|discriminate].
      injection H as _ <-. apply IH in E; simpl in *; lia.
  - destruct (c <? 32); [discriminate|].
    destruct (parse_string_body s') as [[b a]|] eqn:E; [|discriminate].
    injection H as _ <-. apply IH in E; simpl in *; lia.
Qed.

Lemma span_digits_length (s ds r : jstring) :
  span_digits s = (ds, r) -> (length r <= length s)%nat.
Proof.
  revert ds r. induction s as [|c s IH]; intros ds r H; simpl in H.
  - injection H as _ <-. simpl. lia.
  - destruct (is_digit c).
    + destruct (span_digits s) as [ds' r'] eqn:E. injection H as _ <-.
      specialize (IH _ _ eq_refl). simpl. lia.
    + injection H as _ <-. simpl. lia.
Qed.

(** Case analysis on a code unit, far enough to decide the matches of the
    parser on ASCII constants. *)
Ltac by_code c tac :=
  destruct c as [|c]; [tac|];
  do 7 (try (destruct c as [c|c|]; try tac)).

Lemma parse_number_length (s lit r : jstring) :
  parse_number s = Some (lit, r) -> (length r < length s)%nat.
Proof.
  unfold parse_number. intros H.
  set (p := match s with 45 :: r0 => ([45], r0) | _ => ([], s) end) in H.
  assert (Hp : (length (snd p) <= length s)%nat).
  { unfold p. destruct s as [|c s']; [simpl; lia|].
    by_code c ltac:(simpl; lia). }
  destruct p as [sign s1]. simpl in Hp.
  destruct s1 as [|d r1]; [discriminate|].
  destruct (negb (is_digit d)); [discriminate|].
  set (ip := if d =? 48 then ([d], r1)
             else let (ds, r0) := span_digits r1 in (d :: ds, r0)) in H.
  assert (Hip : (length (snd ip) <= length r1)%nat).
  { unfold ip. destruct (d =? 48); [simpl; lia|].
    destruct (span_digits r1) as [ds r0] eqn:E. simpl.
    exact (span_digits_length _ _ _ E). }
  destruct ip as [int_part s2]. simpl in Hip.
  set (fr := match s2 with
             | 46 :: r2 => match span_digits r2 with
                           | ([], _) => None
                           | (ds, r0) => Some (46 :: ds, r0)
                           end
             | _ => Some ([], s2)
             end) in H.
  assert (Hfr : forall fp s3, fr = Some (fp, s3) -> (length s3 <= length s2)%nat).
  { intros fp s3 Hf. unfold fr in Hf.
    destruct s2 as [|c2 r2]; [injection Hf as _ <-; lia|].
    by_code c2 ltac:(injection Hf as _ <-; lia).
    destruct (span_digits r2) as [ds r0] eqn:E.
    destruct ds; [discriminate|]. injection Hf as _ <-.
    pose proof (span_digits_length _ _ _ E). simpl. lia. }
  destruct fr as [[frac_part s3]|]; [|discriminate].
  specialize (Hfr _ _ eq_refl).
  set (ex := match s3 with
             | e :: r3 =>
                 if (e =? 101) || (e =? 69) then
                   let (esign, r4) := match r3 with
                                      | 43 :: r0 => ([43], r0)
                                      | 45 :: r0 => ([45], r0)
                                      | _ => ([], r3)
                                      end in
                   match span_digits r4 with
                   | ([], _) => None
                   | (ds, r0) => Some (e :: esign ++ ds, r0)
                   end
                 else Some ([], s3)
             | [] => Some ([], s3)
             end) in H.
  assert (Hex : forall ep s4, ex = Some (ep, s4) -> (length s4 <= length s3)%nat).
  { intros ep s4 He. unfold ex in He.
    destruct s3 as [|e r3]; [injection He as _ <-; lia|].
    destruct ((e =? 101) || (e =? 69)); [|injection He as _ <-; lia].
    set (es := match r3 with
               | 43 :: r0 => ([43], r0)
               | 45 :: r0 => ([45], r0)
               | _ => ([], r3)
               end) in He.
    assert (Hes : (length (snd es) <= length r3)%nat).
    { unfold es. destruct r3 as [|c3 r3']; [simpl; lia|].
      by_code c3 ltac:(simpl; lia). }
    destruct es as [esign r4]. simpl in Hes.
    destruct (span_digits r4) as [ds r0] eqn:E.
    destruct ds; [discriminate|]. injection He as _ <-.
    pose proof (span_digits_length _ _ _ E). simpl. lia. }
  destruct ex as [[exp_part s4]|]; [|discriminate].
  specialize (Hex _ _ eq_refl). injection H as _ <-. simpl in *. lia.
Qed.

Lemma next_is_length (k : N) (s r : jstring) :
  next_is k s = Some r -> length s = S (length r).
Proof.
  destruct s as [|c s']; simpl; [discriminate|].
  destruct (c =? k); [|discriminate]. now intros [= <-].
Qed.

Lemma next_is_skip_length (k : N) (s r : jstring) :
  next_is k (skip_ws s) = Some r -> (length r < length s)%nat.
Proof.
  intros H. apply next_is_length in H. pose proof (skip_ws_length s). lia.
Qed.

Lemma strip_prefix_length (p s r : jstring) :
  p <> [] -> strip_prefix p s = Some r -> (length r < length s)%nat.
Proof.
  unfold strip_prefix. intros Hp H.
  destruct (startsWith p s) eqn:E; [|discriminate]. injection H as <-.
  destruct p as [|x p']; [contradiction|]. destruct s as [|y s']; [discriminate|].
  simpl. pose proof (length_skipn (length p') s'). lia.
Qed.

Lemma parse_fuel_bound (m : nat) :
  fuel_bound parse_value m /\ fuel_bound parse_elements m
  /\ fuel_bound parse_members m.
Proof.
  induction m as [|m (IHv & IHe & IHm)];
    [split; [|split]; intros s a r H; discriminate H|].
  split; [|split]; intros s a r H.
  - (* parse_value *)
    cbn [parse_value] in H.
    destruct (skip_ws s) as [|c rest] eqn:Hs; [discriminate|].
    pose proof (skip_ws_cons_length _ _ _ Hs) as Hrest.
    assert (Hstep : forall n, (1 <= n)%nat -> exists n', n = S n')
      by (intros [|n'] Hn; [lia|now exists n']).
    destruct (c =? 123) eqn:E123.
    { destruct (next_is 125 (skip_ws rest)) as [r'|] eqn:Hclose.
      - injection H as <- <-.
        pose proof (next_is_skip_length _ _ _ Hclose).
        split; [lia|]. intros n Hn. destruct (Hstep n) as [n' ->]; [lia|].
        cbn [parse_value]. now rewrite Hs, E123, Hclose.
      - destruct (parse_members m rest) as [[ms r']|] eqn:Hm; [|discriminate].
        injection H as <- <-. destruct (IHm _ _ _ Hm) as [Hlt Hn'].
        split; [lia|]. intros n Hn. destruct (Hstep n) as [n' ->]; [lia|].
        cbn [parse_value]. rewrite Hs, E123, Hclose, Hn' by lia. reflexivity. }
    destruct (c =? 91) eqn:E91.
    { destruct (next_is 93 (skip_ws rest)) as [r'|] eqn:Hclose.
      - injection H as <- <-.
        pose proof (next_is_skip_length _ _ _ Hclose).
        split; [lia|]. intros n Hn. destruct (Hstep n) as [n' ->]; [lia|].
        cbn [parse_value]. now rewrite Hs, E123, E91, Hclose.
      - destruct (parse_elements m rest) as [[vs r']|] eqn:He; [|discriminate].
        injection H as <- <-. destruct (IHe _ _ _ He) as [Hlt Hn'].
        split; [lia|]. intros n Hn. destruct (Hstep n) as [n' ->]; [lia|].
        cbn [parse_value]. rewrite Hs, E123, E91, Hclose, Hn' by lia.
        reflexivity. }
    assert (Hleaf : forall leaf : option (json * jstring),
              leaf = Some (a, r) ->
              (forall n', parse_value (S n') s = leaf) ->
              (length r < length rest \/ length r <= length rest)%nat ->
              (length r < length s)%nat
              /\ forall n, (length s - length r <= n)%nat ->
                           parse_value n s = Some (a, r)).
    { intros leaf Hleaf Hall Hlen. split; [lia|].
      intros n Hn. destruct (Hstep n) as [n' ->]; [lia|].
      now rewrite Hall. }
    destruct (c =? 34) eqn:E34.
    { destruct (parse_string_body rest) as [[str r']|] eqn:Hstr; [|discriminate].
      pose proof (parse_string_body_length _ _ _ Hstr).
      injection H as <- <-.
      apply (Hleaf (Some (JString str, r'))); [reflexivity| |lia].
      intros n'. cbn [parse_value]. now rewrite Hs, E123, E91, E34, Hstr. }
    destruct (c =? 116) eqn:E116.
    { destruct (strip_prefix (js "true") (c :: rest)) as [r'|] eqn:Hlit;
        [|discriminate].
      assert (Hl : (length r' < length (c :: rest))%nat)
        by (apply (strip_prefix_length (js "true")); [discriminate|exact Hlit]).
      cbn [option_map] in H. injection H as <- <-.
      apply (Hleaf (Some (JBool true, r'))); [reflexivity| |simpl in Hl; lia].
      intros n'. cbn [parse_value]. now rewrite Hs, E123, E91, E34, E116, Hlit. }
    destruct (c =? 102) eqn:E102.
    { destruct (strip_prefix (js "false") (c :: rest)) as [r'|] eqn:Hlit;
        [|discriminate].
      assert (Hl : (length r' < length (c :: rest))%nat)
        by (apply (strip_prefix_length (js "false")); [discriminate|exact Hlit]).
      cbn [option_map] in H. injection H as <- <-.
      apply (Hleaf (Some (JBool false, r'))); [reflexivity| |simpl in Hl; lia].
      intros n'. cbn [parse_value].
      now rewrite Hs, E123, E91, E34, E116, E102, Hlit. }
    destruct (c =? 110) eqn:E110.
    { destruct (strip_prefix (js "null") (c :: rest)) as [r'|] eqn:Hlit;
        [|discriminate].
      assert (Hl : (length r' < length (c :: rest))%nat)
        by (apply (strip_prefix_length (js "null")); [discriminate|exact Hlit]).
      cbn [option_map] in H. injection H as <- <-.
      apply (Hleaf (Some (JNull, r'))); [reflexivity| |simpl in Hl; lia].
      intros n'. cbn [parse_value].
      now rewrite Hs, E123, E91, E34, E116, E102, E110, Hlit. }
    destruct (parse_number (c :: rest)) as [[lit r']|] eqn:Hnum; [|discriminate].
    pose proof (parse_number_length _ _ _ Hnum) as Hl.
    injection H as <- <-.
    apply (Hleaf (Some (JNumber lit, r'))); [reflexivity| |simpl in Hl; lia].
    intros n'. cbn [parse_value].
    now rewrite Hs, E123, E91, E34, E116, E102, E110, Hnum.
  - (* parse_elements *)
    cbn [parse_elements] in H.
    destruct (parse_value m s) as [[v r1]|] eqn:Hv; [|discriminate].
    destruct (IHv _ _ _ Hv) as [Hlt1 Hn1].
    destruct (next_is 44 (skip_ws r1)) as [r2|] eqn:Hcomma.
    + destruct (parse_elements m r2) as [[vs r3]|] eqn:He; [|discriminate].
      injection H as <- <-. destruct (IHe _ _ _ He) as [Hlt2 Hn2].
      pose proof (next_is_skip_length _ _ _ Hcomma).
      split; [lia|]. intros [|n'] Hn; [lia|].
      cbn [parse_elements]. rewrite Hn1, Hcomma, Hn2 by lia. reflexivity.
    + destruct (next_is 93 (skip_ws r1)) as [r2|] eqn:Hclose; [|discriminate].
      injection H as <- <-.
      pose proof (next_is_skip_length _ _ _ Hclose).
      split; [lia|]. intros [|n'] Hn; [lia|].
      cbn [parse_elements]. rewrite Hn1, Hcomma, Hclose by lia. reflexivity.
  - (* parse_members *)
    cbn [parse_members] in H.
    destruct (next_is 34 (skip_ws s)) as [r0|] eqn:Hquote; [|discriminate].
    destruct (parse_string_body r0) as [[key r1]|] eqn:Hkey; [|discriminate].
    destruct (next_is 58 (skip_ws r1)) as [r2|] eqn:Hcolon; [|discriminate].
    destruct (parse_value m r2) as [[v r3]|] eqn:Hv; [|discriminate].
    destruct (IHv _ _ _ Hv) as [Hlt1 Hn1].
    pose proof (next_is_skip_length _ _ _ Hquote).
    pose proof (parse_string_body_length _ _ _ Hkey).
    pose proof (next_is_skip_length _ _ _ Hcolon).
    destruct (next_is 44 (skip_ws r3)) as [r4|] eqn:Hcomma.
    + destruct (parse_members m r4) as [[ms r5]|] eqn:Hm; [|discriminate].
      injection H as <- <-. destruct (IHm _ _ _ Hm) as [Hlt2 Hn2].
      pose proof (next_is_skip_length _ _ _ Hcomma).
      split; [lia|]. intros [|n'] Hn; [lia|].
      cbn [parse_members].
      rewrite Hquote, Hkey, Hcolon, Hn1, Hcomma, Hn2 by lia. reflexivity.
    + destruct (next_is 125 (skip_ws r3)) as [r4|] eqn:Hclose; [|discriminate].
      injection H as <- <-.
      pose proof (next_is_skip_length _ _ _ Hclose).
      split; [lia|]. intros [|n'] Hn; [lia|].
      cbn [parse_members].
      rewrite Hquote, Hkey, Hcolon, Hn1, Hcomma, Hclose by lia. reflexivity.
Qed.

(** The fuel of [JSON_parse] is enough: a value that any fuel finds is found
    with the fuel [JSON_parse] starts with. *)
Lemma parse_value_fuel (m : nat) (text : jstring) (v : json) (r : jstring) :
  parse_value m text = Some (v, r) ->
  parse_value (S (length text)) text = Some (v, r).
Proof.
  intros H. destruct (parse_fuel_bound m) as [Hv _].
  destruct (Hv _ _ _ H) as [_ Hn]. apply Hn. lia.
Qed.

Lemma JSON_parse_any_fuel (m : nat) (text r : jstring) (v : json) :
  parse_value m text = Some (v, r) -> skip_ws r = [] ->
  JSON_parse text = Normal v.
Proof.
  intros H Hrest. unfold JSON_parse.
  now rewrite (parse_value_fuel m text v r H), Hrest.
Qed.

End JsonFuel.

(* ===================================================================== *)
(** ** Properties of the migration helper                                *)
(* ===================================================================== *)

Section ConversionFacts.
Import JS Converter.

Variable World : Type.
Variable issue : metadata -> option convert_options -> World -> completion jstring * World.
Variable serverUrl : jstring.

Local Notation convert := (convertToSignedUrl World issue serverUrl).

(** A URL without a token marker comes back as it is, and the issuance call
    is not made: the world is untouched. *)
Lemma convert_not_legacy (u : jstring) (options : option convert_options) (w : World) :
  isOldTokenUrl (Some u) = false ->
  convert (Some u) options w = (Normal u, w).
Proof.
  intros Hold. unfold convertToSignedUrl.
  destruct u as [|c u']; [reflexivity|].
  rewrite Hold. reflexivity.
Qed.

(** When no metadata can be read from the URL, it comes back as it is. *)
Lemma convert_no_metadata (u : jstring) (options : option convert_options) (w : World) :
  extractFileMetadataFromUrl u = Normal None ->
  convert (Some u) options w = (Normal u, w).
Proof.
  intros Hex. unfold convertToSignedUrl.
  destruct u as [|c u']; [reflexivity|].
  rewrite Hex. destruct (negb _); reflexivity.
Qed.

(** C10: for an undefined or an empty url, [convertToSignedUrl] resolves to
    the empty string, whatever the options, and makes no issuance call. *)
Theorem convertToSignedUrl_no_url (options : option convert_options) (w : World) :
  convert None options w = (Normal [], w)
  /\ convert (Some []) options w = (Normal [], w).
Proof. split; reflexivity. Qed.

(** C5: [convertToSignedUrl] never rejects: it always resolves to a string;
    when the extraction returns null it resolves to the original URL, and
    when the issuance call throws the exception is caught and it resolves to
    the original URL as well. *)
Theorem convertToSignedUrl_never_raises
  (url : option jstring) (options : option convert_options) (w : World) :
  (exists s w', convert url options w = (Normal s, w'))
  /\ (forall u, url = Some u ->
        extractFileMetadataFromUrl u = Normal None ->
        convert url options w = (Normal u, w))
  /\ (forall u md e w', url = Some u ->
        isOldTokenUrl (Some u) = true ->
        extractFileMetadataFromUrl u = Normal (Some md) ->
        issue md options w = (Throw e, w') ->
        convert url options w = (Normal u, w')).
Proof.
  split; [|split].
  - unfold convertToSignedUrl.
    destruct url as [[|c u]|]; try (eexists; eexists; reflexivity).
    destruct (negb _); [eexists; eexists; reflexivity|].
    destruct (extractFileMetadataFromUrl (c :: u)) as [[md|]|e];
      try (eexists; eexists; reflexivity).
    destruct (issue md options w) as [[signedUrl|e] w'];
      [|eexists; eexists; reflexivity].
    destruct (startsWith _ _); eexists; eexists; reflexivity.
  - intros u -> Hex. now apply convert_no_metadata.
  - intros u md e w' -> Hold Hex Hissue.
    unfold convertToSignedUrl.
    destruct u as [|c u']; [discriminate Hold|].
    rewrite Hold, Hex, Hissue. reflexivity.
Qed.

End ConversionFacts.

(** The conversion at a legacy URL whose issuance fails, and at a URL with a
    token marker and no [uploads] segment: both come back unchanged. *)
Lemma convertToSignedUrl_never_raises_witness :
  Converter.convertToSignedUrl nat Examples.flaky_issuer Examples.server
    (Some Examples.legacy_url) None 0%nat
  = (JS.Normal Examples.legacy_url, 1%nat)
  /\ Converter.convertToSignedUrl nat Examples.flaky_issuer Examples.server
       (Some (JS.js "/img/logo.png?token=abc")) None 0%nat
     = (JS.Normal (JS.js "/img/logo.png?token=abc"), 0%nat).
Proof.
  split.
  - destruct (convertToSignedUrl_never_raises nat Examples.flaky_issuer
                Examples.server (Some Examples.legacy_url) None 0%nat)
      as (_ & _ & Hthrow).
    eapply Hthrow; vm_compute; reflexivity.
  - destruct (convertToSignedUrl_never_raises nat Examples.flaky_issuer
                Examples.server (Some (JS.js "/img/logo.png?token=abc")) None 0%nat)
      as (_ & Hnull & _).
    eapply Hnull; vm_compute; reflexivity.
Defined.

Section ExtractionFacts.
Import JS Converter.

Lemma jstr_eqb_refl (a : jstring) : jstr_eqb a a = true.
Proof.
  induction a as [|x a IH]; simpl; [reflexivity|].
  now rewrite N.eqb_refl, IH.
Qed.

Lemma jstr_eqb_eq (a b : jstring) : jstr_eqb a b = true <-> a = b.
Proof.
  split.
  - revert b. induction a as [|x a IH]; intros [|y b] H; simpl in H;
      try discriminate; [reflexivity|].
    apply andb_true_iff in H as [Hx Hab].
    apply N.eqb_eq in Hx. subst y. f_equal. now apply IH.
  - intros <-. apply jstr_eqb_refl.
Qed.


(** [indexOf] finds the first occurrence. *)
Lemma indexOf_first (x : jstring) (pre rest : list jstring) :
  indexOf x pre = None ->
  indexOf x (pre ++ x :: rest) = Some (length pre).
Proof.
  induction pre as [|p pre IH]; simpl; intros H.
  - now rewrite jstr_eqb_refl.
  - destruct (jstr_eqb p x); [discriminate|].
    destruct (indexOf x pre); [discriminate|].
    now rewrite IH.
Qed.

Lemma nth_error_after (A : Type) (pre l : list A) (k : nat) :
  nth_error (pre ++ l) (length pre + k) = nth_error l k.
Proof.
  rewrite nth_error_app2 by lia. f_equal. lia.
Qed.

(** The signed-URL branch is not entered by a path without [/files/secure/]. *)
Lemma signed_branch_other (path : jstring) :
  includes path (js "/files/secure/") = false -> signed_branch path = None.
Proof.
  intros H. unfold signed_branch. now rewrite H.
Qed.

Lemma get_property_member (payload : json) (name : jstring) :
  payload <> JNull -> get_property payload name = Normal (member payload name).
Proof.
  intros Hnn. destruct payload; try reflexivity. contradiction.
Qed.

Lemma decode_payload_fields (payloadBase64 payloadJson : jstring) (payload : json) :
  atob (replace_all 95 47 (replace_all 45 43 payloadBase64)) = Normal payloadJson ->
  JSON_parse payloadJson = Normal payload ->
  payload <> JNull ->
  decode_payload payloadBase64
  = Normal (Some {| filename := member payload (js "filename");
                    scope := member payload (js "scope");
                    ownerId := member payload (js "ownerId");
                    tenantId := member payload (js "tenantId") |}).
Proof.
  intros Hatob Hparse Hnn. unfold decode_payload.
  rewrite Hatob. simpl. rewrite Hparse. simpl.
  rewrite !(get_property_member _ _ Hnn). reflexivity.
Qed.

(** C9, as amended: for a URL whose path contains [/files/secure/], with the
    token being what follows the first segment [secure], when the text of the
    token before its first [.] is not empty and base64url-decodes to JSON
    that parses to a value other than [null], [extractFileMetadataFromUrl]
    returns an object holding the payload's [filename], [scope], [ownerId]
    and [tenantId] properties, a property the payload lacks being
    [undefined]; it does not return null. *)
Theorem extract_signed_url_fields
  (url payloadBase64 payloadJson : jstring) (rest : list jstring)
  (secureIndex : nat) (payload : json) :
  let path := hd [] (split 63 url) in
  includes path (js "/files/secure/") = true ->
  indexOf (js "secure") (split 47 path) = Some secureIndex ->
  split 46 (join (js "/") (skipn (secureIndex + 1) (split 47 path)))
  = payloadBase64 :: rest ->
  payloadBase64 <> [] ->
  atob (replace_all 95 47 (replace_all 45 43 payloadBase64)) = Normal payloadJson ->
  JSON_parse payloadJson = Normal payload ->
  payload <> JNull ->
  extractFileMetadataFromUrl url
  = Normal (Some {| filename := member payload (js "filename");
                    scope := member payload (js "scope");
                    ownerId := member payload (js "ownerId");
                    tenantId := member payload (js "tenantId") |}).
Proof.
  intros path Hshape Hidx Htoken Hne Hatob Hparse Hnn.
  unfold extractFileMetadataFromUrl. fold path.
  unfold signed_branch. rewrite Hshape, Hidx.
  assert (Hlen : Nat.ltb (secureIndex + 1) (length (split 47 path)) = true).
  { apply Nat.ltb_lt.
    destruct (Nat.lt_ge_cases (secureIndex + 1) (length (split 47 path)))
      as [Hlt | Hge]; [exact Hlt|].
    rewrite (skipn_all2 _ Hge) in Htoken. simpl in Htoken.
    injection Htoken as <- _. contradiction. }
  rewrite Hlen, Htoken. simpl hd.
  destruct payloadBase64 as [|c p]; [contradiction|].
  rewrite (decode_payload_fields _ _ _ Hatob Hparse Hnn). reflexivity.
Qed.

End ExtractionFacts.

(** A token whose payload is the JSON text of an object without any of the
    four fields: all four come back [undefined]. *)
Lemma extract_signed_url_fields_witness :
  Converter.extractFileMetadataFromUrl
    (JS.js "https://api.example.com/api/v1/files/secure/eyJhIjoxfQ.c2ln?x=1")
  = JS.Normal (Some {| Converter.filename := None; Converter.scope := None;
                       Converter.ownerId := None; Converter.tenantId := None |}).
Proof.
  apply (extract_signed_url_fields _ (JS.js "eyJhIjoxfQ")
           [123; 34; 97; 34; 58; 49; 125] [JS.js "c2ln"] 6%nat
           (JS.JObject [([97], JS.JNumber [49])]));
    try (vm_compute; reflexivity); discriminate.
Defined.

(** The claim as stated fails: the payload segment [bnVsbA] decodes to the text
    [null], which parses, and reading a property of [null] throws inside the
    inner [try]: the function returns null. *)
Lemma extract_null_payload :
  let url := JS.js "https://api.example.com/api/v1/files/secure/bnVsbA.c2ln" in
  JS.includes url (JS.js "/files/secure/") = true
  /\ JS.atob (JS.js "bnVsbA") = JS.Normal (JS.js "null")
  /\ JS.JSON_parse (JS.js "null") = JS.Normal JS.JNull
  /\ Converter.extractFileMetadataFromUrl url = JS.Normal None.
Proof.
  vm_compute. repeat split.
Qed.

(* ===================================================================== *)
(** ** Properties of the gateway                                         *)
(* ===================================================================== *)

Section SecureFilesFacts.
Import JS Gateway.

Variable cwd : jstring.
Variable path_join : list jstring -> jstring.
Variable file_exists : jstring -> bool.
Variable generateSignedUrl : grant_input -> completion signed_url_data.
Variable getTimeRemaining : N -> N.
Variable verifySignedUrl : jstring -> verification.

Local Notation serve := (get_secure cwd path_join file_exists verifySignedUrl).
Local Notation issue_one :=
  (post_signed_url cwd path_join file_exists generateSignedUrl getTimeRemaining).
Local Notation issue_batch := (post_signed_urls_batch generateSignedUrl).

(** C3: on [GET /secure/*], a token that verification reports expired is
    answered 410, one it reports invalid for another reason 403, and a valid
    one whose file is not on the disk 404; none of the three streams a file. *)
Theorem get_secure_denials (token : jstring) :
  (valid (verifySignedUrl token) = false ->
   expired (verifySignedUrl token) = true ->
   serve token
   = Normal (error_reply 410 "This link has expired. Please request a new one.")
   /\ streams (serve token) = false)
  /\ (valid (verifySignedUrl token) = false ->
      expired (verifySignedUrl token) = false ->
      serve token = Normal (error_reply 403 "Invalid or tampered URL")
      /\ streams (serve token) = false)
  /\ (forall t s o f,
      valid (verifySignedUrl token) = true ->
      v_tenantId (verifySignedUrl token) = Some t ->
      v_scope (verifySignedUrl token) = Some s ->
      v_ownerId (verifySignedUrl token) = Some o ->
      v_filename (verifySignedUrl token) = Some f ->
      file_exists (path_join [cwd; js "uploads"; t; s; o; f]) = false ->
      serve token = Normal (error_reply 404 "File not found")
      /\ streams (serve token) = false).
Proof.
  unfold get_secure.
  split; [|split].
  - intros Hv He. rewrite Hv, He. split; reflexivity.
  - intros Hv He. rewrite Hv, He. split; reflexivity.
  - intros t s o f Hv Ht Hs Ho Hf Hdisk.
    rewrite Hv, Ht, Hs, Ho, Hf. simpl. rewrite Hdisk. split; reflexivity.
Qed.

(** A request whose required fields are missing is answered 400 before
    anything else is looked at. *)
Lemma post_signed_url_400 (u : user) (b : signed_url_body) :
  truthy (b_filename b) = false \/ truthy (b_scope b) = false
  \/ truthy (b_ownerId b) = false ->
  issue_one u (Some b)
  = ([], Normal (error_reply 400 "Missing required fields: filename, scope, ownerId")).
Proof.
  intros H. unfold post_signed_url.
  replace (negb (truthy (b_filename b)) || negb (truthy (b_scope b))
           || negb (truthy (b_ownerId b))) with true; [reflexivity|].
  symmetry. destruct H as [H | [H | H]]; rewrite H; simpl;
    rewrite ?orb_true_r; reflexivity.
Qed.


Lemma or_else_missing (a d : jsval) : truthy a = false -> or_else a d = d.
Proof. intros H. unfold or_else. now rewrite H. Qed.

(** C8, as amended: on [POST /signed-url], a request whose body is
    [undefined] or [null] makes the handler throw at the destructuring, with
    no call made; for every other body the handler answers 400 whenever one
    of filename, scope, ownerId is absent or empty, and then makes no call
    to the file system or to the signed-URL service and does not depend on
    the tenants; an absent or empty tenantId is no error: the caller's
    tenant stands in for it. *)
Theorem post_signed_url_missing_fields (u : user) (b : signed_url_body) :
  issue_one u None = ([], Throw TypeError)
  /\ (truthy (b_filename b) = false \/ truthy (b_scope b) = false
      \/ truthy (b_ownerId b) = false ->
      forall u' t',
        issue_one u (Some b)
        = ([], Normal (error_reply 400
                 "Missing required fields: filename, scope, ownerId"))
        /\ issue_one u' (Some (with_tenant b t')) = issue_one u (Some b))
  /\ (truthy (b_tenantId b) = false ->
      issue_one u (Some b) = issue_one u (Some (with_tenant b (user_tenantId u)))).
Proof.
  split; [reflexivity|]. split.
  - intros H u' t'. split.
    + now apply post_signed_url_400.
    + rewrite (post_signed_url_400 u b H).
      now apply post_signed_url_400.
  - intros Ht. unfold post_signed_url, with_tenant. simpl.
    rewrite (or_else_missing _ _ Ht).
    replace (or_else (user_tenantId u) (user_tenantId u)) with (user_tenantId u)
      by (unfold or_else; destruct (truthy (user_tenantId u)); reflexivity).
    reflexivity.
Qed.

(** What the filter of the batch handler gives: it throws exactly when an
    element is [null] or [undefined], and otherwise returns the files of
    another tenant. *)
Lemma invalid_files_null (u : user) (files : list (option batch_file)) :
  In None files -> invalid_files u files = Throw TypeError.
Proof.
  induction files as [|[file|] rest IH]; intros Hin.
  - destruct Hin.
  - destruct Hin as [Hin|Hin]; [discriminate|].
    cbn [invalid_files]. now rewrite (IH Hin).
  - reflexivity.
Qed.

Lemma invalid_files_outcome (u : user) (files : list (option batch_file)) :
  (invalid_files u files = Throw TypeError /\ In None files)
  \/ exists invalid,
       invalid_files u files = Normal invalid
       /\ ~ In None files
       /\ forall file, In file invalid
                       <-> In (Some file) files /\ foreign_file u file = true.
Proof.
  induction files as [|[file|] rest IH].
  - right. exists []. split; [reflexivity|]. split; [intros []|].
    intros file. split; [intros []|intros [[] _]].
  - cbn [invalid_files].
    destruct IH as [[Hthrow Hnull]|[invalid [Hok [Hnone Hiff]]]].
    + left. rewrite Hthrow. split; [reflexivity|now right].
    + right. rewrite Hok. cbn [bind].
      exists (if foreign_file u file then file :: invalid else invalid).
      split; [reflexivity|]. split.
      * intros [Hin|Hin]; [discriminate|contradiction].
      * intros x. destruct (foreign_file u file) eqn:Hf.
        -- split.
           ++ intros [<-|Hin]; [split; [now left|exact Hf]|].
              apply Hiff in Hin as [Hin Hx]. split; [now right|exact Hx].
           ++ intros [[[= <-]|Hin] Hx]; [now left|].
              right. apply Hiff. now split.
        -- split.
           ++ intros Hin. apply Hiff in Hin as [Hin Hx].
              split; [now right|exact Hx].
           ++ intros [[[= <-]|Hin] Hx]; [congruence|].
              apply Hiff. now split.
  - left. split; [reflexivity|now left].
Qed.


End SecureFilesFacts.

Section SecureFilesRuns.
Import JS Gateway Examples.

Local Notation serve := (get_secure root posix_join (disk [stored_file]) verifier).
Local Notation issue_one :=
  (post_signed_url root posix_join (disk [stored_file]) fixed_issuer remaining).
Local Notation issue_batch := (post_signed_urls_batch fixed_issuer).

(** The three denials on a disk that holds [a.png] only: an expired token,
    an unknown token, and a valid token for [b.png]. *)
Lemma get_secure_denials_witness :
  (status_of (serve (js "old.sig")) = Some 410%nat
   /\ streams (serve (js "old.sig")) = false)
  /\ (status_of (serve (js "forged.sig")) = Some 403%nat
      /\ streams (serve (js "forged.sig")) = false)
  /\ (status_of (serve (js "gone.sig")) = Some 404%nat
      /\ streams (serve (js "gone.sig")) = false).
Proof.
  split; [|split].
  - destruct (get_secure_denials root posix_join (disk [stored_file]) verifier
                (js "old.sig")) as (H & _ & _).
    destruct H as [Hr Hs]; [reflexivity|reflexivity|].
    rewrite Hr. split; reflexivity.
  - destruct (get_secure_denials root posix_join (disk [stored_file]) verifier
                (js "forged.sig")) as (_ & H & _).
    destruct H as [Hr Hs]; [reflexivity|reflexivity|].
    rewrite Hr. split; reflexivity.
  - destruct (get_secure_denials root posix_join (disk [stored_file]) verifier
                (js "gone.sig")) as (_ & _ & H).
    destruct (H (js "A") (js "tasks") (js "o1") (js "b.png")) as [Hr Hs];
      try reflexivity.
    rewrite Hr. split; reflexivity.
Defined.

(** A request without a body throws; a body without any field is answered
    400 whoever asks; a body without a tenantId is treated as one that names
    the caller's tenant. *)
Lemma post_signed_url_missing_fields_witness :
  issue_one (user_of "A") None = ([], Throw TypeError)
  /\ issue_one (user_of "A") (Some undefined_body)
     = ([], Normal (error_reply 400
              "Missing required fields: filename, scope, ownerId"))
  /\ issue_one (user_of "A") (Some (file_body VUndefined))
     = issue_one (user_of "A") (Some (file_body (VString (js "A")))).
Proof.
  destruct (post_signed_url_missing_fields root posix_join (disk [stored_file])
              fixed_issuer remaining (user_of "A") undefined_body)
    as [Hthrow [H400 _]].
  destruct (post_signed_url_missing_fields root posix_join (disk [stored_file])
              fixed_issuer remaining (user_of "A") (file_body VUndefined))
    as [_ [_ Hdefault]].
  split; [exact Hthrow|]. split.
  - apply (H400 (or_introl eq_refl) (user_of "A") VUndefined).
  - apply (Hdefault eq_refl).
Defined.

(** The claim as stated fails for tenantId: a request with filename, scope
    and ownerId but without tenantId is answered 200 with a signed URL. *)
Lemma post_signed_url_without_tenantId :
  b_tenantId (file_body VUndefined) = VUndefined
  /\ issue_one (user_of "A") (Some (file_body VUndefined))
     = ([Access stored_file;
         Generate {| g_tenantId := js "A"; g_scope := VString (js "tasks");
                     g_ownerId := js "o1"; g_filename := VString (js "a.png");
                     g_action := VString (js "view");
                     g_expiresInMinutes := VUndefined |}],
        Normal {| status := 200;
                  body := SignedUrlBody (js "/files/secure/eyJ0IjoxfQ.c2ln")
                            1700003600000 3600 |}).
Proof.
  vm_compute. split; reflexivity.
Qed.



End SecureFilesRuns.

Section UploadsFacts.
Import JS Gateway.

Variable cwd : jstring.
Variable path_join : list jstring -> jstring.
Variable file_exists : jstring -> bool.
Variable jwt_verify : jsval -> completion jwt_claims.
Variable find_user_tenant : jsval -> completion (option jstring).

Local Notation serve := (get_upload cwd path_join file_exists jwt_verify find_user_tenant).
Local Notation token_user := (user_of_token jwt_verify find_user_tenant).

Lemma serve_by_path_not_403 (req : legacy_request) :
  status_of (serve_by_path cwd path_join file_exists req) <> Some 403%nat.
Proof.
  unfold serve_by_path.
  destruct (decodeURIComponent (p_filename req)) as [f|e]; simpl;
    [|discriminate].
  destruct (file_exists _); simpl; discriminate.
Qed.

(** C1, as amended: on the legacy endpoint, a request that carries no
    [request.user] and either has no token query parameter or has one that
    fails JWT verification is never answered 403: the handler decodes the
    filename and, when that succeeds, checks that the file exists, streams it
    if it does and answers 404 otherwise.  A 403 is only possible when
    [request.user] is set to a user of another tenant, or when it is not set
    and the token verifies and resolves to a tenant that differs from the
    path's tenantId. *)
Theorem get_upload_fallback (req : legacy_request) :
  (req_user req = None ->
   truthy (query_token req) = false
   \/ (exists e, jwt_verify (query_token req) = Throw e) ->
   status_of (serve req) <> Some 403%nat
   /\ (forall f, decodeURIComponent (p_filename req) = Normal f ->
       serve req
       = if file_exists (path_join [cwd; js "uploads"; p_tenantId req;
                                    p_scope req; p_ownerId req; f])
         then Normal {| status := 200;
                        body := FileStream
                                  (path_join [cwd; js "uploads"; p_tenantId req;
                                              p_scope req; p_ownerId req; f])
                                  None |}
         else Normal (error_reply 404 "File not found")))
  /\ (status_of (serve req) = Some 403%nat ->
      (exists u, req_user req = Some u
                 /\ String_ (user_tenantId u) <> p_tenantId req)
      \/ (req_user req = None
          /\ truthy (query_token req) = true
          /\ exists decoded u,
               jwt_verify (query_token req) = Normal decoded
               /\ token_user (query_token req) = Normal u
               /\ String_ (user_tenantId u) <> p_tenantId req)).
Proof.
  split.
  - intros Huser Htoken.
    assert (Hgo : serve req = serve_by_path cwd path_join file_exists req).
    { unfold get_upload, try_token. rewrite Huser.
      destruct Htoken as [Hno | [e He]].
      - now rewrite Hno.
      - destruct (truthy (query_token req)); [|reflexivity].
        unfold user_of_token. rewrite He. reflexivity. }
    rewrite Hgo. split.
    + apply serve_by_path_not_403.
    + intros f Hf. unfold serve_by_path. rewrite Hf. simpl.
      destruct (file_exists _); reflexivity.
  - intros H403. unfold get_upload in H403.
    destruct (req_user req) as [u|] eqn:Huser.
    + left. exists u. split; [reflexivity|].
      intros Heq. rewrite Heq, jstr_eqb_refl in H403.
      now apply serve_by_path_not_403 in H403.
    + right. split; [reflexivity|]. unfold try_token in H403.
      destruct (truthy (query_token req)) eqn:Htruthy;
        [|now apply serve_by_path_not_403 in H403].
      split; [reflexivity|].
      destruct (token_user (query_token req)) as [u|e] eqn:Htu;
        [|now apply serve_by_path_not_403 in H403].
      destruct (jwt_verify (query_token req)) as [decoded|e] eqn:Hjwt.
      2:{ unfold user_of_token in Htu. rewrite Hjwt in Htu. discriminate. }
      exists decoded, u. split; [reflexivity|]. split; [reflexivity|].
      intros Heq. rewrite Heq, jstr_eqb_refl in H403. simpl in H403.
      rewrite Heq, jstr_eqb_refl in H403.
      now apply serve_by_path_not_403 in H403.
Qed.

End UploadsFacts.

Section UploadsRuns.
Import JS Gateway Examples.

Local Notation serve :=
  (get_upload root posix_join (disk [stored_file]) jwt no_users).

(** A request without a token and one with a malformed token are both served
    from the path. *)
Lemma get_upload_fallback_witness :
  serve (upload_request None VUndefined)
  = Normal {| status := 200; body := FileStream stored_file None |}
  /\ serve (upload_request None (VString (js "not-a-jwt")))
     = Normal {| status := 200; body := FileStream stored_file None |}.
Proof.
  split.
  - destruct (get_upload_fallback root posix_join (disk [stored_file]) jwt
                no_users (upload_request None VUndefined)) as [H _].
    destruct H as (_ & Hserve);
      [reflexivity | left; reflexivity |].
    apply (Hserve (js "a.png")). reflexivity.
  - destruct (get_upload_fallback root posix_join (disk [stored_file]) jwt
                no_users (upload_request None (VString (js "not-a-jwt"))))
      as [H _].
    destruct H as (_ & Hserve);
      [reflexivity | right; eexists; reflexivity |].
    apply (Hserve (js "a.png")). reflexivity.
Defined.

(** The claim as stated fails: a request without a token query parameter whose
    [request.user] is a user of tenant [B] is answered 403 on a path of
    tenant [A]; and a request without user and without token whose filename
    parameter is [100%.png] makes [decodeURIComponent] throw, so that the
    file-existence check is not reached. *)
Lemma get_upload_forbidden_without_token :
  query_token (upload_request (Some (user_of "B")) VUndefined) = VUndefined
  /\ serve (upload_request (Some (user_of "B")) VUndefined)
     = Normal (error_reply 403 "Forbidden: Tenant mismatch")
  /\ serve {| p_tenantId := js "A"; p_scope := js "tasks"; p_ownerId := js "o1";
              p_filename := js "100%.png"; req_user := None;
              query_token := VUndefined |}
     = Throw URIError.
Proof.
  vm_compute. repeat split.
Qed.

End UploadsRuns.

(* ===================================================================== *)
(** ** Extraction from a generated signed URL                            *)
(* ===================================================================== *)

Section GeneratedUrlFacts.
Import JS SignedUrlService.

Ltac div_lia := zify; Z.to_euclidean_division_equations; lia.

Lemma all_below_spec (n : nat) (p : N -> bool) :
  all_below n p = true -> forall v, v < N.of_nat n -> p v = true.
Proof.
  induction n as [|k IH]; simpl; intros H v Hv; [lia|].
  apply andb_true_iff in H as [Hk Hrest].
  destruct (N.eq_dec v (N.of_nat k)) as [->|Hne]; [exact Hk|].
  apply IH; [exact Hrest|lia].
Qed.

Lemma replace_all_std (s : jstring) :
  replace_all 95 47 (replace_all 45 43 s) = map std_char s.
Proof. unfold replace_all. rewrite map_map. reflexivity. Qed.

Lemma b64url_char_value (v : N) :
  v < 64 -> b64_value (std_char (b64url_char v)) = Some v.
Proof.
  intros Hv.
  pose proof (all_below_spec 64
                (fun v => match b64_value (std_char (b64url_char v)) with
                          | Some w => w =? v
                          | None => false
                          end)) as H.
  specialize (H ltac:(vm_compute; reflexivity) v Hv). cbv beta in H.
  destruct (b64_value _) as [w|]; [|discriminate].
  apply N.eqb_eq in H. now subst.
Qed.

Lemma b64url_char_alphabet (v : N) : is_b64url (b64url_char v) = true.
Proof.
  unfold b64url_char, is_b64url.
  destruct (N.ltb_spec v 26); [|destruct (N.ltb_spec v 52);
    [|destruct (N.ltb_spec v 62); [|destruct (N.eqb_spec v 62)]]].
  - replace ((65 <=? 65 + v) && (65 + v <=? 90)) with true; [reflexivity|].
    symmetry. apply andb_true_iff. split; apply N.leb_le; lia.
  - replace ((97 <=? 71 + v) && (71 + v <=? 122)) with true;
      [now rewrite orb_true_r|].
    symmetry. apply andb_true_iff. split; apply N.leb_le; lia.
  - replace ((48 <=? v - 4) && (v - 4 <=? 57)) with true;
      [now rewrite !orb_true_r|].
    symmetry. apply andb_true_iff. split; apply N.leb_le; lia.
  - now rewrite !orb_true_r.
  - now rewrite !orb_true_r.
Qed.

(** Induction over a list three elements at a time. *)
Lemma list_ind3 (A : Type) (P : list A -> Prop) :
  P [] -> (forall a, P [a]) -> (forall a b, P [a; b]) ->
  (forall a b c l, P l -> P (a :: b :: c :: l)) ->
  forall l, P l.
Proof.
  intros H0 H1 H2 H3.
  fix IH 1. intros [|a [|b [|c l]]]; [apply H0|apply H1|apply H2|].
  apply H3, IH.
Qed.

Lemma b64url_encode_alphabet (bytes : list N) :
  forallb is_b64url (b64url_encode bytes) = true.
Proof.
  induction bytes as [|a|a b|a b c rest IH] using list_ind3; simpl;
    rewrite ?b64url_char_alphabet; try reflexivity.
  exact IH.
Qed.

Lemma b64url_encode_length (bytes : list N) :
  N.of_nat (length (b64url_encode bytes)) mod 4 <> 1.
Proof.
  induction bytes as [|a|a b|a b c rest IH] using list_ind3;
    try (vm_compute; discriminate).
  change (b64url_encode (a :: b :: c :: rest))
    with (b64url_char (a / 4) :: b64url_char ((a mod 4) * 16 + b / 16)
          :: b64url_char ((b mod 16) * 4 + c / 64) :: b64url_char (c mod 64)
          :: b64url_encode rest).
  simpl length.
  replace (N.of_nat (S (S (S (S (length (b64url_encode rest)))))))
    with (N.of_nat (length (b64url_encode rest)) + 1 * 4) by lia.
  rewrite N.Div0.mod_add. exact IH.
Qed.

(** The sextets of the bytes decode to the bytes. *)
Lemma b64_values_encode (bytes : list N) :
  Forall (fun b => b < 256) bytes ->
  exists vs, b64_values (map std_char (b64url_encode bytes)) = Some vs
             /\ b64_decode_values vs = bytes.
Proof.
  induction bytes as [|a|a b|a b c rest IH] using list_ind3; intros Hb.
  - exists []. split; reflexivity.
  - inversion_clear Hb as [|? ? Ha _].
    exists [a / 4; (a mod 4) * 16]. split.
    + simpl. rewrite !b64url_char_value by div_lia. reflexivity.
    + simpl. f_equal. div_lia.
  - inversion_clear Hb as [|? ? Ha Hb']. inversion_clear Hb' as [|? ? Hb _].
    exists [a / 4; (a mod 4) * 16 + b / 16; (b mod 16) * 4]. split.
    + simpl. rewrite !b64url_char_value by div_lia. reflexivity.
    + simpl. f_equal; [div_lia|]. f_equal. div_lia.
  - inversion_clear Hb as [|? ? Ha Hb']. inversion_clear Hb' as [|? ? Hb Hc'].
    inversion_clear Hc' as [|? ? Hc Hrest].
    destruct (IH Hrest) as (vs & Hvs & Hdec).
    exists (a / 4 :: (a mod 4) * 16 + b / 16 :: (b mod 16) * 4 + c / 64
            :: c mod 64 :: vs). split.
    + simpl. rewrite !b64url_char_value by div_lia.
      simpl in Hvs. rewrite Hvs. reflexivity.
    + simpl. rewrite Hdec. f_equal; [div_lia|]. f_equal; [div_lia|].
      f_equal. div_lia.
Qed.

Ltac bool_to_prop H :=
  repeat first
    [ rewrite orb_true_iff in H | rewrite andb_true_iff in H
    | rewrite N.leb_le in H | rewrite N.eqb_eq in H ].

Lemma b64url_plain (c : N) :
  is_b64url c = true ->
  is_ascii_whitespace (std_char c) = false /\ std_char c <> 61
  /\ c <> 46 /\ c <> 47 /\ c <> 63.
Proof.
  unfold is_b64url, std_char, is_ascii_whitespace. intros H. bool_to_prop H.
  destruct (N.eqb_spec c 45) as [->|H45]; simpl.
  - repeat split; lia.
  - destruct (N.eqb_spec c 95) as [->|H95]; simpl.
    + repeat split; lia.
    + repeat split; try lia.
      rewrite !orb_false_iff, !N.eqb_neq. lia.
Qed.

Lemma filter_plain (s : jstring) :
  forallb is_b64url s = true ->
  filter (fun c => negb (is_ascii_whitespace c)) (map std_char s) = map std_char s.
Proof.
  induction s as [|c s IH]; simpl; intros H; [reflexivity|].
  apply andb_true_iff in H as [Hc Hs].
  destruct (b64url_plain c Hc) as (Hws & _). rewrite Hws. simpl.
  now rewrite IH.
Qed.

Lemma strip_padding_plain (s : jstring) :
  ~ In 61 s -> strip_padding s = s.
Proof.
  intros Hno. unfold strip_padding.
  destruct (_ =? 0); [|reflexivity].
  destruct (rev s) as [|x r] eqn:Hrev; [reflexivity|].
  assert (Hx : x <> 61).
  { intros ->. apply Hno. apply in_rev. rewrite Hrev. now left. }
  destruct x as [|p]; [reflexivity|].
  do 6 (destruct p as [p|p|]; try reflexivity). contradiction.
Qed.

Lemma std_no_padding (s : jstring) :
  forallb is_b64url s = true -> ~ In 61 (map std_char s).
Proof.
  induction s as [|c s IH]; simpl; intros H; [tauto|].
  apply andb_true_iff in H as [Hc Hs].
  destruct (b64url_plain c Hc) as (_ & H61 & _).
  intros [Heq | Hin]; [contradiction|now apply IH].
Qed.

(** [atob] undoes the base64url encoding of bytes, once [-] and [_] are
    replaced. *)
Lemma atob_b64url_encode (bytes : list N) :
  Forall (fun b => b < 256) bytes ->
  atob (replace_all 95 47 (replace_all 45 43 (b64url_encode bytes))) = Normal bytes.
Proof.
  intros Hb. rewrite replace_all_std. unfold atob.
  pose proof (b64url_encode_alphabet bytes) as Halpha.
  rewrite (filter_plain _ Halpha).
  rewrite (strip_padding_plain _ (std_no_padding _ Halpha)).
  rewrite length_map.
  destruct (N.eqb_spec (N.of_nat (length (b64url_encode bytes)) mod 4) 1) as [E|_];
    [now apply b64url_encode_length in E|].
  destruct (b64_values_encode bytes Hb) as (vs & -> & ->). reflexivity.
Qed.

(** *** Splitting *)

Lemma split_nonempty (sep : N) (s : jstring) : split sep s <> [].
Proof.
  destruct s as [|c s]; simpl; [discriminate|].
  destruct (c =? sep); [discriminate|].
  destruct (split sep s); discriminate.
Qed.

Lemma split_no_sep (sep : N) (s : jstring) : ~ In sep s -> split sep s = [s].
Proof.
  induction s as [|c s IH]; simpl; intros H; [reflexivity|].
  destruct (N.eqb_spec c sep) as [->|Hne]; [tauto|].
  rewrite IH by tauto. reflexivity.
Qed.

Lemma split_app_sep (sep : N) (a b : jstring) :
  split sep (a ++ sep :: b) = split sep a ++ split sep b.
Proof.
  induction a as [|c a IH]; simpl.
  - now rewrite N.eqb_refl.
  - destruct (c =? sep); [now rewrite IH|].
    rewrite IH. pose proof (split_nonempty sep a) as Hne.
    destruct (split sep a); [contradiction|reflexivity].
Qed.

Lemma includes_prefix (pat rest : jstring) : includes (pat ++ rest) pat = true.
Proof.
  assert (H : startsWith pat (pat ++ rest) = true).
  { induction pat as [|c pat IH]; simpl; [reflexivity|].
    now rewrite N.eqb_refl, IH. }
  destruct (pat ++ rest); simpl in *; now rewrite H.
Qed.

Lemma includes_app (pre s pat : jstring) :
  includes s pat = true -> includes (pre ++ s) pat = true.
Proof.
  intros H. induction pre as [|c pre IH]; simpl; [exact H|].
  rewrite IH. apply orb_true_r.
Qed.

(** *** The JSON text of a string and of a number parses back *)

Lemma hex_digit_hex_char (v : N) : v < 16 -> hex_digit (hex_char v) = Some v.
Proof.
  intros Hv.
  pose proof (all_below_spec 16
                (fun v => match hex_digit (hex_char v) with
                          | Some w => w =? v
                          | None => false
                          end)) as H.
  specialize (H ltac:(vm_compute; reflexivity) v Hv). cbv beta in H.
  destruct (hex_digit _) as [w|]; [|discriminate].
  apply N.eqb_eq in H. now subst.
Qed.

Lemma parse_unicode_escape (c : N) (tail : jstring) :
  c < 65536 ->
  parse_string_body (unicode_escape c ++ tail)
  = match parse_string_body tail with
    | Some (body, after) => Some (c :: body, after)
    | None => None
    end.
Proof.
  intros Hc. unfold unicode_escape.
  cbn [app parse_string_body N.eqb Pos.eqb].
  rewrite !hex_digit_hex_char by div_lia.
  replace (4096 * (c / 4096) + 256 * ((c / 256) mod 16)
           + 16 * ((c / 16) mod 16) + c mod 16) with c by div_lia.
  reflexivity.
Qed.

Lemma parse_quote_code_unit (c : N) (tail : jstring) :
  c < 65536 ->
  parse_string_body (quote_code_unit c ++ tail)
  = match parse_string_body tail with
    | Some (body, after) => Some (c :: body, after)
    | None => None
    end.
Proof.
  intros Hc. unfold quote_code_unit.
  destruct (N.eqb_spec c 8) as [->|H8]; [reflexivity|].
  destruct (N.eqb_spec c 9) as [->|H9]; [reflexivity|].
  destruct (N.eqb_spec c 10) as [->|H10]; [reflexivity|].
  destruct (N.eqb_spec c 12) as [->|H12]; [reflexivity|].
  destruct (N.eqb_spec c 13) as [->|H13]; [reflexivity|].
  destruct (N.eqb_spec c 34) as [->|H34]; [reflexivity|].
  destruct (N.eqb_spec c 92) as [->|H92]; [reflexivity|].
  destruct (N.ltb_spec c 32) as [Hlow|Hhigh].
  - now apply parse_unicode_escape.
  - cbn [app parse_string_body].
    rewrite (proj2 (N.eqb_neq c 34) H34), (proj2 (N.eqb_neq c 92) H92).
    rewrite (proj2 (N.ltb_ge c 32) Hhigh). reflexivity.
Qed.

Lemma quote_chars_ascii_step (c : N) (s : jstring) :
  c < 128 -> quote_chars (c :: s) = quote_code_unit c ++ quote_chars s.
Proof.
  intros Hc. cbn [quote_chars]. unfold is_high_surrogate, is_low_surrogate.
  rewrite (proj2 (N.leb_gt 55296 c)) by lia.
  rewrite (proj2 (N.leb_gt 56320 c)) by lia. reflexivity.
Qed.

Lemma parse_quoted (s rest : jstring) :
  ascii_only s ->
  parse_string_body (quote_chars s ++ 34 :: rest) = Some (s, rest).
Proof.
  induction 1 as [|c s Hc _ IH]; [reflexivity|].
  rewrite (quote_chars_ascii_step c s Hc), <- app_assoc.
  rewrite parse_quote_code_unit by lia. now rewrite IH.
Qed.

Lemma quote_code_unit_ascii (c : N) : c < 128 -> ascii_only (quote_code_unit c).
Proof.
  intros Hc. unfold quote_code_unit, unicode_escape, hex_char, ascii_only.
  repeat match goal with
         | |- context [if ?b then _ else _] => destruct b eqn:?
         end;
    repeat constructor; try lia;
    repeat match goal with
           | H : (_ <? _) = true |- _ => apply N.ltb_lt in H
           | H : (_ <? _) = false |- _ => apply N.ltb_ge in H
           end; div_lia.
Qed.

Lemma quote_chars_ascii (s : jstring) : ascii_only s -> ascii_only (quote_chars s).
Proof.
  induction 1 as [|c s Hc _ IH]; [constructor|].
  rewrite (quote_chars_ascii_step c s Hc).
  apply Forall_app. split; [now apply quote_code_unit_ascii|exact IH].
Qed.

Lemma nzhead_not_zero_led (d d' : Decimal.uint) : Decimal.nzhead d <> Decimal.D0 d'.
Proof. induction d; simpl; try discriminate. exact IHd. Qed.

Lemma to_uint_normal (n : N) : Decimal.unorm (N.to_uint n) = N.to_uint n.
Proof.
  rewrite <- (DecimalN.Unsigned.to_of (N.to_uint n)).
  now rewrite DecimalN.Unsigned.of_to.
Qed.

(** A numeral written by [N.to_uint] is [0] or starts with a digit that is
    not zero. *)
Lemma to_uint_shape (n : N) :
  N.to_uint n = Decimal.D0 Decimal.Nil
  \/ (N.to_uint n <> Decimal.Nil /\ forall d', N.to_uint n <> Decimal.D0 d').
Proof.
  pose proof (to_uint_normal n) as Hn. unfold Decimal.unorm in Hn.
  destruct (Decimal.nzhead (N.to_uint n)) eqn:Hz;
    try (right; rewrite <- Hn; split; [discriminate|intros d'; discriminate]).
  - left. now rewrite <- Hn.
  - exfalso. exact (nzhead_not_zero_led _ _ Hz).
Qed.

(** The numeral [C d] is written as the digit of [C] followed by [d]. *)
Ltac expose_digit d :=
  match goal with
  | |- context [digit_chars (?C d)] =>
      let x := eval cbv in (hd 0 (digit_chars (C Decimal.Nil))) in
      change (digit_chars (C d)) with (x :: digit_chars d)
  end.

Lemma span_digit_chars (d : Decimal.uint) (c : N) (rest : jstring) :
  is_digit c = false ->
  span_digits (digit_chars d ++ c :: rest) = (digit_chars d, c :: rest).
Proof.
  intros Hc.
  induction d; [cbn; now rewrite Hc | ..];
    expose_digit d; cbn [app span_digits];
    rewrite IHd; reflexivity.
Qed.

Lemma digit_chars_ascii (d : Decimal.uint) : ascii_only (digit_chars d).
Proof.
  induction d; [constructor | ..]; expose_digit d; constructor;
    try exact IHd; lia.
Qed.

Lemma decimal_digit_chars (n : N) :
  decimal n = digit_chars (N.to_uint n) /\ N.to_uint n <> Decimal.Nil.
Proof.
  unfold decimal, digit_chars, NilZero.string_of_uint.
  destruct (to_uint_shape n) as [H0 | [Hnn _]].
  - rewrite H0. split; [reflexivity|discriminate].
  - destruct (N.to_uint n); try (split; [reflexivity|discriminate]).
    contradiction.
Qed.

Lemma decimal_ascii (n : N) : ascii_only (decimal n).
Proof.
  destruct (decimal_digit_chars n) as [-> _]. apply digit_chars_ascii.
Qed.

(** The decimal text of a number, followed by [,] or [}], parses as that
    number. *)
Lemma parse_value_decimal (fuel : nat) (n c : N) (rest : jstring) :
  c = 44 \/ c = 125 ->
  parse_value (S fuel) (decimal n ++ c :: rest)
  = Some (JNumber (decimal n), c :: rest).
Proof.
  intros Hc.
  assert (Hnd : is_digit c = false) by (destruct Hc as [-> | ->]; reflexivity).
  destruct (decimal_digit_chars n) as [-> _].
  destruct (to_uint_shape n) as [H0 | [Hnn Hnz]].
  - rewrite H0. destruct Hc as [-> | ->]; reflexivity.
  - destruct (N.to_uint n) as [|d|d|d|d|d|d|d|d|d|d];
      [contradiction | exfalso; exact (Hnz d eq_refl) | ..];
      expose_digit d; cbn -[span_digits digit_chars];
      rewrite (span_digit_chars d c rest Hnd);
      destruct Hc as [-> | ->]; cbn; rewrite ?app_nil_r; reflexivity.
Qed.

Lemma parse_value_quoted (fuel : nat) (v tail : jstring) :
  ascii_only v ->
  parse_value (S fuel) (34 :: quote_chars v ++ 34 :: tail) = Some (JString v, tail).
Proof.
  intros Hv. cbn -[parse_string_body]. now rewrite parse_quoted.
Qed.

Lemma parse_value_object (fuel : nat) (text : jstring) :
  parse_value (S fuel) (123 :: 34 :: text)
  = match parse_members fuel (34 :: text) with
    | Some (ms, r) => Some (JObject ms, r)
    | None => None
    end.
Proof. reflexivity. Qed.

(** A member whose value is a string, followed by a comma. *)
Lemma parse_string_member (fuel : nat) (key v rest : jstring) :
  ascii_only key -> ascii_only v ->
  parse_members (S (S fuel))
    (34 :: quote_chars key ++ 34 :: 58 :: 34 :: quote_chars v ++ 34 :: 44 :: rest)
  = match parse_members (S fuel) rest with
    | Some (ms, r) => Some ((key, JString v) :: ms, r)
    | None => None
    end.
Proof.
  intros Hk Hv. remember (S fuel) as f eqn:Hf.
  cbn [parse_members next_is skip_ws is_json_ws N.eqb Pos.eqb orb].
  rewrite (parse_quoted key _ Hk). cbn [next_is skip_ws is_json_ws N.eqb Pos.eqb orb].
  rewrite Hf at 1. rewrite (parse_value_quoted fuel v _ Hv).
  cbn [next_is skip_ws is_json_ws N.eqb Pos.eqb orb]. reflexivity.
Qed.

(** A member whose value is a number, followed by a comma. *)
Lemma parse_number_member (fuel : nat) (key rest : jstring) (n : N) :
  ascii_only key ->
  parse_members (S (S fuel))
    (34 :: quote_chars key ++ 34 :: 58 :: decimal n ++ 44 :: rest)
  = match parse_members (S fuel) rest with
    | Some (ms, r) => Some ((key, JNumber (decimal n)) :: ms, r)
    | None => None
    end.
Proof.
  intros Hk. remember (S fuel) as f eqn:Hf.
  cbn [parse_members next_is skip_ws is_json_ws N.eqb Pos.eqb orb].
  rewrite (parse_quoted key _ Hk). cbn [next_is skip_ws is_json_ws N.eqb Pos.eqb orb].
  rewrite Hf at 1. rewrite (parse_value_decimal fuel n 44 rest (or_introl eq_refl)).
  cbn [next_is skip_ws is_json_ws N.eqb Pos.eqb orb]. reflexivity.
Qed.

(** The last member, a number, followed by the closing brace. *)
Lemma parse_last_number_member (fuel : nat) (key rest : jstring) (n : N) :
  ascii_only key ->
  parse_members (S (S fuel))
    (34 :: quote_chars key ++ 34 :: 58 :: decimal n ++ 125 :: rest)
  = Some ([(key, JNumber (decimal n))], rest).
Proof.
  intros Hk.
  cbn [parse_members next_is skip_ws is_json_ws N.eqb Pos.eqb orb].
  rewrite (parse_quoted key _ Hk). cbn [next_is skip_ws is_json_ws N.eqb Pos.eqb orb].
  rewrite (parse_value_decimal fuel n 125 rest (or_intror eq_refl)).
  cbn [next_is skip_ws is_json_ws N.eqb Pos.eqb orb]. reflexivity.
Qed.

Lemma js_ascii (s : string) :
  forallb (fun c => c <? 128) (js s) = true -> ascii_only (js s).
Proof.
  intros H. apply Forall_forall. intros c Hc.
  rewrite forallb_forall in H. apply N.ltb_lt. now apply H.
Qed.

Lemma payload_json_shape (g : grant) :
  payload_json g
  = 123 :: 34 :: quote_chars (js "tenantId") ++ 34 :: 58
    :: 34 :: quote_chars (tenantId g) ++ 34 :: 44
    :: 34 :: quote_chars (js "scope") ++ 34 :: 58
    :: 34 :: quote_chars (scope g) ++ 34 :: 44
    :: 34 :: quote_chars (js "ownerId") ++ 34 :: 58
    :: 34 :: quote_chars (ownerId g) ++ 34 :: 44
    :: 34 :: quote_chars (js "filename") ++ 34 :: 58
    :: 34 :: quote_chars (filename g) ++ 34 :: 44
    :: 34 :: quote_chars (js "action") ++ 34 :: 58
    :: 34 :: quote_chars (action g) ++ 34 :: 44
    :: 34 :: quote_chars (js "issuedAt") ++ 34 :: 58
    :: decimal (issuedAt g) ++ 44
    :: 34 :: quote_chars (js "expiresAt") ++ 34 :: 58
    :: decimal (expiresAt g) ++ [125].
Proof.
  unfold payload_json, quote. rewrite <- !app_assoc. reflexivity.
Qed.

Lemma parse_payload_json (g : grant) (fuel : nat) :
  ascii_grant g ->
  parse_value (10 + fuel) (payload_json g) = Some (grant_object g, []).
Proof.
  intros (Ht & Hs & Ho & Hf & Ha).
  rewrite payload_json_shape. cbn [Nat.add].
  rewrite parse_value_object.
  rewrite !parse_string_member by (assumption || (apply js_ascii; reflexivity)).
  rewrite parse_number_member by (apply js_ascii; reflexivity).
  rewrite parse_last_number_member by (apply js_ascii; reflexivity).
  reflexivity.
Qed.

Lemma JSON_parse_payload_json (g : grant) :
  ascii_grant g -> JSON_parse (payload_json g) = Normal (grant_object g).
Proof.
  intros Hg. unfold JSON_parse.
  assert (Hlen : exists k, S (length (payload_json g)) = (10 + k)%nat).
  { exists (S (length (payload_json g)) - 10)%nat.
    rewrite payload_json_shape.
    repeat (cbn [length]; rewrite ?length_app). lia. }
  destruct Hlen as [k ->]. now rewrite parse_payload_json.
Qed.

Lemma utf8_encode_ascii (s : jstring) : ascii_only s -> utf8_encode s = s.
Proof.
  induction 1 as [|c s Hc _ IH]; [reflexivity|].
  cbn [utf8_encode]. unfold is_high_surrogate, is_low_surrogate, utf8_of_code_point.
  rewrite (proj2 (N.leb_gt 55296 c)) by lia.
  rewrite (proj2 (N.leb_gt 56320 c)) by lia.
  rewrite (proj2 (N.ltb_lt c 128) Hc). cbn. now rewrite IH.
Qed.

Lemma payload_json_ascii (g : grant) : ascii_grant g -> ascii_only (payload_json g).
Proof.
  intros (Ht & Hs & Ho & Hf & Ha). rewrite payload_json_shape. unfold ascii_only.
  repeat first
    [ apply Forall_cons; [lia|]
    | apply Forall_app; split;
      [ first [ apply quote_chars_ascii; first [assumption | apply js_ascii; reflexivity]
              | apply decimal_ascii ] |]
    | apply Forall_nil ].
Qed.

Lemma ascii_bytes (s : jstring) : ascii_only s -> Forall (fun b => b < 256) s.
Proof. apply Forall_impl. intros c Hc. lia. Qed.

(** The payload segment of the token decodes to the JSON text of the grant,
    which parses to the grant. *)
Lemma decode_encoded_payload (g : grant) :
  ascii_grant g ->
  Converter.decode_payload (encode_payload g)
  = Normal (Some {| Converter.filename := Some (JString (filename g));
                    Converter.scope := Some (JString (scope g));
                    Converter.ownerId := Some (JString (ownerId g));
                    Converter.tenantId := Some (JString (tenantId g)) |}).
Proof.
  intros Hg. unfold Converter.decode_payload, encode_payload.
  rewrite (utf8_encode_ascii _ (payload_json_ascii g Hg)).
  rewrite (atob_b64url_encode _ (ascii_bytes _ (payload_json_ascii g Hg))).
  cbn [bind]. rewrite (JSON_parse_payload_json g Hg). reflexivity.
Qed.

Lemma b64url_encode_nonempty (bytes : list N) :
  bytes <> [] -> b64url_encode bytes <> [].
Proof.
  destruct bytes as [|a [|b [|c rest]]]; intros H; [contradiction|..];
    discriminate.
Qed.

Lemma not_in_alphabet (c : N) (s : jstring) :
  forallb is_b64url s = true -> is_b64url c = false -> ~ In c s.
Proof.
  intros Hs Hc Hin. rewrite forallb_forall in Hs. apply Hs in Hin. congruence.
Qed.

Lemma indexOf_none_app (x : jstring) (a b : list jstring) :
  indexOf x a = None -> indexOf x b = None -> indexOf x (a ++ b) = None.
Proof.
  intros Ha Hb. induction a as [|p a IH]; simpl in *; [exact Hb|].
  destruct (jstr_eqb p x); [discriminate|].
  destruct (indexOf x a); [discriminate|]. now rewrite IH.
Qed.

(** A URL that ends in [/files/secure/{payload}.{signature}], both segments
    in the base64url alphabet, after a base without a query and without a
    segment [secure]: the extraction decodes the payload segment, whatever
    the signature is. *)
Lemma extract_from_signed_url (base payload signature : jstring) :
  ~ In 63 base ->
  indexOf (js "secure") (split 47 base) = None ->
  forallb is_b64url payload = true ->
  forallb is_b64url signature = true ->
  payload <> [] ->
  Converter.extractFileMetadataFromUrl
    (base ++ js "/files/secure/" ++ payload ++ js "." ++ signature)
  = try_catch (Converter.decode_payload payload) (fun _ => Normal None).
Proof.
  intros Hbase Hseg Hp Hs Hne.
  set (token := payload ++ js "." ++ signature).
  set (url := base ++ js "/files/secure/" ++ token).
  assert (Htok47 : ~ In 47 token).
  { unfold token. rewrite !in_app_iff. intros [H | [H | H]].
    - now apply (not_in_alphabet 47 payload Hp).
    - simpl in H. destruct H as [H|[]]. discriminate.
    - now apply (not_in_alphabet 47 signature Hs). }
  assert (Hquery : split 63 url = [url]).
  { apply split_no_sep. unfold url, token. rewrite !in_app_iff.
    intros [H | [H | [H | [H | H]]]].
    - contradiction.
    - simpl in H. repeat (destruct H as [H|H]; [discriminate|]). exact H.
    - now apply (not_in_alphabet 63 payload Hp).
    - simpl in H. destruct H as [H|[]]. discriminate.
    - now apply (not_in_alphabet 63 signature Hs). }
  assert (Hparts : split 47 url
                   = (split 47 base ++ [js "files"]) ++ js "secure" :: [token]).
  { unfold url.
    change (js "/files/secure/" ++ token)
      with (47 :: js "files" ++ 47 :: js "secure" ++ 47 :: token).
    rewrite !split_app_sep. rewrite (split_no_sep 47 token Htok47).
    rewrite <- app_assoc. reflexivity. }
  assert (Hidx : indexOf (js "secure") (split 47 url)
                 = Some (length (split 47 base ++ [js "files"]))).
  { rewrite Hparts. apply indexOf_first.
    apply indexOf_none_app; [exact Hseg|reflexivity]. }
  assert (Hdot : split 46 token = [payload; signature]).
  { unfold token. change (js "." ++ signature) with (46 :: signature).
    rewrite split_app_sep.
    rewrite (split_no_sep 46 payload), (split_no_sep 46 signature);
      [reflexivity | |]; apply not_in_alphabet; auto. }
  unfold Converter.extractFileMetadataFromUrl. rewrite Hquery. cbn [hd].
  unfold Converter.signed_branch.
  replace (includes url (js "/files/secure/")) with true
    by (symmetry; apply includes_app, includes_prefix).
  rewrite Hidx. rewrite Hparts.
  set (pre := split 47 base ++ [js "files"]).
  replace (Nat.ltb (length pre + 1) (length (pre ++ [js "secure"; token]))) with true
    by (symmetry; apply Nat.ltb_lt; rewrite length_app; simpl; lia).
  replace (skipn (length pre + 1) (pre ++ [js "secure"; token])) with [token].
  2:{ rewrite skipn_app. replace (length pre + 1 - length pre)%nat with 1%nat by lia.
      rewrite skipn_all2 by lia. reflexivity. }
  cbn [join]. rewrite Hdot. cbn [hd].
  destruct payload as [|c p]; [contradiction|].
  destruct (Converter.decode_payload (c :: p)); reflexivity.
Qed.

(** For a grant whose text fields are ASCII, the extraction applied to the
    generated URL, behind any base address, returns the four fields of the
    grant, whatever the signature function, the clock and the expiry. *)
Lemma extract_generated_url_ascii
  (sign : jstring -> list N) (now defaultMinutes : N)
  (t s o f : jstring) (act : option jstring) (minutes : option Z)
  (base url : jstring) (expires : N) :
  ascii_only t -> ascii_only s -> ascii_only o -> ascii_only f ->
  (forall a, act = Some a -> ascii_only a) ->
  ~ In 63 base ->
  indexOf (js "secure") (split 47 base) = None ->
  generateSignedUrl sign now defaultMinutes t s o f act minutes = Some (url, expires) ->
  Converter.extractFileMetadataFromUrl (base ++ url)
  = Normal (Some {| Converter.filename := Some (JString f);
                    Converter.scope := Some (JString s);
                    Converter.ownerId := Some (JString o);
                    Converter.tenantId := Some (JString t) |}).
Proof.
  intros Ht Hs Ho Hf Hact Hbase Hseg Hgen.
  unfold generateSignedUrl in Hgen.
  destruct t as [|t0 t']; [discriminate|].
  destruct s as [|s0 s']; [discriminate|].
  destruct o as [|o0 o']; [discriminate|].
  destruct f as [|f0 f']; [discriminate|].
  destruct (_ <=? 0)%Z; [discriminate|].
  injection Hgen as <- _. unfold encode. cbv zeta.
  match goal with
  | |- context [encode_payload ?g0] => set (g := g0)
  end.
  assert (Hg : ascii_grant g).
  { repeat split; try assumption. unfold g. cbn [action].
    destruct act as [a|]; [now apply Hact|apply js_ascii; reflexivity]. }
  match goal with
  | |- _ = ?rhs =>
      change (Converter.extractFileMetadataFromUrl
                (base ++ js "/files/secure/" ++ encode_payload g ++ js "."
                 ++ b64url_encode (sign (encode_payload g))) = rhs)
  end.
  rewrite extract_from_signed_url; try assumption.
  - now rewrite (decode_encoded_payload g Hg).
  - apply b64url_encode_alphabet.
  - apply b64url_encode_alphabet.
  - apply b64url_encode_nonempty.
    rewrite (utf8_encode_ascii _ (payload_json_ascii g Hg)).
    rewrite payload_json_shape. discriminate.
Qed.


(** *** A signed URL carries no token marker *)

Lemma startsWith_app_foreign (pat a b : jstring) (c : N) :
  ~ In c pat -> startsWith pat (a ++ c :: b) = startsWith pat a.
Proof.
  revert a. induction pat as [|x pat IH]; intros a Hc; [reflexivity|].
  destruct a as [|y a]; cbn [app startsWith].
  - destruct (N.eqb_spec x c) as [->|Hne]; [|reflexivity].
    exfalso. apply Hc. now left.
  - rewrite IH; [reflexivity|]. intros Hin. apply Hc. now right.
Qed.

Lemma includes_no_first (q : N) (p s : jstring) :
  ~ In q s -> includes s (q :: p) = false.
Proof.
  induction s as [|c s IH]; intros Hq; [reflexivity|].
  cbn [includes startsWith].
  destruct (N.eqb_spec q c) as [->|Hne]; [exfalso; apply Hq; now left|].
  cbn [andb orb]. apply IH. intros Hin. apply Hq. now right.
Qed.

Lemma includes_app_foreign (pat a b : jstring) (c : N) :
  pat <> [] -> ~ In c pat ->
  includes (a ++ c :: b) pat = includes a pat || includes (c :: b) pat.
Proof.
  intros Hne Hc. induction a as [|y a IH].
  - destruct pat as [|x pat]; [contradiction|]. reflexivity.
  - change (includes ((y :: a) ++ c :: b) pat)
      with (startsWith pat ((y :: a) ++ c :: b) || includes (a ++ c :: b) pat).
    change (includes (y :: a) pat)
      with (startsWith pat (y :: a) || includes a pat).
    rewrite startsWith_app_foreign by assumption.
    rewrite IH. now rewrite orb_assoc.
Qed.

(** A URL [base/files/secure/{payload}.{signature}] is a legacy URL only if
    its base is one. *)
Lemma signed_url_not_legacy (base payload signature : jstring) :
  Converter.isOldTokenUrl (Some base) = false ->
  forallb is_b64url payload = true ->
  forallb is_b64url signature = true ->
  Converter.isOldTokenUrl
    (Some (base ++ js "/files/secure/" ++ payload ++ js "." ++ signature))
  = false.
Proof.
  intros Hbase Hp Hs.
  set (rest := js "files/secure/" ++ payload ++ js "." ++ signature).
  change (js "/files/secure/" ++ payload ++ js "." ++ signature)
    with (47 :: rest).
  assert (Hfree : forall q, is_b64url q = false -> q <> 47 -> q <> 46 ->
                  ~ In q (js "files/secure/") -> ~ In q (47 :: rest)).
  { intros q Hq H47 H46 Hlit [Heq | Hin]; [congruence|].
    unfold rest in Hin. rewrite !in_app_iff in Hin.
    destruct Hin as [H | [H | [H | H]]].
    - contradiction.
    - now apply (not_in_alphabet q payload Hp).
    - cbn in H. destruct H as [H|[]]. congruence.
    - now apply (not_in_alphabet q signature Hs). }
  assert (Hmarker : forall q, is_b64url q = false -> q <> 47 -> q <> 46 ->
                    ~ In q (js "files/secure/") -> ~ In 47 (q :: js "token=") ->
                    includes base (q :: js "token=") = false ->
                    includes (base ++ 47 :: rest) (q :: js "token=") = false).
  { intros q Hq H47 H46 Hlit Hpat Hb.
    rewrite includes_app_foreign by (discriminate || assumption).
    rewrite Hb. apply includes_no_first. now apply Hfree. }
  assert (Hin63 : includes base (js "?token=") = false
                  /\ includes base (js "&token=") = false).
  { destruct base as [|c base']; [split; reflexivity|].
    cbn [Converter.isOldTokenUrl] in Hbase.
    now apply orb_false_iff in Hbase. }
  destruct Hin63 as [H63 H38].
  assert (Hold : forall u, includes u (js "?token=") = false ->
                 includes u (js "&token=") = false ->
                 Converter.isOldTokenUrl (Some u) = false).
  { intros [|c u] Hq Ha; [reflexivity|].
    cbn [Converter.isOldTokenUrl]. now rewrite Hq, Ha. }
  apply Hold.
  - apply (Hmarker 63); try reflexivity; try discriminate; try assumption;
      cbn; intuition discriminate.
  - apply (Hmarker 38); try reflexivity; try discriminate; try assumption;
      cbn; intuition discriminate.
Qed.

End GeneratedUrlFacts.

Section GeneratedUrlRuns.
Import JS.

(** C7: the code at a grant whose filename is not ASCII.  The URL generated
    for the file [α.png] (U+03B1, written [CE B1] in the payload) is read
    back with the filename [Î±.png] (U+00CE U+00B1): [atob] gives one code
    unit per byte and nothing decodes the UTF-8; the other three fields,
    which are ASCII, come back as they were. *)
Theorem extract_generated_url_greek_filename :
  exists url expiresAt,
    SignedUrlService.generateSignedUrl Examples.mac 1700000000000 60
      (js "t1") (js "tasks") (js "o1") (945 :: js ".png") None None
    = Some (url, expiresAt)
    /\ Converter.extractFileMetadataFromUrl url
       = Normal (Some {| Converter.filename := Some (JString (206 :: 177 :: js ".png"));
                         Converter.scope := Some (JString (js "tasks"));
                         Converter.ownerId := Some (JString (js "o1"));
                         Converter.tenantId := Some (JString (js "t1")) |})
    /\ 206 :: 177 :: js ".png" <> 945 :: js ".png".
Proof.
  eexists. eexists. split; [vm_compute; reflexivity|].
  split; [vm_compute; reflexivity|]. discriminate.
Qed.

End GeneratedUrlRuns.

(* ===================================================================== *)
(** ** A second conversion                                               *)
(* ===================================================================== *)

Section SecondCallFacts.
Import JS Converter.

Variable World : Type.
Variable issue : metadata -> option convert_options -> World -> completion jstring * World.
Variable serverUrl : jstring.

Local Notation convert := (convertToSignedUrl World issue serverUrl).

(** What a call does at a legacy URL with metadata: it makes the issuance
    call, and resolves to the issued URL, made absolute, or to the input
    when the issuance throws. *)
Lemma convert_legacy (u : jstring) (md : metadata)
  (options : option convert_options) (w : World) :
  isOldTokenUrl (Some u) = true ->
  extractFileMetadataFromUrl u = Normal (Some md) ->
  convert (Some u) options w
  = match issue md options w with
    | (Normal signedUrl, w') =>
        (Normal (if startsWith (js "http") signedUrl then signedUrl
                 else serverUrl ++ signedUrl), w')
    | (Throw error, w') => (Normal u, w')
    end.
Proof.
  intros Hold Hex. unfold convertToSignedUrl.
  destruct u as [|c u']; [discriminate Hold|].
  rewrite Hold, Hex. cbn [negb].
  destruct (issue md options w) as [[signedUrl|e] w']; [|reflexivity].
  destruct (startsWith _ _); reflexivity.
Qed.

(** C2, as amended.  Let a first call resolve to [s].
    - When the input was not a legacy URL, or no metadata could be read from
      it, the first call returned the input and made no issuance call, and
      a second call on [s] does the same.
    - When the first call converted the URL and the issued URL has the
      shape the service gives, [base/files/secure/{payload}.{signature}]
      with a base (made absolute) that carries no token marker, then [s] is
      the issued URL made absolute, it is not a legacy URL, and a second
      call on [s] returns [s] and makes no issuance call.
    - When the issuance of the first call threw, [s] is the input, still a
      legacy URL with the same metadata, and a second call on [s] makes the
      issuance call again, in the world the first call left: it resolves to
      what that call issues, or to the input when that call throws too. *)
Theorem convertToSignedUrl_second_call
  (url : option jstring) (options : option convert_options) (w w1 : World)
  (s : jstring) :
  convert url options w = (Normal s, w1) ->
  (isOldTokenUrl url = false
   \/ (exists u, url = Some u /\ extractFileMetadataFromUrl u = Normal None) ->
   s = match url with
       | Some u => u
       | None => []
       end
   /\ w1 = w
   /\ convert (Some s) options w1 = (Normal s, w1))
  /\ (forall u md signedUrl base payload signature,
        url = Some u ->
        isOldTokenUrl (Some u) = true ->
        extractFileMetadataFromUrl u = Normal (Some md) ->
        issue md options w = (Normal signedUrl, w1) ->
        signedUrl = base ++ js "/files/secure/" ++ payload ++ js "." ++ signature ->
        forallb is_b64url payload = true ->
        forallb is_b64url signature = true ->
        isOldTokenUrl (Some (if startsWith (js "http") signedUrl then base
                             else serverUrl ++ base)) = false ->
        s = (if startsWith (js "http") signedUrl then signedUrl
             else serverUrl ++ signedUrl)
        /\ isOldTokenUrl (Some s) = false
        /\ convert (Some s) options w1 = (Normal s, w1))
  /\ (forall u md e,
        url = Some u ->
        isOldTokenUrl (Some u) = true ->
        extractFileMetadataFromUrl u = Normal (Some md) ->
        issue md options w = (Throw e, w1) ->
        s = u
        /\ isOldTokenUrl (Some s) = true
        /\ convert (Some s) options w1
           = match issue md options w1 with
             | (Normal signedUrl, w2) =>
                 (Normal (if startsWith (js "http") signedUrl then signedUrl
                          else serverUrl ++ signedUrl), w2)
             | (Throw error, w2) => (Normal u, w2)
             end).
Proof.
  intros Hfirst. split; [|split].
  - intros [Hinput | (u & -> & Hnone)].
    + destruct url as [u|].
      * rewrite (convert_not_legacy World issue serverUrl u options w Hinput)
          in Hfirst.
        injection Hfirst as <- <-.
        split; [reflexivity|]. split; [reflexivity|].
        now apply convert_not_legacy.
      * injection Hfirst as <- <-.
        split; [reflexivity|]. split; reflexivity.
    + rewrite (convert_no_metadata World issue serverUrl u options w Hnone)
        in Hfirst.
      injection Hfirst as <- <-.
      split; [reflexivity|]. split; [reflexivity|].
      now apply convert_no_metadata.
  - intros u md signedUrl base payload signature
           -> Hold Hex Hissue Hshape Hp Hs Hbase.
    rewrite (convert_legacy u md options w Hold Hex), Hissue in Hfirst.
    injection Hfirst as <-.
    assert (Hnew : isOldTokenUrl
                     (Some (if startsWith (js "http") signedUrl then signedUrl
                            else serverUrl ++ signedUrl)) = false).
    { destruct (startsWith (js "http") signedUrl); subst signedUrl.
      - now apply signed_url_not_legacy.
      - rewrite app_assoc. now apply signed_url_not_legacy. }
    split; [reflexivity|]. split; [exact Hnew|].
    now apply convert_not_legacy.
  - intros u md e -> Hold Hex Hissue.
    rewrite (convert_legacy u md options w Hold Hex), Hissue in Hfirst.
    injection Hfirst as <-.
    split; [reflexivity|]. split; [exact Hold|].
    now apply convert_legacy.
Qed.

End SecondCallFacts.

(** A first call whose issuance succeeds, and a second call on its result:
    the signed URL comes back and the call counter stays at 2.  A first call
    whose issuance fails, and a second call on its result: the issuance is
    made again and the counter moves on to 2. *)
Lemma convertToSignedUrl_second_call_witness :
  let signed :=
    JS.js "https://api.example.com/api/v1/files/secure/eyJ0IjoxfQ.c2ln" in
  (Converter.convertToSignedUrl nat Examples.flaky_issuer Examples.server
     (Some Examples.legacy_url) None 1%nat = (JS.Normal signed, 2%nat)
   /\ Converter.isOldTokenUrl (Some signed) = false
   /\ Converter.convertToSignedUrl nat Examples.flaky_issuer Examples.server
        (Some signed) None 2%nat = (JS.Normal signed, 2%nat))
  /\ (Converter.convertToSignedUrl nat Examples.flaky_issuer Examples.server
        (Some Examples.legacy_url) None 0%nat
      = (JS.Normal Examples.legacy_url, 1%nat)
      /\ Converter.convertToSignedUrl nat Examples.flaky_issuer Examples.server
           (Some Examples.legacy_url) None 1%nat = (JS.Normal signed, 2%nat)).
Proof.
  intros signed.
  assert (Hmd : Converter.extractFileMetadataFromUrl Examples.legacy_url
                = JS.Normal
                    (Some {| Converter.filename :=
                               Some (JS.JString (JS.js "report final.pdf"));
                             Converter.scope := Some (JS.JString (JS.js "tasks"));
                             Converter.ownerId := Some (JS.JString (JS.js "o1"));
                             Converter.tenantId := Some (JS.JString (JS.js "t1")) |}))
    by (vm_compute; reflexivity).
  assert (Hold : Converter.isOldTokenUrl (Some Examples.legacy_url) = true)
    by (vm_compute; reflexivity).
  split.
  - assert (Hfirst : Converter.convertToSignedUrl nat Examples.flaky_issuer
                       Examples.server (Some Examples.legacy_url) None 1%nat
                     = (JS.Normal signed, 2%nat))
      by (vm_compute; reflexivity).
    split; [exact Hfirst|].
    destruct (convertToSignedUrl_second_call nat Examples.flaky_issuer
                Examples.server (Some Examples.legacy_url) None 1%nat 2%nat
                signed Hfirst) as (_ & Hsigned & _).
    destruct (Hsigned Examples.legacy_url _
                (JS.js "/api/v1/files/secure/eyJ0IjoxfQ.c2ln")
                (JS.js "/api/v1") (JS.js "eyJ0IjoxfQ") (JS.js "c2ln")
                eq_refl Hold Hmd)
      as (_ & Hnew & Hsecond); try (vm_compute; reflexivity).
    split; [exact Hnew|exact Hsecond].
  - assert (Hfirst : Converter.convertToSignedUrl nat Examples.flaky_issuer
                       Examples.server (Some Examples.legacy_url) None 0%nat
                     = (JS.Normal Examples.legacy_url, 1%nat))
      by (vm_compute; reflexivity).
    split; [exact Hfirst|].
    destruct (convertToSignedUrl_second_call nat Examples.flaky_issuer
                Examples.server (Some Examples.legacy_url) None 0%nat 1%nat
                Examples.legacy_url Hfirst) as (_ & _ & Hthrown).
    destruct (Hthrown Examples.legacy_url _ (JS.OtherError (JS.js "Network Error"))
                eq_refl Hold Hmd eq_refl) as (_ & _ & Hsecond).
    etransitivity; [exact Hsecond|]. vm_compute. reflexivity.
Defined.

(** The idempotence as stated fails: when the first issuance throws, the first call
    resolves to the original URL, which still is a legacy URL, and the second
    call converts it: the second result differs from the first. *)
Lemma convertToSignedUrl_not_idempotent :
  let first := Converter.convertToSignedUrl nat Examples.flaky_issuer
                 Examples.server (Some Examples.legacy_url) None 0%nat in
  fst first = JS.Normal Examples.legacy_url
  /\ Converter.isOldTokenUrl (Some Examples.legacy_url) = true
  /\ fst (Converter.convertToSignedUrl nat Examples.flaky_issuer Examples.server
            (Some Examples.legacy_url) None (snd first))
     <> fst first.
Proof.
  vm_compute. repeat split. discriminate.
Qed.

(* ===================================================================== *)
(** ** The query string and the session token of the preview list        *)
(* ===================================================================== *)

Section QueryFacts.
Import JS Converter Preview.

Lemma first_segment_app (sep : N) (a b : jstring) :
  ~ In sep a -> hd [] (split sep (a ++ sep :: b)) = a.
Proof.
  intros H. rewrite split_app_sep, (split_no_sep _ _ H). reflexivity.
Qed.

Lemma first_segment_more (sep : N) (a b : jstring) :
  In sep a -> hd [] (split sep (a ++ b)) = hd [] (split sep a).
Proof.
  induction a as [|c a IH]; intros Hin; [destruct Hin|].
  cbn [app split]. destruct (N.eqb_spec c sep) as [->|Hne]; [reflexivity|].
  destruct Hin as [->|Hin]; [congruence|].
  specialize (IH Hin).
  pose proof (split_nonempty sep a) as Ha.
  pose proof (split_nonempty sep (a ++ b)) as Hab.
  destruct (split sep a); [contradiction|].
  destruct (split sep (a ++ b)); [contradiction|].
  simpl in *. now rewrite IH.
Qed.

Lemma includes_unit (q : N) (s : jstring) :
  includes s [q] = true <-> In q s.
Proof.
  split.
  - intros H. destruct (in_dec N.eq_dec q s) as [Hin|Hout]; [exact Hin|].
    rewrite (includes_no_first q [] s Hout) in H. discriminate.
  - induction s as [|c s IH]; intros Hin; [destruct Hin|].
    cbn [includes startsWith].
    destruct Hin as [->|Hin].
    + now rewrite N.eqb_refl.
    + rewrite (IH Hin). apply orb_true_r.
Qed.

Lemma extract_of_path (url : jstring) :
  extractFileMetadataFromUrl url
  = try_catch
      (match signed_branch (hd [] (split 63 url)) with
       | Some r => r
       | None => legacy_branch (hd [] (split 63 url))
       end)
      (fun error => Normal None).
Proof. reflexivity. Qed.

(** X1: a query string appended to a URL that has none changes nothing of
    what [extractFileMetadataFromUrl] returns, whatever the query is. *)
Theorem extract_ignores_query (url query : jstring) :
  ~ In 63 url ->
  extractFileMetadataFromUrl (url ++ js "?" ++ query)
  = extractFileMetadataFromUrl url.
Proof.
  intros H. rewrite !extract_of_path.
  change (url ++ js "?" ++ query) with (url ++ 63 :: query).
  rewrite (first_segment_app 63 url query H).
  rewrite (split_no_sep 63 url H). reflexivity.
Qed.

Variable window_defined : bool.
Variable stored_token : completion (option jstring).

Local Notation addToken := (addJwtTokenToUploadsUrl window_defined stored_token).

(** What [addJwtTokenToUploadsUrl] returns: the URL itself, or the URL with
    a [token] parameter after [?] or [&]. *)
Lemma addJwt_cases (url : jstring) :
  addToken url = url
  \/ exists token,
       includes url (js "?token=") || includes url (js "&token=") = false
       /\ addToken url
          = url ++ (if includes url (js "?") then js "&" else js "?")
                ++ js "token=" ++ token.
Proof.
  unfold addJwtTokenToUploadsUrl.
  destruct (includes url (js "/api/v1/uploads/")); [|now left].
  destruct (includes url (js "?token=") || includes url (js "&token="));
    [now left|].
  destruct window_defined; [|now left].
  cbn [andb negb].
  destruct stored_token as [[[|c t]|]|e]; cbn [bind]; try (now left).
  right. exists (c :: t). split; reflexivity.
Qed.

Lemma marked_stays (url : jstring) :
  includes url (js "?token=") || includes url (js "&token=") = true ->
  addToken url = url.
Proof.
  intros H. unfold addJwtTokenToUploadsUrl. rewrite H.
  rewrite andb_false_r. reflexivity.
Qed.

Lemma marked_after (url token : jstring) :
  let r := url ++ (if includes url (js "?") then js "&" else js "?")
               ++ js "token=" ++ token in
  includes r (js "?token=") || includes r (js "&token=") = true.
Proof.
  intros r. subst r. apply orb_true_iff.
  destruct (includes url (js "?")); [right|left];
    apply includes_app;
    [apply (includes_prefix (js "&token=") token)
    |apply (includes_prefix (js "?token=") token)].
Qed.

(** X2: [addJwtTokenToUploadsUrl] is idempotent: a URL that has received the
    session token is returned as it is, so the token is never added twice. *)
Theorem addJwtTokenToUploadsUrl_idempotent (url : jstring) :
  addToken (addToken url) = addToken url.
Proof.
  destruct (addJwt_cases url) as [H|[token [_ H]]]; rewrite H.
  - exact H.
  - apply marked_stays. apply marked_after.
Qed.

(** X3: [addJwtTokenToUploadsUrl] and [isOldTokenUrl] agree on what a token
    URL is: a URL that [isOldTokenUrl] takes for a legacy one is left alone,
    and whenever the helper changes a URL the result is a legacy URL, which
    [convertToSignedUrl] will want to convert. *)
Theorem addJwtTokenToUploadsUrl_marks_legacy (url : jstring) :
  (isOldTokenUrl (Some url) = true -> addToken url = url)
  /\ (addToken url <> url -> isOldTokenUrl (Some (addToken url)) = true).
Proof.
  split.
  - intros H. apply marked_stays. destruct url as [|c u]; [discriminate|exact H].
  - intros Hne. destruct (addJwt_cases url) as [H|[token [_ H]]];
      [contradiction|].
    rewrite H. pose proof (marked_after url token) as Hm. cbv zeta in Hm.
    unfold isOldTokenUrl.
    destruct (url ++ (if includes url (js "?") then js "&" else js "?")
                  ++ js "token=" ++ token) eqn:E; [|exact Hm].
    destruct url, (includes [] (js "?")); discriminate.
Qed.

(** X4: the token [addJwtTokenToUploadsUrl] appends goes into the query
    string: [extractFileMetadataFromUrl] reads the same from the URL before
    and after. *)
Theorem addJwtTokenToUploadsUrl_keeps_metadata (url : jstring) :
  extractFileMetadataFromUrl (addToken url) = extractFileMetadataFromUrl url.
Proof.
  destruct (addJwt_cases url) as [H|[token [_ H]]]; rewrite H; [reflexivity|].
  rewrite !extract_of_path. f_equal.
  assert (Hhd : hd [] (split 63 (url ++ (if includes url (js "?") then js "&" else js "?")
                                   ++ js "token=" ++ token))
                = hd [] (split 63 url)).
  { destruct (includes url (js "?")) eqn:Hq.
    - apply first_segment_more. now apply includes_unit.
    - assert (Hout : ~ In 63 url).
      { intros Hin. apply (includes_unit 63 url) in Hin.
        change (js "?") with [63] in Hq. congruence. }
      change (js "?" ++ js "token=" ++ token) with (63 :: js "token=" ++ token).
      rewrite (first_segment_app 63 url _ Hout).
      now rewrite (split_no_sep 63 url Hout). }
  now rewrite Hhd.
Qed.

End QueryFacts.

(** A URL of the legacy route, with and without a query. *)
Lemma extract_ignores_query_witness :
  ~ In 63 (JS.js "/api/v1/uploads/t1/tasks/o1/a.png")
  /\ Converter.extractFileMetadataFromUrl
       (JS.js "/api/v1/uploads/t1/tasks/o1/a.png" ++ JS.js "?" ++ JS.js "token=abc")
     = Converter.extractFileMetadataFromUrl (JS.js "/api/v1/uploads/t1/tasks/o1/a.png").
Proof.
  assert (H : ~ In 63 (JS.js "/api/v1/uploads/t1/tasks/o1/a.png")).
  { intros Hin. vm_compute in Hin. intuition discriminate. }
  split; [exact H|].
  apply (extract_ignores_query (JS.js "/api/v1/uploads/t1/tasks/o1/a.png")
           (JS.js "token=abc") H).
Defined.

(* ===================================================================== *)
(** ** What a conversion can return                                      *)
(* ===================================================================== *)

Section ConversionOutcomes.
Import JS Converter.

Variable World : Type.
Variable generateSignedUrlOnce :
  metadata -> option convert_options -> World -> completion jstring * World.
Variable serverUrl : jstring.

Local Notation convert := (convertToSignedUrl World generateSignedUrlOnce serverUrl).

(** X30: [convertToSignedUrl] asks for a signed URL at most once, and only
    for a legacy URL from which [extractFileMetadataFromUrl] reads the
    metadata, which it hands on unchanged with the options.  Its promise
    always resolves: to the URL it was given (the empty text for none) when
    it makes no call or the call fails, and otherwise to the issued URL,
    prefixed with the server's base unless it begins with [http]. *)
Theorem convertToSignedUrl_outcomes
  (url : option jstring) (options : option convert_options) (w : World) :
  let given := match url with Some u => u | None => [] end in
  convert url options w = (Normal given, w)
  \/ exists md,
       isOldTokenUrl url = true
       /\ extractFileMetadataFromUrl given = Normal (Some md)
       /\ convert url options w
          = (Normal match fst (generateSignedUrlOnce md options w) with
                    | Normal signedUrl =>
                        if startsWith (js "http") signedUrl then signedUrl
                        else serverUrl ++ signedUrl
                    | Throw error => given
                    end,
             snd (generateSignedUrlOnce md options w)).
Proof.
  cbv zeta. unfold convertToSignedUrl.
  destruct url as [[|c u]|]; [left; reflexivity| |left; reflexivity].
  cbv beta iota.
  match goal with
  | |- context [negb ?b] => destruct b eqn:Hold
  end; cbn [negb]; [|left; reflexivity].
  destruct (extractFileMetadataFromUrl (c :: u)) as [[md|]|e] eqn:Hmd;
    [|left; reflexivity|left; reflexivity].
  right. exists md. split; [first [exact Hold | reflexivity]|].
  split; [first [exact Hmd | reflexivity]|].
  destruct (generateSignedUrlOnce md options w) as [[signedUrl|error] w'];
    cbn [fst snd]; [|reflexivity].
  destruct (startsWith (js "http") signedUrl); reflexivity.
Qed.

End ConversionOutcomes.

(* ===================================================================== *)
(** ** What the gateway asks of its collaborators                        *)
(* ===================================================================== *)

Section IssuanceFacts.
Import JS Gateway.

Variable cwd : jstring.
Variable path_join : list jstring -> jstring.
Variable file_exists : jstring -> bool.
Variable generateSignedUrl : grant_input -> completion signed_url_data.
Variable getTimeRemaining : N -> N.
Variable verifySignedUrl : jstring -> verification.

Local Notation serve := (get_secure cwd path_join file_exists verifySignedUrl).
Local Notation issue_one :=
  (post_signed_url cwd path_join file_exists generateSignedUrl getTimeRemaining).
Local Notation issue_batch := (post_signed_urls_batch generateSignedUrl).
Local Notation generate_all := (batch_generate generateSignedUrl).

(** The calls of [POST /signed-url]: none, the existence check alone, or the
    check of a file that exists followed by the issuance for that file. *)
Lemma post_signed_url_calls (u : user) (body : option signed_url_body) :
  fst (issue_one u body) = []
  \/ (exists p, fst (issue_one u body) = [Access p] /\ file_exists p = false)
  \/ exists b scope filename,
       body = Some b
       /\ b_scope b = VString scope /\ b_filename b = VString filename
       /\ String_ (or_else (b_tenantId b) (user_tenantId u))
          = String_ (user_tenantId u)
       /\ file_exists
            (path_join [cwd; js "uploads"; String_ (user_tenantId u); scope;
                        String_ (b_ownerId b); filename]) = true
       /\ fst (issue_one u body)
          = [Access (path_join [cwd; js "uploads"; String_ (user_tenantId u);
                                scope; String_ (b_ownerId b); filename]);
             Generate {| g_tenantId := String_ (user_tenantId u);
                         g_scope := b_scope b;
                         g_ownerId := String_ (b_ownerId b);
                         g_filename := b_filename b;
                         g_action := default_view (b_action b);
                         g_expiresInMinutes := b_expiresInMinutes b |}].
Proof.
  destruct body as [b|]; [|now left].
  unfold post_signed_url.
  destruct (negb (truthy (b_filename b)) || negb (truthy (b_scope b))
            || negb (truthy (b_ownerId b))); [now left|].
  destruct (jstr_eqb (String_ (user_tenantId u))
              (String_ (or_else (b_tenantId b) (user_tenantId u)))) eqn:Ht;
    cbn [negb]; [|now left].
  apply jstr_eqb_eq in Ht.
  destruct (b_scope b) as [| |sb|sn st|scope] eqn:Hs; cbn [path_arg bind];
    try (now left).
  destruct (b_filename b) as [| |fb|fn ft|filename] eqn:Hf; cbn [path_arg bind];
    try (now left).
  rewrite <- Ht.
  destruct (file_exists _) eqn:He; cbn [negb fst].
  - right. right. exists b, scope, filename.
    split; [reflexivity|].
    split; [exact Hs|]. split; [exact Hf|]. split; [symmetry; exact Ht|].
    split; [exact He|]. rewrite Hs, Hf. reflexivity.
  - right. left. eexists. split; [reflexivity|exact He].
Qed.

Lemma batch_generate_calls (u : user) (action expires : jsval)
  (files : list (option batch_file)) (e : event) :
  In e (fst (generate_all u action expires files)) ->
  exists file,
    In (Some file) files /\ e = Generate (batch_input u action expires file).
Proof.
  induction files as [|[file|] rest IH]; simpl; try (intros []).
  destruct (generateSignedUrl (batch_input u action expires file)).
  - destruct (generate_all u action expires rest) as [evs r]. simpl in *.
    intros [<-|Hin].
    + exists file. split; [now left|reflexivity].
    + destruct (IH Hin) as [f [Hf He]]. exists f. split; [now right|exact He].
  - simpl. intros [<-|[]]. exists file. split; [now left|reflexivity].
Qed.

Lemma batch_calls (u : user) (body : option batch_body) (e : event) :
  In e (fst (issue_batch u body)) ->
  exists b files file,
    body = Some b /\ bb_files b = Some files /\ In (Some file) files
    /\ foreign_file u file = false
    /\ e = Generate (batch_input u (default_view (bb_action b))
                       (bb_expiresInMinutes b) file).
Proof.
  destruct body as [b|]; [|intros []].
  unfold post_signed_urls_batch.
  destruct (bb_files b) as [[|f0 files]|] eqn:Hfiles; try (intros []).
  destruct (invalid_files_outcome u (f0 :: files))
    as [[Hthrow _]|[invalid [Hok [_ Hiff]]]].
  { rewrite Hthrow. intros []. }
  rewrite Hok. destruct invalid as [|x l]; [|intros []].
  cbn [length Nat.ltb Nat.leb].
  destruct (generate_all u (default_view (bb_action b)) (bb_expiresInMinutes b)
              (f0 :: files)) as [evs r] eqn:Hg.
  intros Hin. cbn [fst] in Hin.
  assert (Hin' : In e (fst (generate_all u (default_view (bb_action b))
                              (bb_expiresInMinutes b) (f0 :: files))))
    by (rewrite Hg; exact Hin).
  destruct (batch_generate_calls _ _ _ _ _ Hin') as [file [Hf He]].
  exists b, (f0 :: files), file.
  split; [reflexivity|]. split; [exact Hfiles|]. split; [exact Hf|].
  split; [|exact He].
  destruct (foreign_file u file) eqn:Hforeign; [|reflexivity].
  exfalso. apply (Hiff file). now split.
Qed.

(** X5: tenant isolation of the issuance.  Whatever the request body says,
    every grant that [POST /signed-url] or [POST /signed-urls/batch] asks
    [SignedUrlService.generateSignedUrl] for carries the caller's own
    tenant. *)
Theorem issued_grants_carry_callers_tenant
  (u : user) (body : option signed_url_body) (batch : option batch_body)
  (input : grant_input) :
  (In (Generate input) (fst (issue_one u body)) ->
   g_tenantId input = String_ (user_tenantId u))
  /\ (In (Generate input) (fst (issue_batch u batch)) ->
      g_tenantId input = String_ (user_tenantId u)).
Proof.
  split; intros Hin.
  - destruct (post_signed_url_calls u body)
      as [H|[[p [H _]]|[b [scope [filename [_ [_ [_ [_ [_ H]]]]]]]]]];
      rewrite H in Hin.
    + destruct Hin.
    + destruct Hin as [Hin|[]]. discriminate.
    + destruct Hin as [Hin|[Hin|[]]]; [discriminate|].
      injection Hin as <-. reflexivity.
  - destruct (batch_calls u batch _ Hin)
      as [b [files [file [_ [_ [Hf [Hown He]]]]]]].
    injection He as ->. cbn [batch_input g_tenantId].
    unfold foreign_file in Hown. apply negb_false_iff in Hown.
    now apply jstr_eqb_eq in Hown.
Qed.

(** X6: [POST /signed-url] asks for a grant only after it has found the very
    file of the grant on the disk, under the caller's tenant directory; it
    makes no other call before. *)
Theorem post_signed_url_issues_existing_files
  (u : user) (body : option signed_url_body) (input : grant_input) :
  In (Generate input) (fst (issue_one u body)) ->
  exists scope filename,
    g_scope input = VString scope /\ g_filename input = VString filename
    /\ file_exists (path_join [cwd; js "uploads"; String_ (user_tenantId u);
                               scope; g_ownerId input; filename]) = true
    /\ fst (issue_one u body)
       = [Access (path_join [cwd; js "uploads"; String_ (user_tenantId u);
                             scope; g_ownerId input; filename]);
          Generate input].
Proof.
  intros Hin.
  destruct (post_signed_url_calls u body)
    as [H|[[p [H _]]|[b [scope [filename [_ [Hs [Hf [_ [He H]]]]]]]]]].
  - rewrite H in Hin. destruct Hin.
  - rewrite H in Hin. destruct Hin as [Hin|[]]. discriminate.
  - rewrite H in Hin. destruct Hin as [Hin|[Hin|[]]]; [discriminate|].
    injection Hin as <-. cbn [g_scope g_filename g_ownerId].
    exists scope, filename. repeat split; assumption.
Qed.

Lemma batch_generate_urls (u : user) (action expires : jsval)
  (files : list (option batch_file)) (urls : list (jsval * jstring * N)) :
  snd (generate_all u action expires files) = Normal urls ->
  exists objects,
    files = List.map Some objects
    /\ fst (generate_all u action expires files)
       = List.map (fun file => Generate (batch_input u action expires file))
                  objects
    /\ Forall2 (fun file x =>
                  exists d, generateSignedUrl (batch_input u action expires file)
                            = Normal d
                            /\ x = (f_filename file, sd_url d, sd_expiresAt d))
               objects urls.
Proof.
  revert urls. induction files as [|[file|] rest IH]; simpl; intros urls H.
  - injection H as <-. exists []. repeat split. constructor.
  - destruct (generateSignedUrl (batch_input u action expires file)) as [d|e] eqn:Hd;
      [|discriminate].
    destruct (generate_all u action expires rest) as [evs r]. simpl in *.
    destruct r as [more|e]; [|discriminate]. simpl in H. injection H as <-.
    destruct (IH more eq_refl) as [objects [-> [He Hall]]].
    exists (file :: objects). subst evs. repeat split.
    constructor; [|exact Hall].
    exists d. split; [exact Hd|reflexivity].
  - discriminate.
Qed.

(** X7: [POST /signed-urls/batch] never looks at the disk, and when it
    answers 200 every element of [files] is an object and it has asked for
    exactly one grant per file of the request, in the order of the request,
    and returns for each file the URL and the expiry the service gave for
    it, under the file's own [filename]. *)
Theorem batch_issues_one_url_per_file (u : user) (request : option batch_body) :
  (forall e, In e (fst (issue_batch u request)) -> exists input, e = Generate input)
  /\ (forall r, snd (issue_batch u request) = Normal r -> status r = 200%nat ->
      exists b files urls,
        request = Some b
        /\ bb_files b = Some (List.map Some files) /\ body r = BatchBody urls
        /\ fst (issue_batch u request)
           = List.map (fun file =>
                         Generate (batch_input u (default_view (bb_action b))
                                     (bb_expiresInMinutes b) file)) files
        /\ Forall2 (fun file x =>
                      exists d,
                        generateSignedUrl
                          (batch_input u (default_view (bb_action b))
                             (bb_expiresInMinutes b) file) = Normal d
                        /\ x = (f_filename file, sd_url d, sd_expiresAt d))
                   files urls).
Proof.
  split.
  - intros e Hin.
    destruct (batch_calls u request e Hin) as [b [files [file [_ [_ [_ [_ ->]]]]]]].
    eexists. reflexivity.
  - intros r Hr Hst. destruct request as [b|]; [|discriminate].
    unfold post_signed_urls_batch in *.
    destruct (bb_files b) as [[|f0 files]|] eqn:Hfiles;
      try (simpl in Hr; injection Hr as <-; discriminate).
    destruct (invalid_files u (f0 :: files)) as [invalid|e]; [|discriminate].
    destruct (Nat.ltb 0 (length invalid));
      [simpl in Hr; injection Hr as <-; discriminate|].
    pose proof (batch_generate_urls u (default_view (bb_action b))
                  (bb_expiresInMinutes b) (f0 :: files)) as Hgen.
    destruct (generate_all u (default_view (bb_action b)) (bb_expiresInMinutes b)
                (f0 :: files)) as [evs res].
    cbn [fst snd] in *. destruct res as [urls|e]; [|discriminate].
    cbn [bind] in Hr. injection Hr as <-.
    destruct (Hgen urls eq_refl) as [objects [Hobjects [He Hall]]].
    exists b, objects, urls.
    split; [reflexivity|]. split; [rewrite Hfiles, Hobjects; reflexivity|].
    split; [reflexivity|]. split; [exact He|exact Hall].
Qed.

(** X8: [GET /secure/*] streams a file only for a token the service verifies
    with all four fields, and then it streams the file of exactly that grant,
    which is on the disk; the disposition is an attachment under the grant's
    file name when the grant's action is [download], and inline otherwise,
    and it is a header value that can be written. *)
Theorem get_secure_streams_the_granted_file (token : jstring) (r : reply) :
  serve token = Normal r -> status r = 200%nat ->
  exists tenantId scope ownerId filename,
    valid (verifySignedUrl token) = true
    /\ v_tenantId (verifySignedUrl token) = Some tenantId
    /\ v_scope (verifySignedUrl token) = Some scope
    /\ v_ownerId (verifySignedUrl token) = Some ownerId
    /\ v_filename (verifySignedUrl token) = Some filename
    /\ file_exists (path_join [cwd; js "uploads"; tenantId; scope; ownerId;
                               filename]) = true
    /\ body r
       = FileStream
           (path_join [cwd; js "uploads"; tenantId; scope; ownerId; filename])
           (Some (if match v_action (verifySignedUrl token) with
                     | Some a => jstr_eqb a (js "download")
                     | None => false
                     end
                  then js "attachment; filename=" ++ [34] ++ filename ++ [34]
                  else js "inline"))
    /\ forallb valid_header_char
         (content_disposition (v_action (verifySignedUrl token)) filename)
       = true.
Proof.
  unfold get_secure. intros H Hst.
  destruct (valid (verifySignedUrl token)); cbn [negb] in H.
  2:{ destruct (expired (verifySignedUrl token)); injection H as <-;
        discriminate. }
  destruct (v_tenantId (verifySignedUrl token)) as [t|]; [|discriminate].
  destruct (v_scope (verifySignedUrl token)) as [s|]; [|discriminate].
  destruct (v_ownerId (verifySignedUrl token)) as [o|]; [|discriminate].
  destruct (v_filename (verifySignedUrl token)) as [f|]; [|discriminate].
  cbn [asserted of_option bind] in H.
  destruct (file_exists _) eqn:He; cbn [negb] in H.
  2:{ injection H as <-. discriminate. }
  destruct (forallb valid_header_char _) eqn:Hheader; [|discriminate].
  injection H as <-. exists t, s, o, f.
  repeat (split; [first [reflexivity | exact He]|]).
  split; [|exact Hheader].
  cbn [body]. unfold content_disposition.
  destruct (v_action (verifySignedUrl token)) as [a|];
    [destruct (jstr_eqb a (js "download"))|]; reflexivity.
Qed.

End IssuanceFacts.

Section LegacyGetFacts.
Import JS Gateway.

Variable cwd : jstring.
Variable path_join : list jstring -> jstring.
Variable file_exists : jstring -> bool.
Variable jwt_verify : jsval -> completion jwt_claims.
Variable find_user_tenant : jsval -> completion (option jstring).

Local Notation serve := (get_upload cwd path_join file_exists jwt_verify find_user_tenant).
Local Notation token_user := (user_of_token jwt_verify find_user_tenant).

(** X9: the legacy [GET] never asks for authentication.  It refuses a
    request only with "403 Tenant mismatch", and exactly when an identity it
    has (the authenticated user, or else the user of a token that verifies)
    belongs to another tenant than the path; every other request, with or
    without credentials, gets what serving by path gives. *)
Theorem get_upload_refuses_only_other_tenants (req : legacy_request) :
  let identity u :=
    req_user req = Some u
    \/ (req_user req = None /\ truthy (query_token req) = true
        /\ token_user (query_token req) = Normal u) in
  (exists u,
     identity u /\ String_ (user_tenantId u) <> p_tenantId req
     /\ serve req = Normal tenant_mismatch)
  \/ ((forall u, identity u -> String_ (user_tenantId u) = p_tenantId req)
      /\ serve req = serve_by_path cwd path_join file_exists req).
Proof.
  cbv zeta. unfold get_upload.
  destruct (req_user req) as [u|] eqn:Hu.
  - destruct (jstr_eqb (String_ (user_tenantId u)) (p_tenantId req)) eqn:Ht;
      cbn [negb].
    + right. split; [|reflexivity].
      intros u' [[= <-]|[Hnone _]]; [|discriminate].
      now apply jstr_eqb_eq.
    + left. exists u. repeat split; [now left|].
      intros Heq. rewrite Heq, jstr_eqb_refl in Ht. discriminate.
  - unfold try_token.
    destruct (truthy (query_token req)) eqn:Htok.
    2:{ right. split; [|reflexivity].
        intros u' [Hsome|[_ [Htrue _]]]; discriminate. }
    destruct (token_user (query_token req)) as [u|e] eqn:Hv.
    2:{ right. split; [|reflexivity].
        intros u' [Hsome|[_ [_ Hnormal]]]; discriminate. }
    destruct (jstr_eqb (String_ (user_tenantId u)) (p_tenantId req)) eqn:Ht;
      cbn [negb].
    + rewrite Ht. right. split; [|reflexivity].
      intros u' [Hsome|[_ [_ [= <-]]]]; [discriminate|].
      now apply jstr_eqb_eq.
    + left. exists u. repeat split; [right; now repeat split|].
      intros Heq. rewrite Heq, jstr_eqb_refl in Ht. discriminate.
Qed.

End LegacyGetFacts.

Section IssuanceRuns.
Import JS Gateway Examples.

Local Notation issue_one :=
  (post_signed_url root posix_join (disk [stored_file]) fixed_issuer remaining).

(** Tenant [A] asks for its stored file: the check and the issuance. *)
Lemma post_signed_url_issues_existing_files_witness :
  exists input scope filename,
    In (Generate input) (fst (issue_one (user_of "A") (Some (file_body VUndefined))))
    /\ g_scope input = VString scope /\ g_filename input = VString filename
    /\ disk [stored_file]
         (posix_join [root; js "uploads"; String_ (user_tenantId (user_of "A"));
                      scope; g_ownerId input; filename]) = true
    /\ fst (issue_one (user_of "A") (Some (file_body VUndefined)))
       = [Access (posix_join [root; js "uploads";
                              String_ (user_tenantId (user_of "A"));
                              scope; g_ownerId input; filename]);
          Generate input].
Proof.
  pose (input := {| g_tenantId := js "A"; g_scope := VString (js "tasks");
                    g_ownerId := js "o1"; g_filename := VString (js "a.png");
                    g_action := VString (js "view");
                    g_expiresInMinutes := VUndefined |}).
  assert (Hin : In (Generate input)
                  (fst (issue_one (user_of "A") (Some (file_body VUndefined)))))
    by (vm_compute; right; left; reflexivity).
  exists input.
  destruct (post_signed_url_issues_existing_files root posix_join
              (disk [stored_file]) fixed_issuer remaining
              (user_of "A") (Some (file_body VUndefined)) input Hin)
    as [scope [filename H]].
  exists scope, filename. split; [exact Hin|exact H].
Defined.

(** The valid token of the examples is served as the file of its grant. *)
Lemma get_secure_streams_the_granted_file_witness :
  exists r tenantId scope ownerId filename,
    get_secure root posix_join (disk [stored_file]) verifier (js "good.sig")
    = Normal r
    /\ status r = 200%nat
    /\ v_tenantId (verifier (js "good.sig")) = Some tenantId
    /\ v_scope (verifier (js "good.sig")) = Some scope
    /\ v_ownerId (verifier (js "good.sig")) = Some ownerId
    /\ v_filename (verifier (js "good.sig")) = Some filename
    /\ body r
       = FileStream (posix_join [root; js "uploads"; tenantId; scope; ownerId;
                                 filename])
                    (Some (js "inline")).
Proof.
  pose (r := {| status := 200;
                body := FileStream stored_file (Some (js "inline")) |}).
  assert (Hr : get_secure root posix_join (disk [stored_file]) verifier
                 (js "good.sig") = Normal r) by (vm_compute; reflexivity).
  destruct (get_secure_streams_the_granted_file root posix_join
              (disk [stored_file]) verifier (js "good.sig") r Hr eq_refl)
    as [t [s [o [f [_ [Ht [Hs [Ho [Hf [_ [Hb _]]]]]]]]]]].
  exists r, t, s, o, f. repeat split; assumption.
Defined.

End IssuanceRuns.

(* ===================================================================== *)
(** ** [encodeURIComponent] and [decodeURIComponent]                     *)
(* ===================================================================== *)

Section ComponentFacts.
Import JS Builtins.

Ltac euclid := zify; Z.to_euclidean_division_equations; lia.

(** Decide the comparisons of a goal by arithmetic. *)
Ltac settle :=
  repeat match goal with
  | |- context [?a <? ?b] =>
      first [ replace (a <? b) with true by (symmetry; apply N.ltb_lt; euclid)
            | replace (a <? b) with false by (symmetry; apply N.ltb_ge; euclid) ]
  | |- context [?a <=? ?b] =>
      first [ replace (a <=? b) with true by (symmetry; apply N.leb_le; euclid)
            | replace (a <=? b) with false by (symmetry; apply N.leb_gt; euclid) ]
  | |- context [?a =? ?b] =>
      first [ replace (a =? b) with true by (symmetry; apply N.eqb_eq; euclid)
            | replace (a =? b) with false by (symmetry; apply N.eqb_neq; euclid) ]
  end.

Lemma hex_digit_upper_hex (v : N) : v < 16 -> hex_digit (upper_hex v) = Some v.
Proof.
  intros H. unfold upper_hex, hex_digit.
  destruct (N.ltb_spec v 10).
  - settle. cbn [andb]. f_equal. lia.
  - settle. cbn [andb]. f_equal. lia.
Qed.

Lemma uri_items_percent (b : N) (rest : jstring) :
  b < 256 ->
  uri_items (percent b ++ rest) = option_map (cons (Oct b)) (uri_items rest).
Proof.
  intros H. unfold percent. cbn [app uri_items]. rewrite N.eqb_refl.
  rewrite !hex_digit_upper_hex by euclid.
  replace (16 * (b / 16) + b mod 16) with b by euclid.
  destruct (uri_items rest); reflexivity.
Qed.

Lemma uri_items_plain (c : N) (rest : jstring) :
  c <> 37 ->
  uri_items (c :: rest) = option_map (cons (Lit c)) (uri_items rest).
Proof.
  intros H. cbn [uri_items]. apply N.eqb_neq in H. rewrite H.
  destruct (uri_items rest); reflexivity.
Qed.

Lemma utf8_octets_bytes (cp : N) :
  cp < 1114112 -> Forall (fun b => b < 256) (utf8_octets cp).
Proof.
  intros H. unfold utf8_octets.
  destruct (N.ltb_spec cp 128); [|destruct (N.ltb_spec cp 2048);
    [|destruct (N.ltb_spec cp 65536)]];
    repeat constructor; euclid.
Qed.

Lemma uri_items_escapes (octets : list N) (rest : jstring) :
  Forall (fun b => b < 256) octets ->
  uri_items (flat_map percent octets ++ rest)
  = option_map (app (List.map Oct octets)) (uri_items rest).
Proof.
  intros Hb. induction Hb as [|b l Hb Hl IH]; cbn [flat_map List.map app].
  - destruct (uri_items rest); reflexivity.
  - rewrite <- app_assoc, (uri_items_percent b _ Hb), IH.
    destruct (uri_items rest); reflexivity.
Qed.

Lemma uri_items_escape (cp : N) (rest : jstring) :
  cp < 1114112 ->
  uri_items (escape_code_point cp ++ rest)
  = option_map (app (List.map Oct (utf8_octets cp))) (uri_items rest).
Proof.
  intros H. apply uri_items_escapes. now apply utf8_octets_bytes.
Qed.

(** The octets of a scalar value decode to the code units of that value. *)
Lemma decode_octets (cp : N) (items : list uri_item) :
  cp < 1114112 -> is_surrogate cp = false ->
  uri_decode_items (List.map Oct (utf8_octets cp) ++ items)
  = option_map (app (utf16_encode cp)) (uri_decode_items items).
Proof.
  intros H Hs. unfold is_surrogate in Hs. unfold utf8_octets.
  destruct (N.ltb_spec cp 128) as [H1|H1];
    [|destruct (N.ltb_spec cp 2048) as [H2|H2];
      [|destruct (N.ltb_spec cp 65536) as [H3|H3]]];
    cbn [List.map app uri_decode_items]; unfold is_continuation, is_surrogate.
  - settle. unfold utf16_encode. settle.
    destruct (uri_decode_items items); reflexivity.
  - settle. cbn [andb].
    replace ((192 + cp / 64 - 192) * 64 + (128 + cp mod 64 - 128)) with cp
      by euclid.
    settle. cbn [andb].
    destruct (uri_decode_items items); reflexivity.
  - settle. cbn [andb].
    replace ((224 + cp / 4096 - 224) * 4096 + (128 + (cp / 64) mod 64 - 128) * 64
             + (128 + cp mod 64 - 128)) with cp by euclid.
    settle. cbn [andb]. rewrite Hs. cbn [negb andb].
    destruct (uri_decode_items items); reflexivity.
  - settle. cbn [andb].
    replace ((240 + cp / 262144 - 240) * 262144
             + (128 + (cp / 4096) mod 64 - 128) * 4096
             + (128 + (cp / 64) mod 64 - 128) * 64
             + (128 + cp mod 64 - 128)) with cp by euclid.
    settle. cbn [andb].
    destruct (uri_decode_items items); reflexivity.
Qed.

Lemma unreserved_plain (c : N) : is_unreserved c = true -> c <> 37.
Proof. intros H ->. vm_compute in H. discriminate. Qed.

Lemma some_inj (A : Type) (a b : A) : Some a = Some b -> a = b.
Proof. now intros [= ->]. Qed.

Lemma encode_units_cons (c : N) (s : jstring) :
  encode_units (c :: s)
  = if is_unreserved c then option_map (cons c) (encode_units s)
    else if is_lead_surrogate c then
      match s with
      | d :: s'' =>
          if is_trail_surrogate d then
            option_map
              (app (escape_code_point
                      (65536 + (c - 55296) * 1024 + (d - 56320))))
              (encode_units s'')
          else None
      | [] => None
      end
    else if is_trail_surrogate c then None
    else option_map (app (escape_code_point c)) (encode_units s).
Proof. reflexivity. Qed.

(** What the encoder writes is read back, escape by escape. *)
Lemma encode_units_decoded (n : nat) (s e : jstring) :
  (length s <= n)%nat -> code_units s -> encode_units s = Some e ->
  exists items, uri_items e = Some items /\ uri_decode_items items = Some s.
Proof.
  revert s e. induction n as [|n IH]; intros s e Hn Hs He.
  - destruct s; [|simpl in Hn; lia]. cbn [option_map] in He. apply some_inj in He. subst e.
    exists []. split; reflexivity.
  - destruct s as [|c s]; [injection He as <-; exists []; split; reflexivity|].
    inversion Hs as [|c' s' Hc Hs']; subst.
    rewrite encode_units_cons in He.
    destruct (is_unreserved c) eqn:Hu.
    + destruct (encode_units s) as [e'|] eqn:He'; [|discriminate].
      cbn [option_map] in He. apply some_inj in He. subst e.
      destruct (IH s e' ltac:(simpl in Hn; lia) Hs' He') as [items [Hi Hd]].
      exists (Lit c :: items).
      rewrite (uri_items_plain c e' (unreserved_plain c Hu)), Hi.
      split; [reflexivity|]. cbn [uri_decode_items]. now rewrite Hd.
    + destruct (is_lead_surrogate c) eqn:Hl.
      * destruct s as [|d s]; [discriminate|].
        destruct (is_trail_surrogate d) eqn:Ht; [|discriminate].
        destruct (encode_units s) as [e'|] eqn:He'; [|discriminate].
        cbn [option_map] in He. apply some_inj in He. subst e.
        inversion Hs' as [|d' s'' Hd Hs'']; subst.
        destruct (IH s e' ltac:(simpl in Hn; lia) Hs'' He') as [items [Hi Hdec]].
        unfold is_lead_surrogate in Hl. unfold is_trail_surrogate in Ht.
        apply andb_true_iff in Hl as [Hl1 Hl2].
        apply andb_true_iff in Ht as [Ht1 Ht2].
        apply N.leb_le in Hl1, Hl2, Ht1, Ht2.
        set (cp := 65536 + (c - 55296) * 1024 + (d - 56320)).
        assert (Hcp : cp < 1114112) by (subst cp; lia).
        assert (Hge : 65536 <= cp) by (subst cp; lia).
        exists (List.map Oct (utf8_octets cp) ++ items).
        rewrite (uri_items_escape cp e' Hcp), Hi. split; [reflexivity|].
        rewrite decode_octets, Hdec; [|exact Hcp|].
        2:{ unfold is_surrogate. apply andb_false_iff. right.
            apply N.leb_gt. lia. }
        cbn [option_map]. f_equal. unfold utf16_encode.
        replace (cp <? 65536) with false by (symmetry; apply N.ltb_ge; lia).
        replace (55296 + (cp - 65536) / 1024) with c by (subst cp; euclid).
        replace (56320 + (cp - 65536) mod 1024) with d by (subst cp; euclid).
        reflexivity.
      * destruct (is_trail_surrogate c) eqn:Ht; [discriminate|].
        destruct (encode_units s) as [e'|] eqn:He'; [|discriminate].
        cbn [option_map] in He. apply some_inj in He. subst e.
        destruct (IH s e' ltac:(simpl in Hn; lia) Hs' He') as [items [Hi Hd]].
        exists (List.map Oct (utf8_octets c) ++ items).
        rewrite (uri_items_escape c e' ltac:(lia)), Hi. split; [reflexivity|].
        rewrite decode_octets, Hd; [|lia|].
        2:{ unfold is_surrogate, is_lead_surrogate, is_trail_surrogate in *.
            destruct (N.leb_spec 55296 c), (N.leb_spec c 57343);
              try reflexivity.
            destruct (N.leb_spec c 56319), (N.leb_spec 56320 c);
              cbn [andb] in *; try discriminate; lia. }
        cbn [option_map]. f_equal. unfold utf16_encode.
        replace (c <? 65536) with true by (symmetry; apply N.ltb_lt; lia).
        reflexivity.
Qed.

Lemma upper_hex_is_hex (v : N) : v < 16 -> is_upper_hex (upper_hex v) = true.
Proof.
  intros H. unfold upper_hex, is_upper_hex.
  destruct (N.ltb_spec v 10); settle; reflexivity.
Qed.

Lemma escapes_chars (octets : list N) :
  Forall (fun b => b < 256) octets ->
  forallb is_component_char (flat_map percent octets) = true.
Proof.
  intros Hb. induction Hb as [|b l Hb Hl IH]; [reflexivity|].
  cbn [flat_map]. rewrite forallb_app, IH, andb_true_r.
  unfold percent. cbn [forallb]. unfold is_component_char at 1 2 3.
  rewrite !upper_hex_is_hex by euclid.
  rewrite !orb_true_r. reflexivity.
Qed.

Lemma escape_chars (cp : N) :
  cp < 1114112 -> forallb is_component_char (escape_code_point cp) = true.
Proof.
  intros H. apply escapes_chars. now apply utf8_octets_bytes.
Qed.

Lemma encode_units_chars (n : nat) (s e : jstring) :
  (length s <= n)%nat -> code_units s -> encode_units s = Some e ->
  forallb is_component_char e = true.
Proof.
  revert s e. induction n as [|n IH]; intros s e Hn Hs He.
  - destruct s; [|simpl in Hn; lia]. apply some_inj in He. now subst e.
  - destruct s as [|c s]; [apply some_inj in He; now subst e|].
    inversion Hs as [|c' s' Hc Hs']; subst.
    rewrite encode_units_cons in He.
    destruct (is_unreserved c) eqn:Hu.
    + destruct (encode_units s) as [e'|] eqn:He'; [|discriminate].
      cbn [option_map] in He. apply some_inj in He. subst e. cbn [forallb]. unfold is_component_char at 1.
      rewrite Hu. cbn [orb andb].
      apply (IH s e'); [simpl in Hn; lia|assumption..].
    + destruct (is_lead_surrogate c) eqn:Hl.
      * destruct s as [|d s]; [discriminate|].
        destruct (is_trail_surrogate d) eqn:Ht; [|discriminate].
        destruct (encode_units s) as [e'|] eqn:He'; [|discriminate].
        cbn [option_map] in He. apply some_inj in He. subst e.
        inversion Hs' as [|d' s'' Hd Hs'']; subst.
        rewrite forallb_app. apply andb_true_iff. split.
        -- apply escape_chars.
           unfold is_lead_surrogate in Hl. unfold is_trail_surrogate in Ht.
           apply andb_true_iff in Hl as [Hl1 Hl2].
           apply andb_true_iff in Ht as [Ht1 Ht2].
           apply N.leb_le in Hl1, Hl2, Ht1, Ht2. lia.
        -- apply (IH s e'); [simpl in Hn; lia|assumption..].
      * destruct (is_trail_surrogate c); [discriminate|].
        destruct (encode_units s) as [e'|] eqn:He'; [|discriminate].
        cbn [option_map] in He. apply some_inj in He. subst e.
        rewrite forallb_app. apply andb_true_iff. split.
        -- apply escape_chars. lia.
        -- apply (IH s e'); [simpl in Hn; lia|assumption..].
Qed.

Lemma component_char_not (c : N) (e : jstring) :
  forallb is_component_char e = true -> is_component_char c = false -> ~ In c e.
Proof.
  intros He Hc Hin. rewrite forallb_forall in He. apply He in Hin. congruence.
Qed.

(** An encoded component, for the paths that are built from one. *)
Lemma encoded_component (s encoded : jstring) :
  code_units s ->
  encodeURIComponent s = Normal encoded ->
  forallb is_component_char encoded = true
  /\ uri_items encoded <> None
  /\ decodeURIComponent encoded = Normal s.
Proof.
  intros Hs He. unfold encodeURIComponent in He.
  destruct (encode_units s) as [e|] eqn:Hen; [|discriminate].
  cbn [of_option] in He. injection He as <-.
  destruct (encode_units_decoded (length s) s e (le_n _) Hs Hen)
    as [items [Hi Hd]].
  split; [exact (encode_units_chars (length s) s e (le_n _) Hs Hen)|].
  split; [rewrite Hi; discriminate|].
  unfold decodeURIComponent. now rewrite Hi, Hd.
Qed.

(** X11: an encoded component is made of unreserved characters, [%] and
    upper-case hexadecimal digits only; in particular it has no [/], [?],
    [&], [#], [=] or space, so it is one segment of a path. *)
Theorem encodeURIComponent_characters (s encoded : jstring) :
  code_units s ->
  encodeURIComponent s = Normal encoded ->
  Forall (fun c => is_unreserved c = true \/ c = 37 \/ is_upper_hex c = true)
         encoded
  /\ ~ In 47 encoded /\ ~ In 63 encoded /\ ~ In 38 encoded
  /\ ~ In 35 encoded /\ ~ In 61 encoded /\ ~ In 32 encoded.
Proof.
  intros Hs He. unfold encodeURIComponent in He.
  destruct (encode_units s) as [e|] eqn:Hen; [|discriminate].
  cbn [of_option] in He. injection He as <-.
  pose proof (encode_units_chars (length s) s e (le_n _) Hs Hen) as Hall.
  split.
  - apply Forall_forall. intros c Hin. rewrite forallb_forall in Hall.
    specialize (Hall c Hin). unfold is_component_char in Hall.
    apply orb_true_iff in Hall as [Hall|Hall]; [|now right; right].
    apply orb_true_iff in Hall as [Hall|Hall]; [now left|].
    right. left. now apply N.eqb_eq.
  - repeat split; apply (component_char_not _ e Hall); reflexivity.
Qed.

(** *** Decoding a name that was not encoded *)

Lemma uri_items_lits (a s : jstring) :
  ~ In 37 a ->
  uri_items (a ++ s) = option_map (app (List.map Lit a)) (uri_items s).
Proof.
  induction a as [|c a IH]; intros Ha.
  - cbn [app List.map]. destruct (uri_items s); reflexivity.
  - cbn [app List.map]. rewrite uri_items_plain.
    2:{ intros ->. apply Ha. now left. }
    rewrite IH by (intros Hin; apply Ha; now right).
    destruct (uri_items s); reflexivity.
Qed.

Lemma uri_decode_lits (a : jstring) (items : list uri_item) :
  uri_decode_items (List.map Lit a ++ items)
  = option_map (app a) (uri_decode_items items).
Proof.
  induction a as [|c a IH]; cbn [app List.map uri_decode_items].
  - destruct (uri_decode_items items); reflexivity.
  - rewrite IH. destruct (uri_decode_items items); reflexivity.
Qed.

(** A string without a percent sign decodes to itself. *)
Lemma decode_plain (s : jstring) :
  ~ In 37 s -> decodeURIComponent s = Normal s.
Proof.
  intros Hs. unfold decodeURIComponent.
  rewrite <- (app_nil_r s) at 1. rewrite (uri_items_lits s [] Hs).
  cbn [uri_items option_map]. rewrite uri_decode_lits.
  cbn [uri_decode_items option_map of_option]. now rewrite app_nil_r.
Qed.

(** A percent sign that starts no escape makes the decoder throw. *)
Lemma decode_broken (a rest : jstring) :
  ~ In 37 a -> no_escape rest ->
  decodeURIComponent (a ++ 37 :: rest) = Throw URIError.
Proof.
  intros Ha Hrest. unfold decodeURIComponent.
  rewrite (uri_items_lits a _ Ha).
  assert (Hnone : uri_items (37 :: rest) = None).
  { cbn [uri_items]. rewrite N.eqb_refl.
    destruct rest as [|h [|l rest]]; try reflexivity.
    cbn [no_escape] in Hrest.
    destruct Hrest as [-> | Hl]; [reflexivity|].
    rewrite Hl. destruct (hex_digit h); reflexivity. }
  rewrite Hnone. reflexivity.
Qed.

Lemma uri_items_length (n : nat) (s : jstring) (items : list uri_item) :
  (length s <= n)%nat -> uri_items s = Some items ->
  (length items <= length s)%nat
  /\ (In 37 s -> (length items < length s)%nat).
Proof.
  revert s items. induction n as [|n IH]; intros s items Hn Hs.
  - destruct s; [|simpl in Hn; lia]. injection Hs as <-.
    split; [apply le_n|intros []].
  - destruct s as [|c s]; [injection Hs as <-; split; [apply le_n|intros []]|].
    cbn [uri_items] in Hs. destruct (N.eqb_spec c 37) as [->|Hc].
    + destruct s as [|h [|l rest]]; try discriminate.
      destruct (hex_digit h); [|discriminate].
      destruct (hex_digit l); [|discriminate].
      destruct (uri_items rest) as [more|] eqn:Hrest; [|discriminate].
      injection Hs as <-.
      destruct (IH rest more ltac:(simpl in Hn; lia) Hrest) as [Hle _].
      cbn [length]. split; [lia|intros _; lia].
    + destruct (uri_items s) as [more|] eqn:Hrest; [|discriminate].
      injection Hs as <-.
      destruct (IH s more ltac:(simpl in Hn; lia) Hrest) as [Hle Hlt].
      cbn [length]. split; [lia|].
      intros [Heq|Hin]; [congruence|]. specialize (Hlt Hin). lia.
Qed.

Lemma utf16_encode_length (cp : N) : (length (utf16_encode cp) <= 2)%nat.
Proof.
  unfold utf16_encode. destruct (cp <? 65536); cbn [length]; lia.
Qed.

Lemma uri_decode_items_length (n : nat) (items : list uri_item) (d : jstring) :
  (length items <= n)%nat -> uri_decode_items items = Some d ->
  (length d <= length items)%nat.
Proof.
  revert items d. induction n as [|n IH]; intros items d Hn Hd.
  - destruct items; [|simpl in Hn; lia]. injection Hd as <-. apply le_n.
  - destruct items as [|[c|b] rest]; [injection Hd as <-; apply le_n| |].
    + cbn [uri_decode_items] in Hd.
      destruct (uri_decode_items rest) as [d'|] eqn:Hrest; [|discriminate].
      injection Hd as <-.
      pose proof (IH rest d' ltac:(simpl in Hn; lia) Hrest).
      cbn [length]. lia.
    + cbn [uri_decode_items] in Hd.
      destruct (b <? 128).
      { destruct (uri_decode_items rest) as [d'|] eqn:Hrest; [|discriminate].
        injection Hd as <-.
        pose proof (IH rest d' ltac:(simpl in Hn; lia) Hrest).
        cbn [length]. lia. }
      destruct ((192 <=? b) && (b <? 224)).
      { destruct rest as [|[c1|b1] rest1]; try discriminate.
        destruct (is_continuation b1 && _); [|discriminate].
        destruct (uri_decode_items rest1) as [d'|] eqn:Hrest; [|discriminate].
        injection Hd as <-.
        pose proof (IH rest1 d' ltac:(simpl in Hn; lia) Hrest).
        pose proof (utf16_encode_length ((b - 192) * 64 + (b1 - 128))).
        rewrite length_app. cbn [length]. lia. }
      destruct ((224 <=? b) && (b <? 240)).
      { destruct rest as [|[c1|b1] [|[c2|b2] rest2]]; try discriminate.
        destruct (is_continuation b1 && _ && _ && _); [|discriminate].
        destruct (uri_decode_items rest2) as [d'|] eqn:Hrest; [|discriminate].
        injection Hd as <-.
        pose proof (IH rest2 d' ltac:(simpl in Hn; lia) Hrest).
        pose proof (utf16_encode_length
                      ((b - 224) * 4096 + (b1 - 128) * 64 + (b2 - 128))).
        rewrite length_app. cbn [length]. lia. }
      destruct ((240 <=? b) && (b <? 248)); [|discriminate].
      destruct rest as [|[c1|b1] [|[c2|b2] [|[c3|b3] rest3]]]; try discriminate.
      destruct (is_continuation b1 && _ && _ && _ && _); [|discriminate].
      destruct (uri_decode_items rest3) as [d'|] eqn:Hrest; [|discriminate].
      injection Hd as <-.
      pose proof (IH rest3 d' ltac:(simpl in Hn; lia) Hrest).
      pose proof (utf16_encode_length
                    ((b - 240) * 262144 + (b1 - 128) * 4096
                     + (b2 - 128) * 64 + (b3 - 128))).
      rewrite length_app. cbn [length]. lia.
Qed.

(** A string with a percent sign never decodes to itself: what it decodes
    to is shorter. *)
Lemma decode_shorter (s d : jstring) :
  In 37 s -> decodeURIComponent s = Normal d -> (length d < length s)%nat.
Proof.
  intros Hin Hd. unfold decodeURIComponent in Hd.
  destruct (uri_items s) as [items|] eqn:Hi; [|discriminate].
  destruct (uri_decode_items items) as [d'|] eqn:Hdec; [|discriminate].
  injection Hd as <-.
  destruct (uri_items_length (length s) s items (le_n _) Hi) as [_ Hlt].
  pose proof (uri_decode_items_length (length items) items d' (le_n _) Hdec).
  specialize (Hlt Hin). lia.
Qed.

End ComponentFacts.

Section ComponentRuns.
Import JS Builtins.

Lemma encodeURIComponent_characters_witness :
  exists encoded,
    encodeURIComponent (js "a b/c?d=e&f#.png") = Normal encoded
    /\ ~ In 47 encoded /\ ~ In 63 encoded.
Proof.
  eexists. split; [vm_compute; reflexivity|].
  destruct (encodeURIComponent_characters (js "a b/c?d=e&f#.png")
              (js "a%20b%2Fc%3Fd%3De%26f%23.png"))
    as [_ [H1 [H2 _]]].
  - repeat constructor.
  - vm_compute. reflexivity.
  - split; assumption.
Defined.

End ComponentRuns.

(* ===================================================================== *)
(** ** The positional extraction from a legacy URL                       *)
(* ===================================================================== *)

Section LegacyExtractionFacts.
Import JS Builtins Converter.

Local Notation fields t s o name :=
  (Normal (Some {| filename := Some (JString name);
                   scope := Some (JString s);
                   ownerId := Some (JString o);
                   tenantId := Some (JString t) |})).

(** C6, as amended.  Take a URL whose path (the text before the first [?])
    is not of the signed shape and in which the first segment [uploads] is
    followed by the four segments tenantId, scope, ownerId, filename.
    [extractFileMetadataFromUrl] returns tenantId, scope and ownerId as they
    stand and the filename as [decodeURIComponent] reads it, and returns
    null when [decodeURIComponent] throws.  So
    - a filename that [encodeURIComponent] wrote comes back as the name that
      was encoded (every escape is read, the UTF-8 ones too);
    - a filename without a percent sign comes back as it stands;
    - a filename with a percent sign that does not start an escape of two
      hexadecimal digits gives null. *)
Theorem extract_legacy_url
  (url : jstring) (pre more : list jstring) (t s o f : jstring) :
  split 47 (hd [] (split 63 url)) = pre ++ js "uploads" :: t :: s :: o :: f :: more ->
  indexOf (js "uploads") pre = None ->
  includes (hd [] (split 63 url)) (js "/files/secure/") = false ->
  extractFileMetadataFromUrl url
  = match decodeURIComponent f with
    | Normal decoded => fields t s o decoded
    | Throw error => Normal None
    end
  /\ (forall name, code_units name -> encodeURIComponent name = Normal f ->
      extractFileMetadataFromUrl url = fields t s o name)
  /\ (~ In 37 f -> extractFileMetadataFromUrl url = fields t s o f)
  /\ (forall a rest, f = a ++ 37 :: rest -> ~ In 37 a -> no_escape rest ->
      extractFileMetadataFromUrl url = Normal None).
Proof.
  intros Hparts Hfirst Hshape.
  assert (Hrun : extractFileMetadataFromUrl url
                 = match decodeURIComponent f with
                   | Normal decoded => fields t s o decoded
                   | Throw error => Normal None
                   end).
  { unfold extractFileMetadataFromUrl.
    rewrite (signed_branch_other _ Hshape).
    unfold legacy_branch. rewrite Hparts.
    rewrite (indexOf_first _ _ _ Hfirst).
    replace (Nat.ltb _ _) with false.
    2:{ symmetry. apply Nat.ltb_ge. rewrite length_app. simpl. lia. }
    unfold part_text, part_value.
    rewrite !nth_error_after. simpl.
    destruct (decodeURIComponent f); reflexivity. }
  split; [exact Hrun|]. split; [|split].
  - intros name Hunits Henc.
    destruct (encoded_component name f Hunits Henc) as [_ [_ Hdec]].
    now rewrite Hrun, Hdec.
  - intros Hplain. now rewrite Hrun, (decode_plain f Hplain).
  - intros a rest -> Ha Hrest. now rewrite Hrun, (decode_broken a rest Ha Hrest).
Qed.

End LegacyExtractionFacts.

(** The example of the claim, at a full URL, and a file name with a Greek
    letter, whose escape is two octets of UTF-8. *)
Lemma extract_legacy_url_witness :
  Converter.extractFileMetadataFromUrl
    (JS.js "https://api.example.com/api/v1/uploads/t1/tasks/o1/report%20final.pdf?token=xyz")
  = JS.Normal
      (Some {| Converter.filename := Some (JS.JString (JS.js "report final.pdf"));
               Converter.scope := Some (JS.JString (JS.js "tasks"));
               Converter.ownerId := Some (JS.JString (JS.js "o1"));
               Converter.tenantId := Some (JS.JString (JS.js "t1")) |})
  /\ Converter.extractFileMetadataFromUrl
       (JS.js "/api/v1/uploads/t1/tasks/o1/%CE%B1%20final.pdf?token=xyz")
     = JS.Normal
         (Some {| Converter.filename :=
                    Some (JS.JString (945 :: JS.js " final.pdf"));
                  Converter.scope := Some (JS.JString (JS.js "tasks"));
                  Converter.ownerId := Some (JS.JString (JS.js "o1"));
                  Converter.tenantId := Some (JS.JString (JS.js "t1")) |}).
Proof.
  split.
  - destruct (extract_legacy_url
                (JS.js "https://api.example.com/api/v1/uploads/t1/tasks/o1/report%20final.pdf?token=xyz")
                [JS.js "https:"; []; JS.js "api.example.com"; JS.js "api";
                 JS.js "v1"] []
                (JS.js "t1") (JS.js "tasks") (JS.js "o1")
                (JS.js "report%20final.pdf"))
      as [_ [Hname _]]; [vm_compute; reflexivity ..|].
    apply (Hname (JS.js "report final.pdf")).
    + repeat constructor.
    + vm_compute. reflexivity.
  - destruct (extract_legacy_url
                (JS.js "/api/v1/uploads/t1/tasks/o1/%CE%B1%20final.pdf?token=xyz")
                [[]; JS.js "api"; JS.js "v1"] []
                (JS.js "t1") (JS.js "tasks") (JS.js "o1")
                (JS.js "%CE%B1%20final.pdf"))
      as [_ [Hname _]]; [vm_compute; reflexivity ..|].
    apply (Hname (945 :: JS.js " final.pdf")).
    + repeat constructor.
    + vm_compute. reflexivity.
Defined.

(** The claim as stated fails.  Both URLs have a segment [uploads] followed
    by four segments.  In the first the file name [100%.png] cannot be
    decoded, and the function returns null.  In the second the host is named
    [uploads]: the fields are counted from the first segment of that name,
    and what comes back is not the four segments after the [uploads] of the
    path. *)
Lemma extract_legacy_url_not_positional :
  Converter.extractFileMetadataFromUrl
    (JS.js "https://api.example.com/api/v1/uploads/t1/tasks/o1/100%.png?token=xyz")
  = JS.Normal None
  /\ Converter.extractFileMetadataFromUrl
       (JS.js "http://uploads/api/v1/uploads/t1/tasks/o1/a.png?token=xyz")
     = JS.Normal
         (Some {| Converter.filename := Some (JS.JString (JS.js "t1"));
                  Converter.scope := Some (JS.JString (JS.js "v1"));
                  Converter.ownerId := Some (JS.JString (JS.js "uploads"));
                  Converter.tenantId := Some (JS.JString (JS.js "api")) |}).
Proof.
  split; vm_compute; reflexivity.
Qed.

(* ===================================================================== *)
(** ** The path an upload returns, read by the migration helper          *)
(* ===================================================================== *)

Section UploadPathFacts.
Import JS Builtins Converter.

Lemma startsWith_split (p s : jstring) :
  startsWith p s = true -> exists post, s = p ++ post.
Proof.
  revert s. induction p as [|x p IH]; intros s H.
  - exists s. reflexivity.
  - destruct s as [|y s]; [discriminate|]. cbn [startsWith] in H.
    apply andb_true_iff in H as [Hx Hp]. apply N.eqb_eq in Hx. subst y.
    destruct (IH s Hp) as [post ->]. exists post. reflexivity.
Qed.

Lemma includes_split (s pat : jstring) :
  includes s pat = true -> exists pre post, s = pre ++ pat ++ post.
Proof.
  induction s as [|c s IH]; intros H.
  - cbn [includes] in H. rewrite orb_false_r in H.
    destruct (startsWith_split _ _ H) as [post Hp].
    exists [], post. exact Hp.
  - cbn [includes] in H. apply orb_true_iff in H as [H|H].
    + destruct (startsWith_split _ _ H) as [post Hp].
      exists [], post. exact Hp.
    + destruct (IH H) as [pre [post ->]]. exists (c :: pre), post. reflexivity.
Qed.

(** A text with [/files/secure/] in it has a segment [files] followed by a
    segment [secure] that is not the last one. *)
Lemma secure_marker_segments (s : jstring) :
  includes s (js "/files/secure/") = true ->
  exists before x after,
    split 47 s = before ++ js "files" :: js "secure" :: x :: after
    /\ before <> [].
Proof.
  intros H. destruct (includes_split _ _ H) as [pre [post ->]].
  change (js "/files/secure/" ++ post)
    with (47 :: (js "files" ++ 47 :: (js "secure" ++ 47 :: post))).
  rewrite !split_app_sep.
  change (split 47 (js "files")) with [js "files"].
  change (split 47 (js "secure")) with [js "secure"].
  pose proof (split_nonempty 47 post) as Hpost.
  pose proof (split_nonempty 47 pre) as Hpre.
  destruct (split 47 post) as [|x after]; [contradiction|].
  exists (split 47 pre), x, after. split; [reflexivity|exact Hpre].
Qed.

(** The positional extraction, on a path whose first [uploads] segment is
    followed by four more. *)
Lemma legacy_positions
  (path : jstring) (pre more : list jstring) (t s o f decoded : jstring) :
  ~ In 63 path ->
  split 47 path = pre ++ js "uploads" :: t :: s :: o :: f :: more ->
  indexOf (js "uploads") pre = None ->
  includes path (js "/files/secure/") = false ->
  decodeURIComponent f = Normal decoded ->
  extractFileMetadataFromUrl path
  = Normal (Some {| filename := Some (JString decoded);
                    scope := Some (JString s);
                    ownerId := Some (JString o);
                    tenantId := Some (JString t) |}).
Proof.
  intros Hq Hparts Hfirst Hshape Hdec.
  rewrite extract_of_path, (split_no_sep 63 path Hq). cbn [hd].
  rewrite (signed_branch_other _ Hshape).
  unfold legacy_branch. rewrite Hparts.
  rewrite (indexOf_first _ _ _ Hfirst).
  replace (Nat.ltb _ _) with false.
  2:{ symmetry. apply Nat.ltb_ge. rewrite length_app. simpl. lia. }
  unfold part_text, part_value.
  rewrite !nth_error_after. simpl. rewrite Hdec. reflexivity.
Qed.

Lemma scopeDir_values (scope : jstring) :
  In (Storage.scopeDir scope)
     [js "work_orders"; js "reports"; js "branding"; js "subtasks"; js "tasks"].
Proof.
  unfold Storage.scopeDir.
  destruct (jstr_eqb scope (js "workOrder")); [now left|].
  destruct (jstr_eqb scope (js "report")); [right; now left|].
  destruct (jstr_eqb scope (js "logo")); [right; right; now left|].
  destruct (jstr_eqb scope (js "subtasks")); [right; right; right; now left|].
  right; right; right; right; now left.
Qed.

Lemma upload_path_segments (tenantId : Gateway.jsval) (dir owner encoded : jstring) :
  ~ In 47 (Gateway.String_ tenantId) -> ~ In 47 dir -> ~ In 47 owner ->
  ~ In 47 encoded ->
  split 47 (Storage.upload_path tenantId dir owner encoded)
  = [[]; js "api"; js "v1"; js "uploads"; Gateway.String_ tenantId; dir; owner;
     encoded].
Proof.
  intros Ht Hd Ho He. unfold Storage.upload_path.
  change (js "/api/v1/uploads/" ++ Gateway.String_ tenantId ++ js "/" ++ dir
          ++ js "/" ++ owner ++ js "/" ++ encoded)
    with (js "/api/v1/uploads"
          ++ 47 :: (Gateway.String_ tenantId
                    ++ 47 :: (dir ++ 47 :: (owner ++ 47 :: encoded)))).
  rewrite !split_app_sep.
  rewrite (split_no_sep 47 _ Ht), (split_no_sep 47 _ Hd),
    (split_no_sep 47 _ Ho), (split_no_sep 47 _ He).
  reflexivity.
Qed.

Lemma upload_path_no_query (tenantId : Gateway.jsval) (dir owner encoded : jstring) :
  ~ In 63 (Gateway.String_ tenantId) -> ~ In 63 dir -> ~ In 63 owner ->
  ~ In 63 encoded ->
  ~ In 63 (Storage.upload_path tenantId dir owner encoded).
Proof.
  intros Ht Hd Ho He. unfold Storage.upload_path.
  rewrite !in_app_iff. intros H.
  repeat match goal with
  | H : _ \/ _ |- _ => destruct H as [H|H]
  end; try contradiction;
  vm_compute in H; intuition discriminate.
Qed.

Lemma scopeDir_plain (scope : jstring) :
  ~ In 47 (Storage.scopeDir scope) /\ ~ In 63 (Storage.scopeDir scope)
  /\ Storage.scopeDir scope <> js "files"
  /\ Storage.scopeDir scope <> js "secure".
Proof.
  pose proof (scopeDir_values scope) as H. cbn [In] in H.
  repeat match goal with
  | H : _ \/ _ |- _ => destruct H as [H|H]
  end; try contradiction; rewrite <- H;
  (repeat split; [intros Hin; vm_compute in Hin; intuition discriminate..
                 |discriminate|discriminate]).
Qed.

(** The path of the upload route with a last segment that is made of
    component characters and decodes to [filename]. *)
Lemma upload_path_extraction
  (tenantId : Gateway.jsval) (scope owner filename encoded : jstring) :
  ~ In 47 (Gateway.String_ tenantId) -> ~ In 63 (Gateway.String_ tenantId) ->
  ~ In 47 owner -> ~ In 63 owner ->
  forallb is_component_char encoded = true ->
  decodeURIComponent encoded = Normal filename ->
  extractFileMetadataFromUrl
    (Storage.upload_path tenantId (Storage.scopeDir scope) owner encoded)
  = Normal (Some {| Converter.filename := Some (JString filename);
                    Converter.scope := Some (JString (Storage.scopeDir scope));
                    Converter.ownerId := Some (JString owner);
                    Converter.tenantId := Some (JString (Gateway.String_ tenantId)) |}).
Proof.
  intros Ht Htq Ho Hoq Hchars Hdec.
  destruct (scopeDir_plain scope) as [Hd [Hdq [Hnf Hns]]].
  assert (Hes : ~ In 47 encoded)
    by (apply (component_char_not _ _ Hchars); reflexivity).
  assert (Heq : ~ In 63 encoded)
    by (apply (component_char_not _ _ Hchars); reflexivity).
  pose proof (upload_path_segments tenantId _ owner encoded Ht Hd Ho Hes) as Hseg.
  apply (legacy_positions _ [[]; js "api"; js "v1"] [] _ _ _ encoded).
  - now apply upload_path_no_query.
  - exact Hseg.
  - reflexivity.
  - destruct (includes _ (js "/files/secure/")) eqn:Hinc; [|reflexivity].
    exfalso.
    destruct (secure_marker_segments _ Hinc) as [before [x [after [Hs Hne]]]].
    rewrite Hseg in Hs.
    destruct before as [|b0 before]; [contradiction|].
    do 5 (destruct before as [|? before];
          [cbn [app] in Hs; injection Hs; intros; subst;
           try discriminate; try congruence|]).
    apply (f_equal (@length jstring)) in Hs. rewrite length_app in Hs.
    cbn [length] in Hs. lia.
  - exact Hdec.
Qed.

(** X12: the [path] the upload route returns for a stored file is understood
    by [extractFileMetadataFromUrl]: it gives back the tenant, the scope
    directory, the owner and, URL-decoded, the very file name, for every
    file name the route can encode, as long as the tenant and the owner are
    free of [/] and [?]. *)
Theorem upload_path_reads_back
  (tenantId : Gateway.jsval) (scope owner filename encoded : jstring) :
  ~ In 47 (Gateway.String_ tenantId) -> ~ In 63 (Gateway.String_ tenantId) ->
  ~ In 47 owner -> ~ In 63 owner ->
  code_units filename ->
  encodeURIComponent filename = Normal encoded ->
  extractFileMetadataFromUrl
    (Storage.upload_path tenantId (Storage.scopeDir scope) owner encoded)
  = Normal (Some {| Converter.filename := Some (JString filename);
                    Converter.scope := Some (JString (Storage.scopeDir scope));
                    Converter.ownerId := Some (JString owner);
                    Converter.tenantId := Some (JString (Gateway.String_ tenantId)) |}).
Proof.
  intros Ht Htq Ho Hoq Hf He.
  destruct (encoded_component filename encoded Hf He) as [Hchars [_ Hdec]].
  now apply upload_path_extraction.
Qed.

End UploadPathFacts.

Section UploadPathRuns.
Import JS Builtins Converter.

(** A stored file with a Greek name, under a work order. *)
Lemma upload_path_reads_back_witness :
  exists encoded,
    encodeURIComponent (js "1700000000000-" ++ [945; 946] ++ js "_1.pdf")
    = Normal encoded
    /\ extractFileMetadataFromUrl
         (Storage.upload_path (Gateway.VString (js "t1"))
            (Storage.scopeDir (js "workOrder")) (js "wo7") encoded)
       = Normal (Some {| Converter.filename :=
                           Some (JString (js "1700000000000-" ++ [945; 946]
                                          ++ js "_1.pdf"));
                         Converter.scope := Some (JString (js "work_orders"));
                         Converter.ownerId := Some (JString (js "wo7"));
                         Converter.tenantId := Some (JString (js "t1")) |}).
Proof.
  eexists. split; [vm_compute; reflexivity|].
  apply (upload_path_reads_back (Gateway.VString (js "t1")) (js "workOrder")
           (js "wo7") (js "1700000000000-" ++ [945; 946] ++ js "_1.pdf"));
    try (intros Hin; vm_compute in Hin; intuition discriminate).
  - repeat constructor.
  - vm_compute. reflexivity.
Defined.

End UploadPathRuns.

(* ===================================================================== *)
(** ** The name a file is stored under                                   *)
(* ===================================================================== *)

Section StoredNameFacts.
Import JS Builtins Storage.

Lemma replace_spaces_clean (in_run : bool) (s : jstring) :
  Forall (fun c => is_invalid c = false) s ->
  clean (replace_spaces in_run s).
Proof.
  intros H. revert in_run. induction H as [|c s Hc Hs IH]; intros in_run;
    cbn [replace_spaces]; [constructor|].
  destruct (is_space c) eqn:Hsp.
  - destruct in_run; [apply IH|].
    constructor; [split; reflexivity|apply IH].
  - constructor; [split; assumption|apply IH].
Qed.

Lemma replace_invalid_valid (s : jstring) :
  Forall (fun c => is_invalid c = false) (replace_invalid s).
Proof.
  unfold replace_invalid. induction s as [|c s IH]; cbn [List.map];
    constructor; [|exact IH].
  destruct (is_invalid c) eqn:E; [reflexivity|exact E].
Qed.

Lemma sanitize_clean (s : jstring) : clean (sanitize s).
Proof. apply replace_spaces_clean, replace_invalid_valid. Qed.

Lemma clean_kept (s : jstring) : clean s -> sanitize s = s.
Proof.
  unfold sanitize, replace_invalid.
  induction 1 as [|c s [Hi Hs] _ IH]; [reflexivity|].
  cbn [List.map replace_spaces]. rewrite Hi, Hs. f_equal. exact IH.
Qed.

(** X13: the sanitization of the upload route keeps a file name exactly when
    the name has none of the characters of the first [replace] (angle
    brackets, colon, double quote, slash, backslash, bar, question mark,
    star) and no white space, so every other character, Greek letters included, stays as it
    is; what it returns is always such a name, and sanitizing twice changes
    nothing more. *)
Theorem sanitize_fixes_clean_names (original : jstring) :
  (sanitize original = original <-> clean original)
  /\ clean (sanitize original)
  /\ sanitize (sanitize original) = sanitize original.
Proof.
  split; [split|split].
  - intros H. rewrite <- H. apply sanitize_clean.
  - apply clean_kept.
  - apply sanitize_clean.
  - apply clean_kept, sanitize_clean.
Qed.

Lemma uint_digits (d : Decimal.uint) :
  Forall (fun c => 48 <= c <= 57) (js (NilEmpty.string_of_uint d)).
Proof.
  induction d; cbn [NilEmpty.string_of_uint]; [constructor|..];
    (constructor; [vm_compute; split; discriminate|exact IHd]).
Qed.

Lemma decimal_digits (n : N) : Forall (fun c => 48 <= c <= 57) (decimal n).
Proof.
  unfold decimal, NilZero.string_of_uint.
  destruct (N.to_uint n) eqn:E; try (rewrite <- E; apply uint_digits).
  repeat constructor; vm_compute; discriminate.
Qed.

Lemma digit_clean (c : N) :
  48 <= c <= 57 -> is_invalid c = false /\ is_space c = false.
Proof.
  intros H. unfold is_invalid, is_space.
  repeat match goal with
  | |- context [?a =? ?b] =>
      replace (a =? b) with false by (symmetry; apply N.eqb_neq; lia)
  | |- context [?a <=? ?b] =>
      first [ replace (a <=? b) with true by (symmetry; apply N.leb_le; lia)
            | replace (a <=? b) with false by (symmetry; apply N.leb_gt; lia) ]
  end.
  split; reflexivity.
Qed.

(** X14: whatever the client calls a file, the name it is stored under,
    [`${Date.now()}-${sanitizedOriginalName}`], has no path separator, no
    other character of the sanitized class and no white space: it is a
    single path segment, and it begins with the digits of the time stamp. *)
Theorem stored_name_is_one_segment (now : N) (original : jstring) :
  clean (stored_name now original)
  /\ ~ In 47 (stored_name now original)
  /\ ~ In 92 (stored_name now original)
  /\ exists rest, stored_name now original = decimal now ++ 45 :: rest.
Proof.
  assert (Hc : clean (stored_name now original)).
  { unfold stored_name, clean. apply Forall_app. split.
    - eapply Forall_impl; [|apply decimal_digits]. apply digit_clean.
    - apply Forall_app. split; [repeat constructor|apply sanitize_clean]. }
  split; [exact Hc|].
  unfold clean in Hc. rewrite Forall_forall in Hc.
  split; [|split].
  - intros Hin. destruct (Hc _ Hin) as [Hi _]. discriminate.
  - intros Hin. destruct (Hc _ Hin) as [Hi _]. discriminate.
  - exists (sanitize original). reflexivity.
Qed.

End StoredNameFacts.

(* ===================================================================== *)
(** ** The headers of the file responses                                 *)
(* ===================================================================== *)

Section HeaderFacts.
Import JS Builtins Headers.

(** X15: the two routes decide the origin headers alike: for every [Origin]
    the single condition of [secureFilesRoutes] and the chain of tests of
    [uploadsRoutes] set the same headers. *)
Theorem origin_headers_agree (origin : option jstring) :
  secure_origin_headers origin = uploads_origin_headers origin.
Proof.
  unfold secure_origin_headers, uploads_origin_headers.
  destruct origin as [[|c o]|]; try reflexivity. cbv zeta.
  destruct (includes (c :: o) (js "localhost")),
           (includes (c :: o) (js "127.0.0.1")),
           (endsWith (js ".progressnet.io") (c :: o)),
           (jstr_eqb (c :: o) (js "https://progressnet.io")),
           (jstr_eqb (c :: o) (js "https://www.progressnet.io")),
           (startsWith (js "https://") (c :: o)); reflexivity.
Qed.

(** X16: what the origin policy amounts to.  The request's origin is echoed,
    together with [Access-Control-Allow-Credentials: true], exactly when it
    contains [localhost] or [127.0.0.1], ends in [.progressnet.io] or begins
    with [https://] (the two tests for the progressnet.io sites add
    nothing); every other request gets [*] and no credentials header. *)
Theorem origin_policy (origin : option jstring) :
  let echoed :=
    match origin with
    | Some o =>
        includes o (js "localhost") || includes o (js "127.0.0.1")
        || endsWith (js ".progressnet.io") o || startsWith (js "https://") o
    | None => false
    end in
  secure_origin_headers origin
  = match origin with
    | Some o =>
        if echoed then [allow_origin o; allow_credentials]
        else [allow_origin (js "*")]
    | None => [allow_origin (js "*")]
    end.
Proof.
  cbv zeta. unfold secure_origin_headers.
  destruct origin as [[|c o]|]; try reflexivity.
  destruct (jstr_eqb (c :: o) (js "https://progressnet.io")) eqn:E1.
  { apply jstr_eqb_eq in E1. rewrite E1. reflexivity. }
  destruct (jstr_eqb (c :: o) (js "https://www.progressnet.io")) eqn:E2.
  { apply jstr_eqb_eq in E2. rewrite E2. reflexivity. }
  rewrite !orb_false_r. reflexivity.
Qed.

Lemma lookup_miss (key : jstring) (table : list (jstring * jstring)) :
  ~ In key (List.map fst table) -> lookup key table = None.
Proof.
  induction table as [|[k v] table IH]; [reflexivity|].
  cbn [lookup List.map fst In]. intros H.
  destruct (jstr_eqb k key) eqn:E.
  - apply jstr_eqb_eq in E. tauto.
  - apply IH. tauto.
Qed.

Lemma lookup_app (key : jstring) (a b : list (jstring * jstring)) :
  lookup key (a ++ b)
  = match lookup key a with
    | Some v => Some v
    | None => lookup key b
    end.
Proof.
  induction a as [|[k v] a IH]; [reflexivity|].
  cbn [app lookup]. destruct (jstr_eqb k key); [reflexivity|exact IH].
Qed.

(** X17: the two routes name the content type of a file alike, except for
    the extensions [.doc], [.docx], [.xls] and [.xlsx], which only the
    signed route knows: the legacy route serves those as
    [application/octet-stream]. *)
Theorem content_types_differ_on_office_files (ext : jstring) :
  (In ext [js ".doc"; js ".docx"; js ".xls"; js ".xlsx"] ->
   contentType uploads_mimeMap ext = js "application/octet-stream"
   /\ contentType secure_mimeMap ext <> js "application/octet-stream")
  /\ (~ In ext [js ".doc"; js ".docx"; js ".xls"; js ".xlsx"] ->
      contentType uploads_mimeMap ext = contentType secure_mimeMap ext).
Proof.
  split.
  - intros H. cbn [In] in H.
    repeat match goal with
    | H : _ \/ _ |- _ => destruct H as [H|H]
    end; try contradiction; subst ext; split;
      first [reflexivity | vm_compute; discriminate].
  - intros H. unfold contentType.
    change secure_mimeMap with (uploads_mimeMap ++ skipn 10 secure_mimeMap).
    rewrite lookup_app.
    destruct (lookup ext uploads_mimeMap); [reflexivity|].
    rewrite lookup_miss; [reflexivity|exact H].
Qed.

End HeaderFacts.

(* ===================================================================== *)
(** ** The language options                                              *)
(* ===================================================================== *)

Section LocaleFacts.
Import JS Locales.

(** X18: [getCurrentLang] always returns one of the two options: the option
    of the language asked for when that is [el] or [en], and the Greek one
    for every other argument, a missing or an empty one included. *)
Theorem getCurrentLang_falls_back_to_greek (lang : option jstring) :
  exists chosen,
    getCurrentLang lang = Some chosen /\ In chosen allLangs
    /\ value chosen
       = match lang with
         | Some l => if existsb (jstr_eqb l) supportedLngs then l else fallbackLng
         | None => fallbackLng
         end.
Proof.
  destruct lang as [l|].
  2:{ eexists. split; [reflexivity|]. split; [now left|reflexivity]. }
  destruct l as [|c l].
  { eexists. split; [reflexivity|]. split; [now left|reflexivity]. }
  unfold getCurrentLang, supportedLngs. cbn [existsb].
  destruct (jstr_eqb (c :: l) (js "el")) eqn:E1.
  { apply jstr_eqb_eq in E1. rewrite E1. eexists.
    split; [reflexivity|]. split; [now left|reflexivity]. }
  destruct (jstr_eqb (c :: l) (js "en")) eqn:E2.
  { apply jstr_eqb_eq in E2. rewrite E2. eexists.
    split; [reflexivity|]. split; [right; now left|reflexivity]. }
  assert (H1 : jstr_eqb (js "el") (c :: l) = false).
  { destruct (jstr_eqb (js "el") (c :: l)) eqn:E; [|reflexivity].
    apply jstr_eqb_eq in E. rewrite <- E in E1. discriminate. }
  assert (H2 : jstr_eqb (js "en") (c :: l) = false).
  { destruct (jstr_eqb (js "en") (c :: l)) eqn:E; [|reflexivity].
    apply jstr_eqb_eq in E. rewrite <- E in E2. discriminate. }
  unfold allLangs. cbn [find value]. rewrite H1, H2.
  eexists. split; [reflexivity|]. split; [now left|reflexivity].
Qed.

End LocaleFacts.

(* ===================================================================== *)
(** ** Deleting a stored file                                            *)
(* ===================================================================== *)

Section DeletionFacts.
Import JS Builtins Storage.

Variable World : Type.
Variable cwd : jstring.
Variable path_join : list jstring -> jstring.
Variable fs_access : jstring -> World -> outcome unit * World.
Variable fs_unlink : jstring -> World -> outcome unit * World.
Variable trackFileDeletion :
  jstring -> jstring -> World -> outcome (option bool) * World.

Local Notation remove :=
  (delete_upload World cwd path_join fs_access fs_unlink trackFileDeletion).
Local Notation file_of := (stored_at cwd path_join).
Local Notation not_deleted code :=
  (match code with
   | Some c => if jstr_eqb c (js "ENOENT")
               then failure 404 "File not found"
               else failure 500 "Failed to delete file"
   | None => failure 500 "Failed to delete file"
   end).

(** The runs of the [DELETE] handler, by the step that ends them. *)
Lemma delete_upload_runs (u : Gateway.user) (params : file_params) (w : World) :
  (Gateway.String_ (Gateway.user_tenantId u) <> p_tenantId params
   /\ remove u params w
      = (Ok (failure 403 "Forbidden: You don't have access to this tenant's files"),
         [], w))
  \/ (Gateway.String_ (Gateway.user_tenantId u) = p_tenantId params
      /\ ((exists e, decodeURIComponent (p_filename params) = Throw e
                     /\ remove u params w = (Raise None, [], w))
          \/ exists decoded,
               decodeURIComponent (p_filename params) = Normal decoded
               /\ ((exists code w1,
                      fs_access (file_of params decoded) w = (Raise code, w1)
                      /\ remove u params w
                         = (Ok (not_deleted code),
                            [Access (file_of params decoded)], w1))
                   \/ exists w1,
                        fs_access (file_of params decoded) w = (Ok tt, w1)
                        /\ ((exists tracking w2,
                               trackFileDeletion (p_tenantId params) decoded w1
                               = (tracking, w2)
                               /\ (forall tracked, tracking <> Ok (Some tracked))
                               /\ remove u params w
                                  = (Ok (failure 500
                                     "Failed to update storage quota. Please try again."),
                                     [Access (file_of params decoded);
                                      TrackDeletion (p_tenantId params) decoded],
                                     w2))
                            \/ exists tracked w2,
                                 trackFileDeletion (p_tenantId params) decoded w1
                                 = (Ok (Some tracked), w2)
                                 /\ ((exists code w3,
                                        fs_unlink (file_of params decoded) w2
                                        = (Raise code, w3)
                                        /\ remove u params w
                                           = (Ok (not_deleted code),
                                              [Access (file_of params decoded);
                                               TrackDeletion (p_tenantId params)
                                                 decoded;
                                               Unlink (file_of params decoded)],
                                              w3))
                                     \/ exists w3,
                                          fs_unlink (file_of params decoded) w2
                                          = (Ok tt, w3)
                                          /\ remove u params w
                                             = (Ok {| code := 200;
                                                      payload :=
                                                        Deleted
                                                          (js "File deleted successfully")
                                                          decoded |},
                                                [Access (file_of params decoded);
                                                 TrackDeletion (p_tenantId params)
                                                   decoded;
                                                 Unlink (file_of params decoded)],
                                                w3)))))).
Proof.
  unfold delete_upload.
  destruct (jstr_eqb (Gateway.String_ (Gateway.user_tenantId u))
              (p_tenantId params)) eqn:Ht; cbn [negb].
  - apply jstr_eqb_eq in Ht. right. split; [exact Ht|].
    destruct (decodeURIComponent (p_filename params)) as [decoded|e].
    2:{ left. exists e. split; reflexivity. }
    right. exists decoded. split; [reflexivity|].
    unfold then_, catch, call, builtin, ret, throw.
    destruct (fs_access (file_of params decoded) w) as [[[]|code] w1].
    2:{ left. exists code, w1. split; [reflexivity|].
        destruct code as [c|]; [destruct (jstr_eqb c (js "ENOENT"))|];
          reflexivity. }
    right. exists w1. split; [reflexivity|].
    destruct (trackFileDeletion (p_tenantId params) decoded w1)
      as [[[tracked|]|code] w2] eqn:Htr.
    + right. exists tracked, w2. split; [reflexivity|].
      destruct (fs_unlink (file_of params decoded) w2) as [[[]|code] w3].
      * right. exists w3. split; reflexivity.
      * left. exists code, w3. split; [reflexivity|].
        destruct code as [c|]; [destruct (jstr_eqb c (js "ENOENT"))|];
          reflexivity.
    + left. exists (Ok None), w2.
      split; [reflexivity|split; [intros tracked; discriminate|reflexivity]].
    + left. exists (Raise code), w2.
      split; [reflexivity|split; [intros tracked; discriminate|reflexivity]].
  - left. split; [|reflexivity].
    intros Heq. rewrite Heq, jstr_eqb_refl in Ht. discriminate.
Qed.

Ltac delete_cases u params w :=
  destruct (delete_upload_runs u params w)
    as [ [Hforeign Hrun]
       | [Hown [ [e [Hdec Hrun]]
               | [decoded [Hdec
                   [ [code [w1 [Hacc Hrun]]]
                   | [w1 [Hacc
                       [ [tracking [w2 [Htr [Hno Hrun]]]]
                       | [tracked [w2 [Htr
                           [ [code [w3 [Hun Hrun]]]
                           | [w3 [Hun Hrun]] ]]]] ]]] ]]] ]] ].

(** X19: a caller of another tenant cannot delete: the [DELETE] handler
    answers 403 before it decodes the name, looks at the disk or touches the
    quota records. *)
Theorem delete_upload_of_other_tenant
  (u : Gateway.user) (params : file_params) (w : World) :
  Gateway.String_ (Gateway.user_tenantId u) <> p_tenantId params ->
  remove u params w
  = (Ok (failure 403 "Forbidden: You don't have access to this tenant's files"),
     [], w).
Proof.
  intros H. delete_cases u params w; [exact Hrun|contradiction..].
Qed.

(** X20: the [DELETE] handler calls [fs.unlink] at most once, and then as
    its third and last call: after [fs.access] has succeeded on the same
    path and [trackFileDeletion] has resolved to a result for the decoded
    name.  The path is what [path.join] makes of the working directory,
    [uploads], the three parameters tenantId, scope, ownerId of the route and
    the decoded file name, and the tenantId of the route reads as the
    caller's tenant.  (Nothing is said of where that path lies: the handler
    does not look at the segments it joins.) *)
Theorem delete_upload_unlinks_after_tracking
  (u : Gateway.user) (params : file_params) (w : World) (path : jstring) :
  In (Unlink path) (snd (fst (remove u params w))) ->
  exists decoded w1 tracked w2,
    Gateway.String_ (Gateway.user_tenantId u) = p_tenantId params
    /\ decodeURIComponent (p_filename params) = Normal decoded
    /\ path = file_of params decoded
    /\ fs_access path w = (Ok tt, w1)
    /\ trackFileDeletion (p_tenantId params) decoded w1 = (Ok (Some tracked), w2)
    /\ snd (fst (remove u params w))
       = [Access path; TrackDeletion (p_tenantId params) decoded; Unlink path].
Proof.
  intros Hin. delete_cases u params w; rewrite Hrun in Hin; cbn [fst snd In] in Hin;
    try (intuition discriminate).
  - destruct Hin as [Hin|[Hin|[Hin|[]]]]; try discriminate.
    injection Hin as <-. exists decoded, w1, tracked, w2.
    rewrite Hrun. repeat split; assumption.
  - destruct Hin as [Hin|[Hin|[Hin|[]]]]; try discriminate.
    injection Hin as <-. exists decoded, w1, tracked, w2.
    rewrite Hrun. repeat split; assumption.
Qed.

(** X21: when [trackFileDeletion] throws, or resolves to nothing, for a file
    that is there, the deletion is given up: the answer is 500 "Failed to
    update storage quota" and [fs.unlink] is not called. *)
Theorem delete_upload_aborts_without_tracking
  (u : Gateway.user) (params : file_params) (w wa wb : World)
  (name : jstring) (result : outcome (option bool)) :
  Gateway.String_ (Gateway.user_tenantId u) = p_tenantId params ->
  decodeURIComponent (p_filename params) = Normal name ->
  fs_access (file_of params name) w = (Ok tt, wa) ->
  trackFileDeletion (p_tenantId params) name wa = (result, wb) ->
  (forall tracked, result <> Ok (Some tracked)) ->
  remove u params w
  = (Ok (failure 500 "Failed to update storage quota. Please try again."),
     [Access (file_of params name);
      TrackDeletion (p_tenantId params) name], wb).
Proof.
  intros Hu Hd Ha Ht Hn.
  delete_cases u params w; try contradiction; rewrite Hd in Hdec;
    try discriminate; injection Hdec as <-; rewrite Ha in Hacc;
    try discriminate; injection Hacc as <-; rewrite Ht in Htr;
    injection Htr as Hres Hw.
  - subst. exact Hrun.
  - exfalso. exact (Hn tracked Hres).
  - exfalso. exact (Hn tracked Hres).
Qed.

(** X22: the [DELETE] handler answers 200 only when the file was found, the
    deletion was recorded and [fs.unlink] succeeded, in this order; the
    answer then names the decoded file name. *)
Theorem delete_upload_success
  (u : Gateway.user) (params : file_params) (w w' : World)
  (a : answer) (calls : list effect) :
  remove u params w = (Ok a, calls, w') -> code a = 200%nat ->
  exists decoded w1 tracked w2,
    decodeURIComponent (p_filename params) = Normal decoded
    /\ fs_access (file_of params decoded) w = (Ok tt, w1)
    /\ trackFileDeletion (p_tenantId params) decoded w1 = (Ok (Some tracked), w2)
    /\ fs_unlink (file_of params decoded) w2 = (Ok tt, w')
    /\ calls = [Access (file_of params decoded);
                TrackDeletion (p_tenantId params) decoded;
                Unlink (file_of params decoded)]
    /\ payload a = Deleted (js "File deleted successfully") decoded.
Proof.
  intros Hr Hc.
  delete_cases u params w; rewrite Hrun in Hr; try discriminate;
    injection Hr as <- <- <-;
    try (cbn in Hc; discriminate);
    try (destruct code;
         [match type of Hc with
          | context [jstr_eqb ?c ?k] => destruct (jstr_eqb c k)
          end|];
         cbn in Hc; discriminate).
  exists decoded, w1, tracked, w2. repeat split; assumption.
Qed.

End DeletionFacts.

Section DeletionRuns.
Import JS Builtins Storage StorageExamples.

Lemma delete_upload_of_other_tenant_witness :
  delete trackFileDeletion (caller "t2") photo_params [(stored_photo, [1; 2])]
  = (Ok (failure 403 "Forbidden: You don't have access to this tenant's files"),
     [], [(stored_photo, [1; 2])]).
Proof.
  apply (delete_upload_of_other_tenant World root posix_join fs_access fs_unlink
           trackFileDeletion (caller "t2") photo_params).
  vm_compute. discriminate.
Defined.

Lemma delete_upload_unlinks_after_tracking_witness :
  exists decoded,
    decodeURIComponent (p_filename photo_params) = Normal decoded
    /\ snd (fst (delete trackFileDeletion (caller "t1") photo_params
                   [(stored_photo, [1; 2])]))
       = [Access stored_photo; TrackDeletion (js "t1") decoded;
          Unlink stored_photo].
Proof.
  destruct (delete_upload_unlinks_after_tracking World root posix_join fs_access
              fs_unlink trackFileDeletion (caller "t1") photo_params
              [(stored_photo, [1; 2])] stored_photo)
    as [decoded [w1 [tracked [w2 [_ [Hd [_ [_ [_ Hcalls]]]]]]]]].
  - vm_compute. right. right. left. reflexivity.
  - exists decoded. split; [exact Hd|exact Hcalls].
Defined.

Lemma delete_upload_aborts_without_tracking_witness :
  delete deletion_tracking_down (caller "t1") photo_params
    [(stored_photo, [1; 2])]
  = (Ok (failure 500 "Failed to update storage quota. Please try again."),
     [Access stored_photo;
      TrackDeletion (js "t1") (js "1700000000000-my_photo.png")],
     [(stored_photo, [1; 2])]).
Proof.
  apply (delete_upload_aborts_without_tracking World root posix_join fs_access
           fs_unlink deletion_tracking_down (caller "t1") photo_params
           [(stored_photo, [1; 2])] [(stored_photo, [1; 2])]
           [(stored_photo, [1; 2])] (js "1700000000000-my_photo.png")
           (Raise None));
    try (vm_compute; reflexivity).
  intros tracked. discriminate.
Defined.

Lemma delete_upload_success_witness :
  exists a calls,
    delete trackFileDeletion (caller "t1") photo_params [(stored_photo, [1; 2])]
    = (Ok a, calls, [])
    /\ payload a = Deleted (js "File deleted successfully")
                           (js "1700000000000-my_photo.png").
Proof.
  eexists. eexists. split; [vm_compute; reflexivity|].
  destruct (delete_upload_success World root posix_join fs_access fs_unlink
              trackFileDeletion (caller "t1") photo_params
              [(stored_photo, [1; 2])] []
              {| code := 200;
                 payload := Deleted (js "File deleted successfully")
                                    (js "1700000000000-my_photo.png") |}
              [Access stored_photo;
               TrackDeletion (js "t1") (js "1700000000000-my_photo.png");
               Unlink stored_photo])
    as [decoded [w1 [tracked [w2 [Hd [_ [_ [_ [_ Hp]]]]]]]]].
  - vm_compute. reflexivity.
  - reflexivity.
  - etransitivity; [exact Hp|]. vm_compute in Hd. injection Hd as <-.
    reflexivity.
Defined.

End DeletionRuns.

(* ===================================================================== *)
(** ** The file name of the route, decoded by the handlers               *)
(* ===================================================================== *)

Section RouteFilenameFacts.
Import JS Builtins Storage.

Variable World : Type.
Variable cwd : jstring.
Variable path_join : list jstring -> jstring.
Variable file_exists : jstring -> bool.
Variable jwt_verify : Gateway.jsval -> completion Gateway.jwt_claims.
Variable find_user_tenant : Gateway.jsval -> completion (option jstring).
Variable fs_access : jstring -> World -> outcome unit * World.
Variable fs_unlink : jstring -> World -> outcome unit * World.
Variable trackFileDeletion :
  jstring -> jstring -> World -> outcome (option bool) * World.

Local Notation get :=
  (Gateway.get_upload cwd path_join file_exists jwt_verify find_user_tenant).
Local Notation remove :=
  (delete_upload World cwd path_join fs_access fs_unlink trackFileDeletion).
Local Notation file_of := (stored_at cwd path_join).
Local Notation looked_up req name :=
  (path_join [cwd; js "uploads"; Gateway.p_tenantId req; Gateway.p_scope req;
              Gateway.p_ownerId req; name]).
Local Notation served req name :=
  (Normal (if negb (file_exists (looked_up req name))
           then Gateway.error_reply 404 "File not found"
           else {| Gateway.status := 200;
                   Gateway.body := Gateway.FileStream (looked_up req name) None |})).

(** The legacy [GET] refuses the request for its tenant or serves by
    path. *)
Lemma get_upload_cases (req : Gateway.legacy_request) :
  get req = Normal Gateway.tenant_mismatch
  \/ get req = Gateway.serve_by_path cwd path_join file_exists req.
Proof.
  unfold Gateway.get_upload.
  destruct (Gateway.req_user req) as [u|].
  - destruct (negb _); [now left|now right].
  - unfold Gateway.try_token.
    destruct (Gateway.truthy (Gateway.query_token req)); [|now right].
    destruct (Gateway.user_of_token _ _ _) as [u|e]; [|now right].
    destruct (negb (jstr_eqb (Gateway.String_ (Gateway.user_tenantId u))
                      (Gateway.p_tenantId req))) eqn:Hforeign.
    + now left.
    + rewrite Hforeign. now right.
Qed.

(** The calls of the [DELETE] handler are about the decoded name. *)
Lemma delete_upload_calls (u : Gateway.user) (params : file_params) (w : World)
  (e : effect) :
  In e (snd (fst (remove u params w))) ->
  exists decoded,
    decodeURIComponent (p_filename params) = Normal decoded
    /\ (e = Access (file_of params decoded)
        \/ e = TrackDeletion (p_tenantId params) decoded
        \/ e = Unlink (file_of params decoded)).
Proof.
  intros Hin.
  destruct (delete_upload_runs World cwd path_join fs_access fs_unlink
              trackFileDeletion u params w)
    as [ [Hforeign Hrun]
       | [Hown [ [err [Hdec Hrun]]
               | [decoded [Hdec
                   [ [code [w1 [Hacc Hrun]]]
                   | [w1 [Hacc
                       [ [tracking [w2 [Htr [Hno Hrun]]]]
                       | [tracked [w2 [Htr
                           [ [code [w3 [Hun Hrun]]]
                           | [w3 [Hun Hrun]] ]]]] ]]] ]]] ]] ];
    rewrite Hrun in Hin; cbn [fst snd In] in Hin;
    try contradiction; exists decoded; (split; [exact Hdec|]);
    intuition (subst; auto).
Qed.

(** X10: the legacy [GET] and the [DELETE] decode the file name of the
    route once more before they build the path.  Take a [GET] that is not
    refused for its tenant and a [DELETE] whose tenantId parameter reads as
    the caller's tenant.
    - A file name without a percent sign is used as it stands: the [GET]
      serves the file of that name or answers 404, and the first call of
      the [DELETE] is [fs.access] on the file of that name.
    - A file name in which a percent sign starts no escape of two
      hexadecimal digits makes both handlers throw before they call
      anything: the exception leaves the handler.
    - Whenever the file name holds a percent sign, what the [GET] serves or
      misses, and every call the [DELETE] makes, is about a decoded name
      that is shorter than the file name of the route: a file whose stored
      name holds a percent sign is not reached under that name. *)
Theorem route_filename_is_decoded_again
  (req : Gateway.legacy_request) (u : Gateway.user) (params : file_params)
  (w : World) :
  get req <> Normal Gateway.tenant_mismatch ->
  Gateway.String_ (Gateway.user_tenantId u) = p_tenantId params ->
  ((~ In 37 (Gateway.p_filename req) ->
    get req = served req (Gateway.p_filename req))
   /\ (forall a rest,
         Gateway.p_filename req = a ++ 37 :: rest -> ~ In 37 a ->
         no_escape rest -> get req = Throw URIError)
   /\ (In 37 (Gateway.p_filename req) ->
       forall r, get req = Normal r ->
       exists decoded,
         decodeURIComponent (Gateway.p_filename req) = Normal decoded
         /\ (length decoded < length (Gateway.p_filename req))%nat
         /\ get req = served req decoded))
  /\ ((~ In 37 (p_filename params) ->
       exists r calls w',
         remove u params w
         = (r, Access (file_of params (p_filename params)) :: calls, w'))
      /\ (forall a rest,
            p_filename params = a ++ 37 :: rest -> ~ In 37 a ->
            no_escape rest -> remove u params w = (Raise None, [], w))
      /\ (In 37 (p_filename params) ->
          forall e, In e (snd (fst (remove u params w))) ->
          exists decoded,
            decodeURIComponent (p_filename params) = Normal decoded
            /\ (length decoded < length (p_filename params))%nat
            /\ (e = Access (file_of params decoded)
                \/ e = TrackDeletion (p_tenantId params) decoded
                \/ e = Unlink (file_of params decoded)))).
Proof.
  intros Hget Hown.
  assert (Hserve : get req = Gateway.serve_by_path cwd path_join file_exists req)
    by (destruct (get_upload_cases req) as [H|H]; [contradiction|exact H]).
  split; [split; [|split]|split; [|split]].
  - intros Hplain. rewrite Hserve. unfold Gateway.serve_by_path.
    rewrite (decode_plain _ Hplain). cbn [bind].
    destruct (file_exists _); reflexivity.
  - intros a rest Hname Ha Hrest. rewrite Hserve. unfold Gateway.serve_by_path.
    rewrite Hname, (decode_broken a rest Ha Hrest). reflexivity.
  - intros Hin r Hr. rewrite Hserve in Hr |- *.
    unfold Gateway.serve_by_path in *.
    destruct (decodeURIComponent (Gateway.p_filename req)) as [decoded|err]
      eqn:Hdec; [|discriminate].
    exists decoded. split; [reflexivity|].
    split; [exact (decode_shorter _ _ Hin Hdec)|].
    cbn [bind]. destruct (file_exists _); reflexivity.
  - intros Hplain.
    destruct (delete_upload_runs World cwd path_join fs_access fs_unlink
                trackFileDeletion u params w)
      as [ [Hforeign Hrun]
         | [_ [ [err [Hdec Hrun]]
               | [decoded [Hdec
                   [ [code [w1 [Hacc Hrun]]]
                   | [w1 [Hacc
                       [ [tracking [w2 [Htr [Hno Hrun]]]]
                       | [tracked [w2 [Htr
                           [ [code [w3 [Hun Hrun]]]
                           | [w3 [Hun Hrun]] ]]]] ]]] ]]] ]] ];
      try contradiction;
      rewrite (decode_plain _ Hplain) in Hdec; try discriminate;
      injection Hdec as <-; rewrite Hrun;
      eexists; eexists; eexists; reflexivity.
  - intros a rest Hname Ha Hrest.
    destruct (delete_upload_runs World cwd path_join fs_access fs_unlink
                trackFileDeletion u params w)
      as [ [Hforeign Hrun]
         | [_ [ [err [Hdec Hrun]]
               | [decoded [Hdec _]] ]] ];
      [contradiction|exact Hrun|].
    rewrite Hname, (decode_broken a rest Ha Hrest) in Hdec. discriminate.
  - intros Hin e He.
    destruct (delete_upload_calls u params w e He) as [decoded [Hdec Hcall]].
    exists decoded. split; [exact Hdec|].
    split; [exact (decode_shorter _ _ Hin Hdec)|exact Hcall].
Qed.

End RouteFilenameFacts.

Section RouteFilenameRuns.
Import JS Builtins Storage StorageExamples.

(** A file stored as [1700000000000-50%.png]: asked for under that name,
    the [GET] throws, and the [DELETE] throws and leaves the file. *)
Lemma route_filename_is_decoded_again_witness :
  Gateway.get_upload root posix_join (Examples.disk [stored_discount])
    Examples.jwt Examples.no_users discount_request
  = Throw URIError
  /\ delete trackFileDeletion (caller "t1") discount_params
       [(stored_discount, [1; 2])]
     = (Raise None, [], [(stored_discount, [1; 2])]).
Proof.
  destruct (route_filename_is_decoded_again World root posix_join
              (Examples.disk [stored_discount]) Examples.jwt Examples.no_users
              fs_access fs_unlink trackFileDeletion
              discount_request (caller "t1") discount_params
              [(stored_discount, [1; 2])])
    as [[_ [Hget _]] [_ [Hdelete _]]].
  - vm_compute. discriminate.
  - vm_compute. reflexivity.
  - split.
    + apply (Hget (js "1700000000000-50") (js ".png")).
      * reflexivity.
      * vm_compute. intuition discriminate.
      * vm_compute. left. reflexivity.
    + apply (Hdelete (js "1700000000000-50") (js ".png")).
      * reflexivity.
      * vm_compute. intuition discriminate.
      * vm_compute. left. reflexivity.
Defined.

(** A file stored as [1700000000000-a%20b.png]: asked for under that name,
    the [GET] looks for [1700000000000-a b.png] and answers 404, and so does
    the [DELETE]; the file stays. *)
Example escaped_name_is_not_found :
  Gateway.get_upload root posix_join (Examples.disk [stored_escape])
    Examples.jwt Examples.no_users escape_request
  = Normal (Gateway.error_reply 404 "File not found")
  /\ delete trackFileDeletion (caller "t1") escape_params
       [(stored_escape, [1; 2])]
     = (Ok (failure 404 "File not found"),
        [Access (js "/srv/app/uploads/t1/tasks/o1/1700000000000-a b.png")],
        [(stored_escape, [1; 2])]).
Proof. split; vm_compute; reflexivity. Qed.

(** The decoded file name is not looked at before it is joined to the path.
    With [path.join] as it is on an absolute path, a file name that climbs
    out of the directory of the route makes the [DELETE] of a caller of
    tenant [t1] unlink a file that lies under [uploads/t2]. *)
Example delete_upload_of_climbing_name :
  delete_upload World root node_join fs_access fs_unlink trackFileDeletion
    (caller "t1") climbing_params [(foreign_photo, [1; 2])]
  = (Ok {| code := 200;
           payload := Deleted (js "File deleted successfully")
                              (js "../../../t2/tasks/o1/x.png") |},
     [Access foreign_photo;
      TrackDeletion (js "t1") (js "../../../t2/tasks/o1/x.png");
      Unlink foreign_photo],
     []).
Proof. vm_compute. reflexivity. Qed.

End RouteFilenameRuns.

(* ===================================================================== *)
(** ** Storing uploaded files                                            *)
(* ===================================================================== *)

Section UploadFacts.
Import JS Builtins Storage.

Variable World : Type.
Variable cwd : jstring.
Variable path_join : list jstring -> jstring.
Variable MAX_FILE_SIZE_MB : option jstring.
Variable Tenant : Type.
Variable customBranding : Tenant -> bool.
Variable Tenant_findById : Gateway.jsval -> World -> outcome (option Tenant) * World.
Variable canPerformAction : Tenant -> N -> World -> outcome (bool * option jstring) * World.
Variable Date_now : World -> N * World.
Variable fs_mkdir : jstring -> World -> outcome unit * World.
Variable fs_writeFile : jstring -> list N -> World -> outcome unit * World.
Variable fs_stat : jstring -> World -> outcome N * World.
Variable generateSignedUrl :
  Gateway.grant_input -> World -> outcome Gateway.signed_url_data * World.

Local Notation tracker := (tracked_upload -> World -> outcome unit * World).
Local Notation save track :=
  (save_files World cwd path_join Date_now fs_writeFile fs_stat generateSignedUrl
     track).
Local Notation keep track :=
  (store World cwd path_join Tenant customBranding Tenant_findById
     canPerformAction Date_now fs_mkdir fs_writeFile fs_stat generateSignedUrl
     track).
Local Notation post track :=
  (post_upload World cwd path_join MAX_FILE_SIZE_MB Tenant customBranding
     Tenant_findById canPerformAction Date_now fs_mkdir fs_writeFile fs_stat
     generateSignedUrl track).
Local Notation base := (baseDir cwd path_join).

(** How an element of [saved] relates to the file part it is for. *)
Local Notation saved_as req f :=
  (fun (file : file_part) (entry : saved_file) =>
     sf_name entry = fp_filename file
     /\ sf_mimetype entry = fp_mimetype file
     /\ sf_scope entry = scopeDir (scope f)
     /\ sf_ownerId entry = ownerId f
     /\ sf_url entry = sf_signedUrl entry
     /\ exists now encoded,
          sf_filename entry = stored_name now (fp_filename file)
          /\ encodeURIComponent (sf_filename entry) = Normal encoded
          /\ sf_path entry
             = upload_path (up_tenantId (user req)) (scopeDir (scope f))
                           (ownerId f) encoded).

Local Notation written req f :=
  (fun (pair : file_part * saved_file) =>
     WriteFile (path_join [base (user req) f; sf_filename (snd pair)])
               (fp_buffer (fst pair))).

(** One round of the loop that stores the files. *)
Lemma save_files_step (track : tracker) (req : upload_request) (f : form)
  (file : file_part) (rest : list file_part) (w : World) :
  let now := fst (Date_now w) in
  let filename := stored_name now (fp_filename file) in
  let destPath := path_join [base (user req) f; filename] in
  exists t,
    (forall e, In e t -> is_write e = false)
    /\ ((exists c w', save track req f (file :: rest) w
                      = (Raise c, WriteFile destPath (fp_buffer file) :: t, w'))
        \/ exists size signedUrlData encoded w1,
             encodeURIComponent filename = Normal encoded
             /\ save track req f (file :: rest) w
                = match save track req f rest w1 with
                  | (Ok saved, t', w') =>
                      (Ok ({| sf_url :=
                                (if Gateway.truthy (header_forwarded_proto req)
                                 then Gateway.String_ (header_forwarded_proto req)
                                 else protocol req)
                                ++ js "://" ++ Gateway.String_ (header_host req)
                                ++ Gateway.sd_url signedUrlData;
                              sf_signedUrl :=
                                (if Gateway.truthy (header_forwarded_proto req)
                                 then Gateway.String_ (header_forwarded_proto req)
                                 else protocol req)
                                ++ js "://" ++ Gateway.String_ (header_host req)
                                ++ Gateway.sd_url signedUrlData;
                              sf_path :=
                                upload_path (up_tenantId (user req))
                                  (scopeDir (scope f)) (ownerId f) encoded;
                              sf_name := fp_filename file;
                              sf_size := size;
                              sf_mimetype := fp_mimetype file;
                              sf_filename := filename;
                              sf_scope := scopeDir (scope f);
                              sf_ownerId := ownerId f |} :: saved),
                       WriteFile destPath (fp_buffer file) :: t ++ t', w')
                  | (Raise c, t', w') =>
                      (Raise c, WriteFile destPath (fp_buffer file) :: t ++ t', w')
                  end).
Proof.
  cbv zeta.
  remember (save track req f (file :: rest) w) as result eqn:Hres.
  cbn [save_files] in Hres.
  unfold then_ at 1 in Hres. destruct (Date_now w) as [now w0]. cbn [fst].
  unfold then_ at 1 in Hres. unfold call at 1 in Hres.
  destruct (fs_writeFile _ (fp_buffer file) w0) as [[[]|c] w1].
  2:{ exists []. split; [intros e []|]. left. exists c, w1. exact Hres. }
  unfold then_ at 1 in Hres. unfold call at 1 in Hres.
  destruct (fs_stat _ w1) as [[size|c] w2].
  2:{ exists []. split; [intros e []|]. left. exists c, w2. exact Hres. }
  unfold then_ at 1 in Hres. unfold call at 1 in Hres.
  match type of Hres with
  | context [generateSignedUrl ?i w2] =>
      set (input := i) in Hres;
      destruct (generateSignedUrl input w2) as [[data|c] w3]
  end.
  2:{ exists [Issue input]. split.
      - intros e [<-|[]]. reflexivity.
      - left. exists c, w3. exact Hres. }
  unfold then_ at 1 in Hres.
  destruct (encodeURIComponent (stored_name now (fp_filename file)))
    as [encoded|err] eqn:Henc; cbn [builtin] in Hres.
  2:{ exists [Issue input]. split.
      - intros e [<-|[]]. reflexivity.
      - left. exists None, w3. exact Hres. }
  unfold ret at 1 in Hres. unfold then_ at 1 in Hres.
  unfold catch at 1 in Hres. unfold call at 1 in Hres.
  match type of Hres with
  | context [track ?t w3] =>
      set (record := t) in Hres; destruct (track record w3) as [[[]|c] w4]
  end.
  - exists [Issue input; TrackUpload record]. split.
    + intros e [<-|[<-|[]]]; reflexivity.
    + right. exists size, data, encoded, w4. split; [reflexivity|].
      unfold then_ at 1 in Hres.
      destruct (save track req f rest w4) as [[[saved|c] t'] w'];
        unfold ret in Hres; cbn [app] in Hres; rewrite ?app_nil_r in Hres;
        exact Hres.
  - exists [Issue input; TrackUpload record]. split.
    + intros e [<-|[<-|[]]]; reflexivity.
    + right. exists size, data, encoded, w4. split; [reflexivity|].
      unfold ret at 1 in Hres. unfold then_ at 1 in Hres.
      destruct (save track req f rest w4) as [[[saved|c'] t'] w'];
        unfold ret in Hres; cbn [app] in Hres; rewrite ?app_nil_r in Hres;
        exact Hres.
Qed.

Lemma filter_none_of (A : Type) (p : A -> bool) (l : list A) :
  (forall x, In x l -> p x = false) -> filter p l = [].
Proof.
  induction l as [|x l IH]; intros H; [reflexivity|].
  cbn [filter]. rewrite (H x (or_introl eq_refl)).
  apply IH. intros y Hy. apply H. now right.
Qed.

(** What the loop has done when it ends. *)
Lemma save_files_runs (track : tracker) (req : upload_request) (f : form)
  (todo : list file_part) :
  forall (w w' : World) (r : outcome (list saved_file)) (t : list effect),
  save track req f todo w = (r, t, w') ->
  (forall p d, In (WriteFile p d) t ->
     exists file now,
       In file todo /\ d = fp_buffer file
       /\ p = path_join [base (user req) f; stored_name now (fp_filename file)])
  /\ (forall saved, r = Ok saved ->
        Forall2 (saved_as req f) todo saved
        /\ filter is_write t = List.map (written req f) (combine todo saved)).
Proof.
  induction todo as [|file rest IH]; intros w w' r t H.
  - cbn [save_files] in H. unfold ret in H. injection H as <- <- <-.
    split; [intros p d []|]. intros saved [= <-].
    split; [constructor|reflexivity].
  - destruct (save_files_step track req f file rest w) as [t0 [Ht0 Hstep]].
    cbv zeta in Hstep.
    assert (Hhere : forall p d,
              In (WriteFile p d) (WriteFile
                (path_join [base (user req) f;
                            stored_name (fst (Date_now w)) (fp_filename file)])
                (fp_buffer file) :: t0) ->
              exists file' now,
                In file' (file :: rest) /\ d = fp_buffer file'
                /\ p = path_join [base (user req) f;
                                  stored_name now (fp_filename file')]).
    { intros p d [Heq|Hin].
      - injection Heq as <- <-. exists file, (fst (Date_now w)).
        split; [now left|split; reflexivity].
      - apply Ht0 in Hin. discriminate. }
    destruct Hstep as [[c [w1 Hrun]]|[size [data [encoded [w1 [Henc Hrun]]]]]];
      rewrite Hrun in H.
    + injection H as <- <- <-. split; [exact Hhere|]. intros saved [=].
    + destruct (save track req f rest w1) as [[r1 t1] w2] eqn:Hrest.
      destruct (IH _ _ _ _ Hrest) as [Hw Hs].
      assert (Hall : forall p d,
                In (WriteFile p d)
                   (WriteFile
                      (path_join [base (user req) f;
                                  stored_name (fst (Date_now w)) (fp_filename file)])
                      (fp_buffer file) :: t0 ++ t1) ->
                exists file' now,
                  In file' (file :: rest) /\ d = fp_buffer file'
                  /\ p = path_join [base (user req) f;
                                    stored_name now (fp_filename file')]).
      { intros p d Hin. rewrite app_comm_cons in Hin.
        apply in_app_or in Hin as [Hin|Hin]; [now apply Hhere|].
        destruct (Hw p d Hin) as [file' [now [Hf Hrest']]].
        exists file', now. split; [now right|exact Hrest']. }
      destruct r1 as [saved1|c]; injection H as <- <- <-;
        (split; [exact Hall|]); intros saved [=]; subst saved.
      destruct (Hs saved1 eq_refl) as [Hrel Hwr]. split.
      * constructor; [|exact Hrel].
        cbn [sf_name sf_mimetype sf_scope sf_ownerId sf_url sf_signedUrl
             sf_filename sf_path].
        repeat (split; [reflexivity|]).
        exists (fst (Date_now w)), encoded.
        split; [reflexivity|split; [exact Henc|reflexivity]].
      * cbn [filter is_write combine List.map fst snd sf_filename].
        rewrite filter_app, (filter_none_of _ _ _ Ht0), Hwr. reflexivity.
Qed.

Lemma logo_rejection_refuses (files : list file_part) (a : answer) :
  logo_rejection files = Some a ->
  code a <> 200%nat /\ exists error, payload a = Failure error.
Proof.
  induction files as [|file l IH]; [discriminate|]. cbn [logo_rejection].
  destruct (negb (existsb (jstr_eqb (fp_mimetype file)) allowedMimeTypes)).
  { intros [= <-]. split; [discriminate|eexists; reflexivity]. }
  destruct (2 * 1024 * 1024 <? N.of_nat (length (fp_buffer file))).
  { intros [= <-]. split; [discriminate|eexists; reflexivity]. }
  exact IH.
Qed.

(** A branch of [store] that answers, and one that throws, before the
    loop. *)
Ltac refused H :=
  unfold ret in H; cbv beta iota in H; cbn [app] in H;
  injection H as <- <- <-; left;
  (split; [first [now left | now right]|]); left;
  eexists; eexists; (split; [reflexivity|split; [discriminate|reflexivity]]).
Ltac raised H c :=
  cbv beta iota in H; cbn [app] in H; injection H as <- <- <-; left;
  (split; [first [now left | now right]|]); right; now exists c.

(** The runs of the [try] block once the form is read: a refusal or an
    exception before any file is written, or the loop that stores the
    files. *)
Lemma store_runs (track : tracker) (req : upload_request) (f : form)
  (w w' : World) (r : outcome answer) (t : list effect) :
  keep track req f w = (r, t, w') ->
  ((t = [] \/ t = [Mkdir (base (user req) f)])
   /\ ((exists a error,
          r = Ok a /\ code a <> 200%nat /\ payload a = Failure error)
       \/ exists c, r = Raise c))
  \/ exists w0 r0 t0,
       save track req f (files f) w0 = (r0, t0, w')
       /\ t = Mkdir (base (user req) f) :: t0
       /\ r = match r0 with
              | Ok saved => Ok {| code := 200; payload := Saved saved |}
              | Raise c => Raise c
              end.
Proof.
  unfold store. intros H.
  destruct (files f) as [|file0 files0] eqn:Hfiles; [refused H|].
  unfold then_ at 1 in H. unfold call at 1 in H.
  destruct (Tenant_findById (up_tenantId (user req)) w) as [[[tenant|]|c] w1];
    [|refused H|raised H c].
  cbv beta iota in H.
  unfold then_ at 1 in H. unfold call at 1 in H.
  destruct (canPerformAction tenant _ w1) as [[[allowed reason]|c] w2];
    [|raised H c].
  cbv beta iota in H. cbn [fst snd] in H.
  destruct allowed; cbn [negb] in H; [|refused H].
  unfold then_ at 1 in H. unfold call at 1 in H.
  destruct (fs_mkdir (base (user req) f) w2) as [[[]|c] w3]; [|raised H c].
  cbv beta iota in H.
  unfold then_ at 1 in H.
  destruct (jstr_eqb (scope f) (js "logo")).
  - unfold then_ at 1 in H. unfold call at 1 in H.
    destruct (Tenant_findById (up_tenantId (user req)) w3) as [[again|c] w4];
      [|raised H c].
    cbv beta iota in H.
    destruct (negb match again with
                   | Some t1 => customBranding t1
                   | None => false
                   end); [refused H|].
    destruct (negb (up_isTenantOwner (user req))); [refused H|].
    unfold ret at 1 in H. cbv beta iota in H.
    destruct (logo_rejection (file0 :: files0)) as [rejected|] eqn:Hlogo.
    { destruct (logo_rejection_refuses _ _ Hlogo) as [Hcode [error Herr]].
      unfold ret in H; cbv beta iota in H; cbn [app] in H.
      injection H as <- <- <-. left. split; [now right|]. left.
      exists rejected, error. repeat split; assumption. }
    right. unfold then_ in H. unfold ret in H.
    destruct (save track req f (file0 :: files0) w4) as [[r0 t0] w5] eqn:Hsave.
    destruct r0; cbv beta iota in H; cbn [app] in H; rewrite ?app_nil_r in H;
      injection H as <- <- <-; eexists; eexists; eexists;
      (split; [exact Hsave|split; reflexivity]).
  - unfold ret at 1 in H. cbv beta iota in H.
    right. unfold then_ in H. unfold ret in H.
    destruct (save track req f (file0 :: files0) w3) as [[r0 t0] w5] eqn:Hsave.
    destruct r0; cbv beta iota in H; cbn [app] in H; rewrite ?app_nil_r in H;
      injection H as <- <- <-; eexists; eexists; eexists;
      (split; [exact Hsave|split; reflexivity]).
Qed.

Lemma set_field_files (f : form) (fieldname value : jstring) :
  files (set_field f fieldname value) = files f.
Proof.
  unfold set_field.
  repeat match goal with
  | |- context [if ?b then _ else _] => destruct b; [reflexivity|]
  end.
  reflexivity.
Qed.

(** The loop over the parts collects the file parts in their order. *)
Lemma read_parts_files (body : list read) (f0 f : form) :
  read_parts body f0 = Ok f -> files f = files f0 ++ file_parts body.
Proof.
  revert f0. induction body as [|[[file|fieldname value]|c] rest IH];
    intros f0 H; cbn [read_parts file_parts] in *.
  - injection H as <-. now rewrite app_nil_r.
  - rewrite (IH _ H). cbn [push_file files]. now rewrite <- app_assoc.
  - rewrite (IH _ H). now rewrite set_field_files.
  - discriminate.
Qed.

(** It ends at the first step that throws. *)
Lemma read_parts_broken (before after : list read) (c : option jstring) (f0 : form) :
  forallb yields before = true ->
  read_parts (before ++ Broken c :: after) f0 = Raise c.
Proof.
  revert f0. induction before as [|[[file|fieldname value]|c'] rest IH];
    intros f0 H; cbn [app read_parts]; try reflexivity;
    try (apply IH; exact H).
  discriminate.
Qed.

(** The runs of [POST /]: the handler always answers. *)
Lemma post_upload_runs (track : tracker) (req : upload_request)
  (w w' : World) (r : outcome answer) (t : list effect) :
  post track req w = (r, t, w') ->
  (exists c, read_parts (parts req) empty_form = Raise c
             /\ r = Ok (upload_failed MAX_FILE_SIZE_MB c) /\ t = [])
  \/ exists f r0,
       read_parts (parts req) empty_form = Ok f
       /\ keep track req f w = (r0, t, w')
       /\ r = Ok (match r0 with
                  | Ok a => a
                  | Raise c => upload_failed MAX_FILE_SIZE_MB c
                  end).
Proof.
  unfold post_upload, catch. intros H.
  destruct (read_parts (parts req) empty_form) as [f|c] eqn:Hread;
    cbv beta iota in H.
  - right. destruct (keep track req f w) as [[[a|c] t0] w0] eqn:Hkeep.
    + injection H as <- <- <-. exists f, (Ok a).
      split; [reflexivity|split; [exact Hkeep|reflexivity]].
    + unfold ret in H. injection H as <- <- <-. rewrite app_nil_r.
      exists f, (Raise c). split; [reflexivity|split; [exact Hkeep|reflexivity]].
  - left. unfold throw, ret in H. injection H as <- <- <-.
    exists c. split; [reflexivity|split; reflexivity].
Qed.

(** X23: a reply that refuses an upload leaves no file behind.  [POST /]
    always answers, and when it has written a file its answer is the 200 of
    a completed upload or comes from the [catch] block (500, or 413 "File
    too large"); the replies 400, 403 and 404, and the 413 about the storage
    limit or the size of a logo, are sent before the first [fs.writeFile]. *)
Theorem upload_rejections_write_nothing (track : tracker)
  (req : upload_request) (w w' : World) (r : outcome answer) (t : list effect) :
  post track req w = (r, t, w') ->
  exists a,
    r = Ok a
    /\ ((exists path data, In (WriteFile path data) t) ->
        code a = 200%nat \/ exists c, a = upload_failed MAX_FILE_SIZE_MB c).
Proof.
  intros H.
  destruct (post_upload_runs _ _ _ _ _ _ H)
    as [[c [_ [-> ->]]]|[f [r0 [_ [Hkeep ->]]]]].
  { eexists. split; [reflexivity|]. intros [path [data []]]. }
  eexists. split; [reflexivity|]. intros [path [data Hin]].
  destruct (store_runs _ _ _ _ _ _ _ Hkeep)
    as [[[->| ->] _]|[w0 [r1 [t0 [_ [_ ->]]]]]].
  - destruct Hin.
  - destruct Hin as [Hin|[]]. discriminate.
  - destruct r1 as [saved|c]; [now left|right; now exists c].
Qed.


(** X25: a 200 answer of [POST /] lists the uploaded file parts one by one
    and in their order, each with the client's name and type, the stored
    name, and the legacy path built from the encoded stored name; and the
    files written are exactly the listed ones, in this order, each under its
    stored name with the bytes of its part. *)
Theorem upload_success_lists_written_files (track : tracker)
  (req : upload_request) (w w' : World) (a : answer) (t : list effect) :
  post track req w = (Ok a, t, w') -> code a = 200%nat ->
  exists f saved,
    read_parts (parts req) empty_form = Ok f
    /\ files f = file_parts (parts req)
    /\ payload a = Saved saved
    /\ Forall2 (saved_as req f) (files f) saved
    /\ filter is_write t = List.map (written req f) (combine (files f) saved).
Proof.
  intros H Hc.
  destruct (post_upload_runs _ _ _ _ _ _ H)
    as [[c [_ [Hr _]]]|[f [r0 [Hread [Hkeep Hr]]]]].
  { injection Hr as ->. exfalso. revert Hc. unfold upload_failed.
    destruct c as [c|]; [destruct (jstr_eqb c _)|]; discriminate. }
  injection Hr as ->.
  destruct (store_runs _ _ _ _ _ _ _ Hkeep)
    as [[_ [[a0 [error [-> [Hne _]]]]|[c ->]]]|[w0 [r1 [t0 [Hsave [-> ->]]]]]].
  - contradiction.
  - exfalso. revert Hc. unfold upload_failed.
    destruct c as [c|]; [destruct (jstr_eqb c _)|]; discriminate.
  - destruct r1 as [saved|c].
    2:{ exfalso. revert Hc. unfold upload_failed.
        destruct c as [c|]; [destruct (jstr_eqb c _)|]; discriminate. }
    destruct (save_files_runs _ _ _ _ _ _ _ _ Hsave) as [_ Hs].
    destruct (Hs saved eq_refl) as [Hrel Hwr].
    exists f, saved.
    split; [exact Hread|split; [exact (read_parts_files _ _ _ Hread)|]].
    split; [reflexivity|split; [exact Hrel|exact Hwr]].
Qed.

Lemma then_ext (A B : Type) (m1 m2 : run World A) (k1 k2 : A -> run World B)
  (w : World) :
  m1 w = m2 w -> (forall a w', k1 a w' = k2 a w') ->
  then_ World m1 k1 w = then_ World m2 k2 w.
Proof.
  intros Hm Hk. unfold then_. rewrite Hm.
  destruct (m2 w) as [[[a|c] t] w']; [rewrite Hk|]; reflexivity.
Qed.

Lemma save_files_tracker (t1 t2 : tracker) (req : upload_request) (f : form)
  (todo : list file_part) :
  (forall record w, snd (t1 record w) = snd (t2 record w)) ->
  forall w, save t1 req f todo w = save t2 req f todo w.
Proof.
  intros Hsame. induction todo as [|file rest IH]; intros w; [reflexivity|].
  cbn [save_files].
  apply then_ext; [reflexivity|intros now w0].
  apply then_ext; [reflexivity|intros written w1].
  apply then_ext; [reflexivity|intros size w2].
  apply then_ext; [reflexivity|intros data w3].
  apply then_ext; [reflexivity|intros encoded w4].
  apply then_ext.
  - unfold catch, call, ret.
    match goal with
    | |- context [t1 ?x w4] =>
        specialize (Hsame x w4);
        destruct (t1 x w4) as [[[]|c1] wa], (t2 x w4) as [[[]|c2] wb]
    end; cbn [snd] in Hsame; subst wb; reflexivity.
  - intros logged w5. apply then_ext; [apply IH|reflexivity].
Qed.

(** X26: a failure of [FileTrackingService.trackFileUpload] never fails an
    upload.  Two tracking services that leave the world alike, whether they
    succeed or throw, give the same answer, the same calls and the same
    files. *)
Theorem upload_ignores_tracking_failures (t1 t2 : tracker)
  (req : upload_request) (w : World) :
  (forall record w0, snd (t1 record w0) = snd (t2 record w0)) ->
  post t1 req w = post t2 req w.
Proof.
  intros Hsame. unfold post_upload, catch.
  destruct (read_parts (parts req) empty_form) as [f|c]; [|reflexivity].
  assert (Hkeep : keep t1 req f w = keep t2 req f w).
  { unfold store. destruct (files f) as [|file0 files0]; [reflexivity|].
    apply then_ext; [reflexivity|intros [tenant|] w1; [|reflexivity]].
    apply then_ext; [reflexivity|intros storageCheck w2].
    destruct (negb (fst storageCheck)); [reflexivity|].
    apply then_ext; [reflexivity|intros made w3].
    apply then_ext; [reflexivity|intros [rejected|] w4; [reflexivity|]].
    apply then_ext; [|reflexivity].
    apply (save_files_tracker t1 t2 _ _ _ Hsame). }
  rewrite Hkeep. reflexivity.
Qed.

Lemma replace_spaces_units (in_run : bool) (s : jstring) :
  code_units s -> code_units (replace_spaces in_run s).
Proof.
  intros H. revert in_run. induction H as [|c s Hc Hs IH]; intros in_run;
    cbn [replace_spaces]; [constructor|].
  destruct (is_space c); [destruct in_run|]; try apply IH;
    constructor; try apply IH; [reflexivity|exact Hc].
Qed.

Lemma stored_name_units (now : N) (original : jstring) :
  code_units original -> code_units (stored_name now original).
Proof.
  intros H. unfold stored_name, code_units. apply Forall_app. split.
  - eapply Forall_impl; [|apply decimal_digits]. cbv beta. lia.
  - apply Forall_app. split; [repeat constructor|].
    apply replace_spaces_units. unfold replace_invalid.
    induction H as [|c s Hc Hs IH]; cbn [List.map]; constructor;
      [destruct (is_invalid c); [reflexivity|exact Hc]|exact IH].
Qed.

(** X27: the upload route and the migration helper fit together.  From the
    [path] of every entry of a 200 answer, [extractFileMetadataFromUrl]
    reads the entry's own [filename], [scope] and [ownerId] and the caller's
    tenant, provided the tenant and the owner of the form are free of [/]
    and [?] and the client's file names are strings of code units. *)
Theorem uploaded_paths_read_back (track : tracker)
  (req : upload_request) (w w' : World) (a : answer) (t : list effect)
  (f : form) (saved : list saved_file) (entry : saved_file) :
  post track req w = (Ok a, t, w') -> payload a = Saved saved ->
  In entry saved ->
  read_parts (parts req) empty_form = Ok f ->
  ~ In 47 (Gateway.String_ (up_tenantId (user req))) ->
  ~ In 63 (Gateway.String_ (up_tenantId (user req))) ->
  ~ In 47 (ownerId f) -> ~ In 63 (ownerId f) ->
  Forall (fun file => code_units (fp_filename file)) (files f) ->
  Converter.extractFileMetadataFromUrl (sf_path entry)
  = Normal (Some {| Converter.filename := Some (JString (sf_filename entry));
                    Converter.scope := Some (JString (sf_scope entry));
                    Converter.ownerId := Some (JString (sf_ownerId entry));
                    Converter.tenantId :=
                      Some (JString (Gateway.String_ (up_tenantId (user req)))) |}).
Proof.
  intros H Hp Hin Hread Ht Htq Ho Hoq Hnames.
  destruct (post_upload_runs _ _ _ _ _ _ H)
    as [[c [Hbad _]]|[f' [r0 [Hread' [Hkeep Hr]]]]];
    [rewrite Hread in Hbad; discriminate|].
  rewrite Hread in Hread'. injection Hread' as <-. injection Hr as ->.
  assert (Hsaved : exists w0 t0, save track req f (files f) w0 = (Ok saved, t0, w')).
  { destruct (store_runs _ _ _ _ _ _ _ Hkeep)
      as [[_ [[a0 [error [-> [_ Herr]]]]|[c ->]]]|[w0 [r1 [t0 [Hsave [_ ->]]]]]].
    - rewrite Herr in Hp. discriminate.
    - exfalso. revert Hp. unfold upload_failed.
      destruct c as [c|]; [destruct (jstr_eqb c _)|]; discriminate.
    - destruct r1 as [saved1|c].
      + cbn [payload] in Hp. injection Hp as ->. now exists w0, t0.
      + exfalso. revert Hp. unfold upload_failed.
        destruct c as [c|]; [destruct (jstr_eqb c _)|]; discriminate. }
  destruct Hsaved as [w0 [t0 Hsave]].
  destruct (save_files_runs _ _ _ _ _ _ _ _ Hsave) as [_ Hs].
  destruct (Hs saved eq_refl) as [Hrel _].
  assert (Hentry : exists file, In file (files f) /\ saved_as req f file entry).
  { clear - Hrel Hin. induction Hrel as [|file e files' saved' Hfe _ IH];
      [destruct Hin|].
    destruct Hin as [<-|Hin].
    - exists file. split; [now left|exact Hfe].
    - destruct (IH Hin) as [file' [Hf He]]. exists file'.
      split; [now right|exact He]. }
  destruct Hentry as [file [Hfile [_ [_ [Hscope [Howner [_ [now [encoded
    [Hname [Henc Hpath]]]]]]]]]]].
  assert (Hunits : code_units (sf_filename entry)).
  { rewrite Hname. apply stored_name_units.
    rewrite Forall_forall in Hnames. now apply Hnames. }
  destruct (encoded_component _ _ Hunits Henc) as [Hchars [_ Hdec]].
  rewrite Hpath, Hscope, Howner.
  now apply upload_path_extraction.
Qed.




(** X29: when reading the multipart body fails at some part (a file over
    the size limit, a broken stream), [POST /] answers from the [catch]
    block, 413 "File too large" for the code [FST_REQ_FILE_TOO_LARGE] and
    500 otherwise, and has made no call at all: nothing of the parts that
    were read before is stored, and no directory is created. *)
Theorem upload_with_broken_body_stores_nothing (track : tracker)
  (req : upload_request) (w : World)
  (before after : list read) (c : option jstring) :
  parts req = before ++ Broken c :: after ->
  forallb yields before = true ->
  post track req w = (Ok (upload_failed MAX_FILE_SIZE_MB c), [], w).
Proof.
  intros Hparts Hbefore. unfold post_upload, catch.
  rewrite Hparts, (read_parts_broken before after c empty_form Hbefore).
  reflexivity.
Qed.

End UploadFacts.

Section UploadRuns.
Import JS Builtins Storage StorageExamples.

Local Notation stored_bytes := (WriteFile stored_photo (fp_buffer photo)).

Example photo_upload_run :
  exists a t w',
    post tracking_down photo_upload [] = (Ok a, t, w')
    /\ code a = 200%nat /\ In stored_bytes t.
Proof.
  eexists. eexists. eexists. split; [vm_compute; reflexivity|].
  split; [reflexivity|]. right. left. reflexivity.
Qed.

(** The upload of the examples, with the tracking service down. *)
Lemma upload_rejections_write_nothing_witness :
  exists a,
    fst (fst (post tracking_down photo_upload [])) = Ok a
    /\ ((exists path data,
           In (WriteFile path data)
              (snd (fst (post tracking_down photo_upload [])))) ->
        code a = 200%nat \/ exists c, a = upload_failed None c).
Proof.
  destruct (post tracking_down photo_upload []) as [[r t] w'] eqn:Hrun.
  exact (upload_rejections_write_nothing World root posix_join None bool
           (fun t => t) Tenant_findById canPerformAction Date_now fs_mkdir
           fs_writeFile fs_stat generateSignedUrl tracking_down photo_upload
           [] w' r t Hrun).
Defined.


Lemma upload_success_lists_written_files_witness :
  exists f saved,
    read_parts (parts photo_upload) empty_form = Ok f
    /\ List.map sf_name saved = [js "my photo.png"]
    /\ List.map sf_filename saved = [js "1700000000000-my_photo.png"]
    /\ filter is_write (snd (fst (post tracking_down photo_upload [])))
       = [stored_bytes].
Proof.
  destruct (post tracking_down photo_upload []) as [[r t] w'] eqn:Hrun.
  pose proof Hrun as Hc. vm_compute in Hc. injection Hc as Hr Ht Hw.
  rewrite <- Hr in Hrun.
  destruct (upload_success_lists_written_files World root posix_join None bool
              (fun t => t) Tenant_findById canPerformAction Date_now fs_mkdir
              fs_writeFile fs_stat generateSignedUrl tracking_down photo_upload
              [] w' _ t Hrun eq_refl)
    as [f [saved [Hread [_ [Hp [_ _]]]]]].
  exists f, saved. split; [exact Hread|].
  cbn [payload] in Hp. injection Hp as <-. rewrite <- Ht.
  repeat split.
Defined.

(** The tracking service down and up: the same answer. *)
Lemma upload_ignores_tracking_failures_witness :
  post tracking_down photo_upload [] = post tracking_up photo_upload [].
Proof.
  apply (upload_ignores_tracking_failures World root posix_join None bool
           (fun t => t) Tenant_findById canPerformAction Date_now fs_mkdir
           fs_writeFile fs_stat generateSignedUrl tracking_down tracking_up
           photo_upload []).
  intros record w0. reflexivity.
Defined.

(** The path of the stored photo, read by the migration helper. *)
Lemma uploaded_paths_read_back_witness :
  Converter.extractFileMetadataFromUrl
    (js "/api/v1/uploads/t1/work_orders/wo7/1700000000000-my_photo.png")
  = Normal (Some {| Converter.filename :=
                      Some (JString (js "1700000000000-my_photo.png"));
                    Converter.scope := Some (JString (js "work_orders"));
                    Converter.ownerId := Some (JString (js "wo7"));
                    Converter.tenantId := Some (JString (js "t1")) |}).
Proof.
  destruct (post tracking_down photo_upload []) as [[r t] w'] eqn:Hrun.
  pose proof Hrun as Hc. vm_compute in Hc. injection Hc as Hr Ht Hw.
  rewrite <- Hr in Hrun.
  match type of Hrun with
  | _ = (Ok {| code := _; payload := Saved [?e] |}, _, _) =>
      pose proof (uploaded_paths_read_back World root posix_join None bool
                    (fun t => t) Tenant_findById canPerformAction Date_now
                    fs_mkdir fs_writeFile fs_stat generateSignedUrl
                    tracking_down photo_upload [] w' _ t
                    {| files := [photo]; scope := js "workOrder"; taskId := [];
                       workOrderId := js "wo7"; reportId := [];
                       logoType := [] |}
                    [e] e Hrun eq_refl (or_introl eq_refl)) as Hback
  end.
  apply Hback; try (intros Hin; vm_compute in Hin; intuition discriminate).
  - vm_compute. reflexivity.
  - repeat constructor.
Defined.

(** The second file of a body is over the limit: the first is not stored. *)
Lemma upload_with_broken_body_stores_nothing_witness :
  post tracking_up
    {| parts := [Yield (FilePart photo);
                 Broken (Some (js "FST_REQ_FILE_TOO_LARGE"))];
       user := owner;
       header_host := Gateway.VString (js "api.example.com");
       header_forwarded_proto := Gateway.VUndefined;
       protocol := js "http" |} []
  = (Ok {| code := 413;
           payload := Failure (js "File too large. Maximum size is 10MB per file.") |},
     [], []).
Proof.
  apply (upload_with_broken_body_stores_nothing World root posix_join None bool
           (fun t => t) Tenant_findById canPerformAction Date_now fs_mkdir
           fs_writeFile fs_stat generateSignedUrl tracking_up _ []
           [Yield (FilePart photo)] [] (Some (js "FST_REQ_FILE_TOO_LARGE")));
    reflexivity.
Defined.


(** The owner segment is not looked at before it is joined to the path.
    With [path.join] as it is on an absolute path, a [taskId] that climbs out
    of the directory makes the upload of a caller of tenant [t1] create a
    directory, and write the file, under [uploads/t2]. *)
Example upload_with_climbing_owner :
  exists a rest w',
    post_upload World root node_join None bool (fun t => t) Tenant_findById
      canPerformAction Date_now fs_mkdir fs_writeFile fs_stat generateSignedUrl
      tracking_up climbing_upload []
    = (Ok a,
       Mkdir (js "/srv/app/uploads/t2/tasks/o1")
       :: WriteFile (js "/srv/app/uploads/t2/tasks/o1/1700000000000-my_photo.png")
                    (fp_buffer photo)
       :: rest, w')
    /\ code a = 200%nat.
Proof.
  eexists. eexists. eexists. split; [vm_compute; reflexivity|reflexivity].
Qed.

End UploadRuns.
